(** * NetworkController: a shallow embedding and its specification

    The controller of [src/ui/pages/home/home.container.js] (the TypeScript
    class [NetworkController] in the second half of that file) is embedded
    as pure functions over an explicit controller record.  Stores are
    fields, the messenger's subscription list is a field, and every
    observable action of a method (a store write, a publish, an RPC that is
    sent, a metrics call, a log line) is appended to an effect trace that
    the method returns next to the new controller.

    Asynchronous methods are cut at their single [await]: the part that
    runs synchronously when the method is called, and the continuation that
    runs once the awaited RPCs have settled. *)

From Stdlib Require Import ZArith Ascii String.
From stdpp Require Import gmap strings list fin_maps pretty.

Local Open Scope string_scope.
Local Open Scope Z_scope.
Local Open Scope list_scope.
Local Set Warnings "-register-all".

(** ** JavaScript values as far as the controller inspects them *)

Module Js.

(** The values that reach the controller from outside: RPC results, RPC
    errors, the outcome of [JSON.parse].  Numbers are restricted to
    integers; the controller compares one number (an error code) and
    converts one value (the result of [net_version]) to a string. *)
Inductive value : Type :=
  | Undefined
  | Null
  | Bool (b : bool)
  | Num (n : Z)
  | Str (s : string)
  | Obj (fields : list (string * value))
  | Arr (items : list value).

Fixpoint assoc {A : Type} (k : string) (l : list (string * A)) : option A :=
  match l with
  | [] => None
  | (k', v) :: rest => if String.eqb k k' then Some v else assoc k rest
  end.

(** [v.k] on a value that is known not to be null or undefined; own
    properties of objects only (prototype properties such as [length] are
    not modelled, the controller reads none). *)
Definition get (v : value) (k : string) : value :=
  match v with
  | Obj fields => default Undefined (assoc k fields)
  | _ => Undefined
  end.

(** [k in v] guarded by [typeof v === 'object' && v !== null]. *)
Definition object_has (v : value) (k : string) : bool :=
  match v with
  | Obj fields => bool_decide (is_Some (assoc k fields))
  | _ => false
  end.

(** [isPlainObject] of [@metamask/utils]: a non-null object whose prototype
    is the end of its prototype chain; arrays are not plain. *)
Definition isPlainObject (v : value) : bool :=
  match v with
  | Obj _ => true
  | _ => false
  end.

Definition is_undefined (v : value) : bool :=
  match v with
  | Undefined => true
  | _ => false
  end.

(** Truthiness of an optional string: [undefined] and [''] are falsy. *)
Definition truthy (s : option string) : bool :=
  match s with
  | Some s => negb (String.eqb s "")
  | None => false
  end.

(** [{...o, [k]: v}]: an existing property keeps its place, a new one is
    added last. *)
Fixpoint obj_set {A : Type} (k : string) (v : A) (o : list (string * A))
  : list (string * A) :=
  match o with
  | [] => [(k, v)]
  | (k', v') :: rest =>
      if String.eqb k k' then (k, v) :: rest else (k', v') :: obj_set k v rest
  end.

(** [delete o[k]] on a copy of [o]. *)
Fixpoint obj_delete {A : Type} (k : string) (o : list (string * A))
  : list (string * A) :=
  match o with
  | [] => []
  | (k', v') :: rest =>
      if String.eqb k k' then obj_delete k rest else (k', v') :: obj_delete k rest
  end.

(** [Object.values(o)]. *)
Definition values {A : Type} (o : list (string * A)) : list A := map snd o.

(** The names of the properties of [Object.prototype], which every plain
    object inherits: [o[k]] finds them when [o] has no own property [k].
    [__proto__] reads as [Object.prototype] itself and the others are
    functions, so each of them is truthy, has no enumerable own property
    (spreading it adds nothing) and no property [rpcUrl]. *)
Definition Object_prototype : list string :=
  ["constructor"; "__defineGetter__"; "__defineSetter__"; "hasOwnProperty";
   "__lookupGetter__"; "__lookupSetter__"; "isPrototypeOf";
   "propertyIsEnumerable"; "toString"; "valueOf"; "__proto__";
   "toLocaleString"].

Definition inherited (k : string) : bool :=
  bool_decide (k ∈ Object_prototype).

(** The double quote character, for the messages that quote a value. *)
Definition dq : string := String (ascii_of_N 34) EmptyString.

Definition lower_ascii (c : ascii) : ascii :=
  let n := N_of_ascii c in
  if ((65 <=? n) && (n <=? 90))%N then ascii_of_N (n + 32) else c.

(** Lower-casing of the ASCII letters, the other bytes left as they are:
    what [String.prototype.toLowerCase] does to a string of ASCII
    characters.  It is the case folding of the sample environment only;
    the controller is specified for the host's own [toLowerCase]. *)
Fixpoint toLowerCase_ascii (s : string) : string :=
  match s with
  | EmptyString => EmptyString
  | String c rest => String (lower_ascii c) (toLowerCase_ascii rest)
  end.

Definition is_digit (c : ascii) : bool :=
  let n := N_of_ascii c in ((48 <=? n) && (n <=? 57))%N.

Fixpoint all_digits (s : string) : bool :=
  match s with
  | EmptyString => true
  | String c rest => is_digit c && all_digits rest
  end.

(** [/^\d+$/u.test(s)] on a string. *)
Definition test_decimal (s : string) : bool :=
  negb (String.eqb s "") && all_digits s.

(** [Number.isNaN(Number(v))] for a value [v] that converts to the string
    [s].  Exact on the strings that pass [test_decimal], the only ones the
    controller evaluates it on (the conjunction in [assertNetworkId]
    short-circuits): a value whose string is a non-empty run of digits is
    that string, the number it spells, or an array around one of them, and
    converts to a number (possibly [Infinity]), never to [NaN]. *)
Definition number_is_nan (s : string) : bool := negb (test_decimal s).

(** Trailing zeros removed. *)
Fixpoint strip_zeros (s : string) : string :=
  match s with
  | EmptyString => EmptyString
  | String c rest =>
      match strip_zeros rest with
      | EmptyString =>
          if Ascii.eqb c "0" then EmptyString else String c EmptyString
      | r => String c r
      end
  end.

(** [Number.prototype.toString] on an integer: its decimal digits below
    [10^21], the exponential notation from there on.  Exact for the
    integers that are numbers of JavaScript and have at most 17
    significant digits; for the others the digits before [e+] are those of
    the integer, where JavaScript prints the shortest digits that
    distinguish the number. *)
Definition Number_toString (n : Z) : string :=
  let digits := pretty (Z.abs n) in
  let sign := if n <? 0 then "-" else "" in
  if Z.abs n <? 10 ^ 21 then sign +:+ digits
  else
    match digits with
    | String d rest =>
        let fraction := strip_zeros rest in
        sign +:+ String d
          (match fraction with
           | EmptyString => ""
           | _ => "." +:+ fraction
           end)
        +:+ "e+" +:+ pretty (String.length rest)
    | EmptyString => sign
    end.

(** [ToString(v)], the conversion that [RegExp.prototype.test] applies to
    its argument; [None] when it throws a [TypeError].  A plain object
    converts through [Object.prototype.toString] unless it has an own
    property [toString]: the values here come from JSON, so that property
    is not callable, [valueOf] returns the object, and the conversion
    throws.  An array joins the strings of its elements with commas, [null]
    and [undefined] counting as empty. *)
Fixpoint ToString (v : value) : option string :=
  match v with
  | Undefined => Some "undefined"
  | Null => Some "null"
  | Bool b => Some (if b then "true" else "false")
  | Num n => Some (Number_toString n)
  | Str s => Some s
  | Obj fields =>
      match assoc "toString" fields with
      | Some _ => None
      | None => Some "[object Object]"
      end
  | Arr items =>
      (fix join (l : list value) : option string :=
         match l with
         | [] => Some ""
         | x :: rest =>
             match
               match x with
               | Undefined | Null => Some ""
               | _ => ToString x
               end
             with
             | None => None
             | Some s =>
                 match rest with
                 | [] => Some s
                 | _ =>
                     match join rest with
                     | None => None
                     | Some r => Some (s +:+ "," +:+ r)
                     end
                 end
             end
         end) items
  end.

(** [hay.includes(needle)]. *)
Fixpoint includes (needle hay : string) : bool :=
  String.prefix needle hay ||
  match hay with
  | EmptyString => false
  | String _ rest => includes needle rest
  end.

Definition hex_digit (c : ascii) : option Z :=
  let n := Z.of_N (N_of_ascii c) in
  if (48 <=? n) && (n <=? 57) then Some (n - 48)
  else if (97 <=? n) && (n <=? 102) then Some (n - 87)
  else if (65 <=? n) && (n <=? 70) then Some (n - 55)
  else None.

Fixpoint hex_run (acc : Z) (seen : bool) (s : string) : option Z :=
  match s with
  | EmptyString => if seen then Some acc else None
  | String c rest =>
      match hex_digit c with
      | Some d => hex_run (16 * acc + d) true rest
      | None => if seen then Some acc else None
      end
  end.

Definition is_space (c : ascii) : bool :=
  let n := N_of_ascii c in ((n =? 32) || ((9 <=? n) && (n <=? 13)))%N.

Fixpoint skip_space (s : string) : string :=
  match s with
  | String c rest => if is_space c then skip_space rest else s
  | EmptyString => s
  end.

Definition strip_0x (s : string) : string :=
  match s with
  | String "0" (String "x" rest) => rest
  | String "0" (String "X" rest) => rest
  | _ => s
  end.

(** [parseInt(s, 16)]: leading white space, a sign, an optional [0x], then
    the longest run of hexadecimal digits; [None] stands for [NaN].  The
    result is the exact integer (rounding to a double is not modelled). *)
Definition parseInt16 (s : string) : option Z :=
  match skip_space s with
  | String "-" rest => Z.opp <$> hex_run 0 false (strip_0x rest)
  | String "+" rest => hex_run 0 false (strip_0x rest)
  | rest => hex_run 0 false (strip_0x rest)
  end.

End Js.

(** ** Data model *)

(** [NetworkStatus] of [shared/constants/network]. *)
Inductive NetworkStatus : Type :=
  | Unknown
  | Available
  | Blocked
  | Unavailable.

#[global] Instance NetworkStatus_eq_dec : EqDecision NetworkStatus.
Proof. solve_decision. Defined.

Inductive NetworkControllerEventType : Type :=
  | NetworkDidChange
  | NetworkWillChange
  | InfuraIsBlocked
  | InfuraIsUnblocked.

#[global] Instance NetworkControllerEventType_eq_dec :
  EqDecision NetworkControllerEventType.
Proof. solve_decision. Defined.

Record RpcPrefs : Type := mkRpcPrefs {
  blockExplorerUrl : option string
}.

(** [ProviderConfiguration].  Every field but [type] may be missing at run
    time ([lookupNetwork] tests [chainId] for it).  [setActiveNetwork]
    spreads a whole network configuration into the value it stores, so the
    stored object also carries that configuration's [id]. *)
Record ProviderConfiguration : Type := mkProviderConfiguration {
  type : string;
  chainId : option string;
  rpcUrl : option string;
  ticker : option string;
  nickname : option string;
  rpcPrefs : option RpcPrefs;
  config_id : option string
}.

(** [NetworkConfiguration]: an entry of the registry of custom networks. *)
Record NetworkConfiguration : Type := mkNetworkConfiguration {
  nc_id : string;
  nc_rpcUrl : string;
  nc_chainId : string;
  nc_ticker : string;
  nc_nickname : option string;
  nc_rpcPrefs : option RpcPrefs
}.

(** [NetworkConfigurations]: a JavaScript object keyed by id.  Its
    properties are kept in insertion order, the order in which
    [Object.values] lists them (ids are uuids, never integer-like keys). *)
Definition NetworkConfigurations : Type := list (string * NetworkConfiguration).

(** [NetworkDetails]: the map of EIP flags (a slot may hold [undefined])
    and whatever else the embedding application stored next to it. *)
Record NetworkDetails : Type := mkNetworkDetails {
  EIPS : gmap Z (option bool);
  otherProperties : list (string * Js.value)
}.

(** [EIPS[k]]: an absent slot and a slot holding [undefined] read alike. *)
Definition eip (d : NetworkDetails) (k : Z) : option bool :=
  match EIPS d !! k with
  | Some (Some b) => Some b
  | _ => None
  end.

(** What [createNetworkClient] is called with. *)
Inductive NetworkClientConfiguration : Type :=
  | InfuraClient (network : string) (infuraProjectId : string)
  | CustomClient (chainId : option string) (rpcUrl : string).

(** Modelled from the spec: [createNetworkClient] of
    [./create-network-client] is not in the sources.  The spec makes it a
    pure constructor whose result is an independent provider and block
    tracker pair on every call; a client is its configuration together
    with the serial number of the call that built it. *)
Record NetworkClient : Type := mkNetworkClient {
  client_serial : nat;
  client_configuration : NetworkClientConfiguration
}.

(** A swappable proxy: the object itself never changes, its target does. *)
Record SwappableProxy : Type := mkSwappableProxy {
  target : NetworkClient
}.

Inductive MetaMetricsEventCategory : Type :=
  | Network.

Record MetaMetricsEventPayload : Type := mkMetaMetricsEventPayload {
  event : string;
  category : MetaMetricsEventCategory;
  referrer_url : string;
  properties_chain_id : string;
  properties_symbol : string;
  properties_source : string
}.

(** The local state of one activation of [lookupNetwork] that is suspended
    at its [await]: the flag its one-shot listener sets, and the
    [isInfura] it computed from the snapshot of the provider
    configuration. *)
Record LookupFrame : Type := mkLookupFrame {
  isInfura : bool;
  networkChanged : bool
}.

(** The controller: its six stores, its run-time fields, the listeners it
    has subscribed to [NetworkDidChange] on the messenger (in subscription
    order, each named by the activation that owns it) and the suspended
    activations of [lookupNetwork]. *)
Record NetworkController : Type := mkNetworkController {
  providerStore : ProviderConfiguration;
  previousProviderStore : ProviderConfiguration;
  networkIdStore : option Js.value;
  networkStatusStore : NetworkStatus;
  networkDetails : NetworkDetails;
  networkConfigurationsStore : NetworkConfigurations;
  _provider : option NetworkClient;
  _blockTracker : option NetworkClient;
  _providerProxy : option SwappableProxy;
  _blockTrackerProxy : option SwappableProxy;
  _infuraProjectId : string;
  didChangeListeners : list nat;
  lookups : gmap nat LookupFrame;
  activations : nat;
  clients : nat
}.

(** Everything a method does that the outside can observe. *)
Inductive Effect : Type :=
  | Publish (e : NetworkControllerEventType)
  | PutProvider (pc : ProviderConfiguration)
  | PutPreviousProvider (pc : ProviderConfiguration)
  | PutNetworkId (n : option Js.value)
  | PutNetworkStatus (s : NetworkStatus)
  | PutNetworkDetails (d : NetworkDetails)
  | PutNetworkConfigurations (r : NetworkConfigurations)
  | SendAsync (method : string)
  | CreateNetworkClient (c : NetworkClientConfiguration)
  | TrackMetaMetricsEvent (p : MetaMetricsEventPayload)
  | LogWarn (message : string)
  | LogInfo (message : string).

(** What a method can throw. *)
Inductive Exception : Type :=
  | AssertionError (message : string)
  | Error (message : string)
  | TypeError (message : string)
  | Rejection (reason : Js.value).

(** Built-in networks as [BUILT_IN_INFURA_NETWORKS] lists them. *)
Record BuiltInInfuraNetwork : Type := mkBuiltInInfuraNetwork {
  bi_chainId : string;
  bi_ticker : option string;
  bi_blockExplorerUrl : option string
}.

(** The constants and helpers that [NetworkController] imports and whose
    definitions are not in the sources, and the host functions it calls
    ([JSON.parse], [new URL], [String.prototype.toLowerCase]).  The
    development is parametric in them.

    - [toLowerCase s]: [s.toLowerCase()], which lowers every cased letter
      of [s], whatever its script.
    - [JSON_parse v]: [None] when [JSON.parse(v)] throws.
    - [URL_constructor s]: the value [new URL(s)] throws, if it throws.
    - [isSafeChainId] receives the result of [parseInt], [None] for [NaN].
    - [rpc_not_builtin]: [ProviderType] is the union of the built-in
      names and ["rpc"], which is not one of them. *)
Class Externals : Type := mkExternals {
  INFURA_PROVIDER_TYPES : list string;
  BUILT_IN_INFURA_NETWORKS : string → option BuiltInInfuraNetwork;
  isPrefixedFormattedHexString : string → bool;
  isSafeChainId : option Z → bool;
  isErrorWithMessage : Js.value → bool;
  JSON_parse : Js.value → option Js.value;
  URL_constructor : string → option Js.value;
  toLowerCase : string → string;
  rpc_not_builtin : "rpc" ∉ INFURA_PROVIDER_TYPES
}.

(** [NETWORK_TYPES.RPC]: the type the sources' comments and messages
    call ["rpc"]. *)
Module NETWORK_TYPES.
Definition RPC : string := "rpc".
End NETWORK_TYPES.

(** Modelled from the spec: [INFURA_BLOCKED_KEY] of
    [shared/constants/network] is not in the sources.  The spec's blocked
    scenario has the sentinel be ["countryBlocked"]. *)
Definition INFURA_BLOCKED_KEY : string := "countryBlocked".

(** [errorCodes.rpc.internal] of the library [eth-rpc-errors]: the code
    that JSON-RPC reserves for internal errors. *)
Definition errorCodes_rpc_internal : Z := -32603.

(** ** Field updates of the controller record *)

Definition set_providerStore (v : ProviderConfiguration) (c : NetworkController)
  : NetworkController :=
  mkNetworkController
    v (previousProviderStore c) (networkIdStore c) (networkStatusStore c)
    (networkDetails c) (networkConfigurationsStore c) (_provider c)
    (_blockTracker c) (_providerProxy c) (_blockTrackerProxy c)
    (_infuraProjectId c) (didChangeListeners c) (lookups c) (activations c)
    (clients c).

Definition set_previousProviderStore (v : ProviderConfiguration) (c : NetworkController)
  : NetworkController :=
  mkNetworkController
    (providerStore c) v (networkIdStore c) (networkStatusStore c)
    (networkDetails c) (networkConfigurationsStore c) (_provider c)
    (_blockTracker c) (_providerProxy c) (_blockTrackerProxy c)
    (_infuraProjectId c) (didChangeListeners c) (lookups c) (activations c)
    (clients c).

Definition set_networkIdStore (v : option Js.value) (c : NetworkController)
  : NetworkController :=
  mkNetworkController
    (providerStore c) (previousProviderStore c) v (networkStatusStore c)
    (networkDetails c) (networkConfigurationsStore c) (_provider c)
    (_blockTracker c) (_providerProxy c) (_blockTrackerProxy c)
    (_infuraProjectId c) (didChangeListeners c) (lookups c) (activations c)
    (clients c).

Definition set_networkStatusStore (v : NetworkStatus) (c : NetworkController)
  : NetworkController :=
  mkNetworkController
    (providerStore c) (previousProviderStore c) (networkIdStore c) v
    (networkDetails c) (networkConfigurationsStore c) (_provider c)
    (_blockTracker c) (_providerProxy c) (_blockTrackerProxy c)
    (_infuraProjectId c) (didChangeListeners c) (lookups c) (activations c)
    (clients c).

Definition set_networkDetails (v : NetworkDetails) (c : NetworkController)
  : NetworkController :=
  mkNetworkController
    (providerStore c) (previousProviderStore c) (networkIdStore c)
    (networkStatusStore c) v (networkConfigurationsStore c) (_provider c)
    (_blockTracker c) (_providerProxy c) (_blockTrackerProxy c)
    (_infuraProjectId c) (didChangeListeners c) (lookups c) (activations c)
    (clients c).

Definition set_networkConfigurationsStore (v : NetworkConfigurations) (c : NetworkController)
  : NetworkController :=
  mkNetworkController
    (providerStore c) (previousProviderStore c) (networkIdStore c)
    (networkStatusStore c) (networkDetails c) v (_provider c)
    (_blockTracker c) (_providerProxy c) (_blockTrackerProxy c)
    (_infuraProjectId c) (didChangeListeners c) (lookups c) (activations c)
    (clients c).

Definition set_provider (v : option NetworkClient) (c : NetworkController)
  : NetworkController :=
  mkNetworkController
    (providerStore c) (previousProviderStore c) (networkIdStore c)
    (networkStatusStore c) (networkDetails c) (networkConfigurationsStore c)
    v (_blockTracker c) (_providerProxy c) (_blockTrackerProxy c)
    (_infuraProjectId c) (didChangeListeners c) (lookups c) (activations c)
    (clients c).

Definition set_blockTracker (v : option NetworkClient) (c : NetworkController)
  : NetworkController :=
  mkNetworkController
    (providerStore c) (previousProviderStore c) (networkIdStore c)
    (networkStatusStore c) (networkDetails c) (networkConfigurationsStore c)
    (_provider c) v (_providerProxy c) (_blockTrackerProxy c)
    (_infuraProjectId c) (didChangeListeners c) (lookups c) (activations c)
    (clients c).

Definition set_providerProxy (v : option SwappableProxy) (c : NetworkController)
  : NetworkController :=
  mkNetworkController
    (providerStore c) (previousProviderStore c) (networkIdStore c)
    (networkStatusStore c) (networkDetails c) (networkConfigurationsStore c)
    (_provider c) (_blockTracker c) v (_blockTrackerProxy c)
    (_infuraProjectId c) (didChangeListeners c) (lookups c) (activations c)
    (clients c).

Definition set_blockTrackerProxy (v : option SwappableProxy) (c : NetworkController)
  : NetworkController :=
  mkNetworkController
    (providerStore c) (previousProviderStore c) (networkIdStore c)
    (networkStatusStore c) (networkDetails c) (networkConfigurationsStore c)
    (_provider c) (_blockTracker c) (_providerProxy c) v
    (_infuraProjectId c) (didChangeListeners c) (lookups c) (activations c)
    (clients c).

Definition set_didChangeListeners (v : list nat) (c : NetworkController)
  : NetworkController :=
  mkNetworkController
    (providerStore c) (previousProviderStore c) (networkIdStore c)
    (networkStatusStore c) (networkDetails c) (networkConfigurationsStore c)
    (_provider c) (_blockTracker c) (_providerProxy c)
    (_blockTrackerProxy c) (_infuraProjectId c) v (lookups c)
    (activations c) (clients c).

Definition set_lookups (v : gmap nat LookupFrame) (c : NetworkController)
  : NetworkController :=
  mkNetworkController
    (providerStore c) (previousProviderStore c) (networkIdStore c)
    (networkStatusStore c) (networkDetails c) (networkConfigurationsStore c)
    (_provider c) (_blockTracker c) (_providerProxy c)
    (_blockTrackerProxy c) (_infuraProjectId c) (didChangeListeners c) v
    (activations c) (clients c).

Definition set_activations (v : nat) (c : NetworkController)
  : NetworkController :=
  mkNetworkController
    (providerStore c) (previousProviderStore c) (networkIdStore c)
    (networkStatusStore c) (networkDetails c) (networkConfigurationsStore c)
    (_provider c) (_blockTracker c) (_providerProxy c)
    (_blockTrackerProxy c) (_infuraProjectId c) (didChangeListeners c)
    (lookups c) v (clients c).

Definition set_clients (v : nat) (c : NetworkController)
  : NetworkController :=
  mkNetworkController
    (providerStore c) (previousProviderStore c) (networkIdStore c)
    (networkStatusStore c) (networkDetails c) (networkConfigurationsStore c)
    (_provider c) (_blockTracker c) (_providerProxy c)
    (_blockTrackerProxy c) (_infuraProjectId c) (didChangeListeners c)
    (lookups c) (activations c) v.

(** ** The monad of controller methods

    A method reads and writes the controller, appends to the effect trace
    and either returns or throws.  A throw keeps the writes and the trace
    made before it, as in JavaScript. *)

Inductive Completion (A : Type) : Type :=
  | Normal (a : A)
  | Throw (e : Exception).

Arguments Normal {A} a.
Arguments Throw {A} e.

Definition M (A : Type) : Type :=
  NetworkController → Completion A * NetworkController * list Effect.

Definition ret {A : Type} (a : A) : M A :=
  fun c => (Normal a, c, []).

Definition bind {A B : Type} (m : M A) (k : A → M B) : M B :=
  fun c =>
    match m c with
    | (Normal a, c1, t1) =>
        match k a c1 with
        | (r, c2, t2) => (r, c2, t1 ++ t2)
        end
    | (Throw e, c1, t1) => (Throw e, c1, t1)
    end.

Definition throw {A : Type} (e : Exception) : M A :=
  fun c => (Throw e, c, []).

Definition emit (e : Effect) : M unit :=
  fun c => (Normal tt, c, [e]).

Definition read {A : Type} (f : NetworkController → A) : M A :=
  fun c => (Normal (f c), c, []).

Definition modify (f : NetworkController → NetworkController) : M unit :=
  fun c => (Normal tt, f c, []).

(** [assert.ok(b, message)]. *)
Definition assert_ok (b : bool) (message : string) : M unit :=
  if b then ret tt else throw (AssertionError message).

Declare Scope method_scope.
Delimit Scope method_scope with method.
Bind Scope method_scope with M.

Notation "x <- m ;; k" := (bind m (fun x => k))
  (at level 100, m at next level, right associativity) : method_scope.
Notation "m ;; k" := (bind m (fun _ => k))
  (at level 100, right associativity) : method_scope.

Local Open Scope method_scope.

Definition completion {A : Type} (r : Completion A * NetworkController * list Effect)
  : Completion A := r.1.1.

Definition after {A : Type} (r : Completion A * NetworkController * list Effect)
  : NetworkController := r.1.2.

Definition trace {A : Type} (r : Completion A * NetworkController * list Effect)
  : list Effect := r.2.

(** ** Outcomes of the awaited RPCs *)

Inductive Settled (A : Type) : Type :=
  | Fulfilled (a : A)
  | Rejected (reason : Js.value).

Arguments Fulfilled {A} a.
Arguments Rejected {A} reason.

(** How the two requests of one probe settle: [net_version] (whatever the
    response holds as its result; [_getNetworkId] passes it on
    unchecked), the latest block, and which of the two
    settles first (it decides which rejection [Promise.all] reports when
    both reject). *)
Record ProbeOutcome : Type := mkProbeOutcome {
  net_version : Settled Js.value;
  latestBlock : Settled Js.value;
  blockSettlesFirst : bool
}.

(** The arguments of [upsertNetworkConfiguration]; [None] is a property
    that the caller left out. *)
Record NetworkConfigurationInput : Type := mkNetworkConfigurationInput {
  in_rpcUrl : option string;
  in_chainId : string;
  in_ticker : option string;
  in_nickname : option string;
  in_rpcPrefs : option RpcPrefs
}.

Record UpsertOptions : Type := mkUpsertOptions {
  setActive : bool;
  referrer : option string;
  source : option string
}.

(** The string an optional argument holds once it has been checked to be
    truthy. *)
Definition the (s : option string) : string := default "" s.

(** ** The controller's methods *)

Section Methods.

Context `{ext : Externals}.

Definition isErrorWithCode (error : Js.value) : bool :=
  Js.object_has error "code".

(** What [assert] throws, with the two properties the controller looks at. *)
Definition AssertionError_value (message : string) : Js.value :=
  Js.Obj [("message", Js.Str message); ("code", Js.Str "ERR_ASSERTION")].

(** A [TypeError] that the engine throws: it has a message and no code. *)
Definition TypeError_value (message : string) : Js.value :=
  Js.Obj [("message", Js.Str message)].

(** [assertNetworkId(value)]: what the call throws, if it throws.  The
    pattern is tested on the string that [value] converts to, whatever
    [value] is, and the conversion itself can throw. *)
Definition assertNetworkId (value : Js.value) : option Js.value :=
  match Js.ToString value with
  | None => Some (TypeError_value "Cannot convert object to primitive value")
  | Some s =>
      if Js.test_decimal s && negb (Js.number_is_nan s) then None
      else Some (AssertionError_value "value is not a number")
  end.

Definition localhost_8545 : ProviderConfiguration :=
  {| type := NETWORK_TYPES.RPC;
     chainId := Some "0x539";
     rpcUrl := Some "http://localhost:8545";
     ticker := Some "ETH";
     nickname := Some "Localhost 8545";
     rpcPrefs := None;
     config_id := None |}.

Definition buildDefaultNetworkIdState : option Js.value := None.

Definition buildDefaultNetworkStatusState : NetworkStatus := Unknown.

Definition buildDefaultNetworkDetailsState : NetworkDetails :=
  {| EIPS := {[ 1559 := None ]}; otherProperties := [] |}.

Definition buildDefaultNetworkConfigurationsState : NetworkConfigurations := [].

Definition isInfuraProviderType (type : string) : bool :=
  bool_decide (type ∈ INFURA_PROVIDER_TYPES).

(** The constructor.  [defaultProvider] is what
    [buildDefaultProviderConfigState] returns in the running build
    ([localhost_8545] under [IN_TEST]; the other two branches read
    constants that are not in the sources). *)
Definition blank
    (provider : ProviderConfiguration) (details : NetworkDetails)
    (configurations : NetworkConfigurations) (infuraProjectId : string)
  : NetworkController :=
  {| providerStore := provider;
     previousProviderStore := provider;
     networkIdStore := buildDefaultNetworkIdState;
     networkStatusStore := buildDefaultNetworkStatusState;
     networkDetails := details;
     networkConfigurationsStore := configurations;
     _provider := None;
     _blockTracker := None;
     _providerProxy := None;
     _blockTrackerProxy := None;
     _infuraProjectId := infuraProjectId;
     didChangeListeners := [];
     lookups := ∅;
     activations := 0%nat;
     clients := 0%nat |}.

Definition constructor
    (defaultProvider : ProviderConfiguration)
    (state_provider : option ProviderConfiguration)
    (state_networkDetails : option NetworkDetails)
    (state_networkConfigurations : option NetworkConfigurations)
    (infuraProjectId : string) : Completion NetworkController :=
  if String.eqb infuraProjectId "" then Throw (Error "Invalid Infura project ID")
  else Normal
    (blank (default defaultProvider state_provider)
       (default buildDefaultNetworkDetailsState state_networkDetails)
       (default buildDefaultNetworkConfigurationsState
          state_networkConfigurations)
       infuraProjectId).

(** *** Stores: [putState] and [updateState] *)

Definition providerStore_putState (pc : ProviderConfiguration) : M unit :=
  modify (set_providerStore pc) ;; emit (PutProvider pc).

Definition previousProviderStore_putState (pc : ProviderConfiguration) : M unit :=
  modify (set_previousProviderStore pc) ;; emit (PutPreviousProvider pc).

Definition networkIdStore_putState (n : option Js.value) : M unit :=
  modify (set_networkIdStore n) ;; emit (PutNetworkId n).

Definition networkStatusStore_putState (st : NetworkStatus) : M unit :=
  modify (set_networkStatusStore st) ;; emit (PutNetworkStatus st).

Definition networkDetails_putState (d : NetworkDetails) : M unit :=
  modify (set_networkDetails d) ;; emit (PutNetworkDetails d).

Definition networkConfigurationsStore_putState (r : NetworkConfigurations)
  : M unit :=
  modify (set_networkConfigurationsStore r) ;; emit (PutNetworkConfigurations r).

(** [networkDetails.updateState({ EIPS: { ...getState().EIPS, 1559: b } })]:
    the patch replaces [EIPS], the store's other properties stay. *)
Definition networkDetails_updateState_1559 (b : bool) : M unit :=
  d <- read networkDetails ;;
  networkDetails_putState
    {| EIPS := <[ 1559 := Some b ]> (EIPS d);
       otherProperties := otherProperties d |}.

Definition _resetNetworkId : M unit :=
  networkIdStore_putState buildDefaultNetworkIdState.

Definition _resetNetworkStatus : M unit :=
  networkStatusStore_putState buildDefaultNetworkStatusState.

Definition _resetNetworkDetails : M unit :=
  networkDetails_putState buildDefaultNetworkDetailsState.

(** *** The messenger *)

(** The one-shot listener of activation [pid]: it sets that activation's
    [networkChanged] and unsubscribes itself. *)
Definition listener (pid : nat) (c : NetworkController) : NetworkController :=
  set_didChangeListeners (filter (λ q, q ≠ pid) (didChangeListeners c))
    (set_lookups
       (alter (λ fr, {| isInfura := isInfura fr; networkChanged := true |})
          pid (lookups c))
       c).

Definition messenger_subscribe (pid : nat) : M unit :=
  modify (λ c, set_didChangeListeners (didChangeListeners c ++ [pid]) c).

Definition messenger_unsubscribe (pid : nat) : M unit :=
  modify (λ c,
    set_didChangeListeners (filter (λ q, q ≠ pid) (didChangeListeners c)) c).

(** [messenger.publish]: the controller's own listeners run synchronously,
    in subscription order. *)
Definition messenger_publish (e : NetworkControllerEventType) : M unit :=
  emit (Publish e) ;;
  match e with
  | NetworkDidChange =>
      modify (λ c, foldl (λ c' pid, listener pid c') c (didChangeListeners c))
  | _ => ret tt
  end.

(** *** Probing the network *)

(** [latestBlock?.baseFeePerGas !== undefined] *)
Definition supportsEIP1559_of (latestBlock : Js.value) : bool :=
  match latestBlock with
  | Js.Null | Js.Undefined => false
  | block => negb (Js.is_undefined (Js.get block "baseFeePerGas"))
  end.

(** [Promise.all([_getNetworkId(p), _determineEIP1559Compatibility(p)])] *)
Definition Promise_all (o : ProbeOutcome) : Settled (Js.value * bool) :=
  match net_version o, latestBlock o with
  | Fulfilled n, Fulfilled b => Fulfilled (n, supportsEIP1559_of b)
  | Rejected e, Fulfilled _ => Rejected e
  | Fulfilled _, Rejected e => Rejected e
  | Rejected e1, Rejected e2 => Rejected (if blockSettlesFirst o then e2 else e1)
  end.

(** [responseBody.error === INFURA_BLOCKED_KEY] *)
Definition is_blocked_body (responseBody : Js.value) : bool :=
  match Js.get responseBody "error" with
  | Js.Str s => String.eqb s INFURA_BLOCKED_KEY
  | _ => false
  end.

(** [error.code === errorCodes.rpc.internal] *)
Definition has_internal_code (error : Js.value) : bool :=
  match Js.get error "code" with
  | Js.Num n => n =? errorCodes_rpc_internal
  | _ => false
  end.

(** The [catch] block of [lookupNetwork]. *)
Definition lookupNetwork_catch (error : Js.value) : M NetworkStatus :=
  if isErrorWithCode error && isErrorWithMessage error then
    let responseBody :=
      default Js.Undefined (JSON_parse (Js.get error "message")) in
    if Js.isPlainObject responseBody && is_blocked_body responseBody
    then ret Blocked
    else if has_internal_code error then ret Unknown
    else ret Unavailable
  else
    emit (LogWarn "NetworkController - could not determine network status") ;;
    ret Unknown.

(** The [try]/[catch] statement of [lookupNetwork]: the values of the locals
    [networkId], [supportsEIP1559] and [networkStatus] after it. *)
Definition lookupNetwork_try (o : ProbeOutcome)
  : M (option Js.value * bool * NetworkStatus) :=
  match Promise_all o with
  | Fulfilled (possibleNetworkId, supports) =>
      match assertNetworkId possibleNetworkId with
      | None => ret (Some possibleNetworkId, supports, Available)
      | Some error =>
          st <- lookupNetwork_catch error ;;
          ret (None, false, st)
      end
  | Rejected error =>
      st <- lookupNetwork_catch error ;;
      ret (None, false, st)
  end.

(** The locals of a new activation of [lookupNetwork]: [isInfura] as
    computed, [networkChanged] still false.  The activation is named by
    the number of activations before it. *)
Definition suspend (isInfura : bool) : M nat :=
  fun c =>
    let pid := activations c in
    (Normal pid,
     set_activations (S pid)
       (set_lookups
          (<[ pid := {| isInfura := isInfura; networkChanged := false |} ]>
             (lookups c))
          c),
     []).

(** [lookupNetwork] up to its [await].  [None]: the call returned at one of
    its two guards.  [Some pid]: the call sent its two requests and is
    suspended as activation [pid]. *)
Definition lookupNetwork_begin : M (option nat) :=
  pc <- read providerStore ;;
  provider <- read _providerProxy ;;
  match provider with
  | None =>
      emit (LogWarn
        "NetworkController - lookupNetwork aborted due to missing provider") ;;
      ret None
  | Some _ =>
      if negb (Js.truthy (chainId pc)) then
        emit (LogWarn
          "NetworkController - lookupNetwork aborted due to missing chainId") ;;
        _resetNetworkId ;;
        _resetNetworkStatus ;;
        _resetNetworkDetails ;;
        ret None
      else
        pid <- suspend (isInfuraProviderType (type pc)) ;;
        messenger_subscribe pid ;;
        emit (SendAsync "net_version") ;;
        emit (SendAsync "eth_getBlockByNumber") ;;
        ret (Some pid)
  end.

(** [lookupNetwork] from its [await] on, for the suspended activation
    [pid], once the requests have settled as [o].  An activation is
    continued once; continuing what is not suspended does nothing. *)
Definition lookupNetwork_resume (pid : nat) (o : ProbeOutcome) : M unit :=
  frames <- read lookups ;;
  match frames !! pid with
  | None => ret tt
  | Some fr =>
      r <- lookupNetwork_try o ;;
      let '(networkId, supportsEIP1559, networkStatus) := r in
      modify (λ c, set_lookups (delete pid (lookups c)) c) ;;
      if networkChanged fr then ret tt
      else
        messenger_unsubscribe pid ;;
        networkStatusStore_putState networkStatus ;;
        (if decide (networkStatus = Available) then
           networkIdStore_putState networkId ;;
           networkDetails_updateState_1559 supportsEIP1559
         else
           _resetNetworkId ;;
           _resetNetworkDetails) ;;
        if isInfura fr then
          if decide (networkStatus = Available) then
            messenger_publish InfuraIsUnblocked
          else if decide (networkStatus = Blocked) then
            messenger_publish InfuraIsBlocked
          else ret tt
        else messenger_publish InfuraIsUnblocked
  end.

(** [getEIP1559Compatibility] up to its [await].  [Some b]: it returned [b]
    at once.  [None]: it sent its request and is suspended. *)
Definition getEIP1559Compatibility_begin : M (option bool) :=
  d <- read networkDetails ;;
  match eip d 1559 with
  | Some b => ret (Some b)
  | None =>
      provider <- read _providerProxy ;;
      match provider with
      | None => ret (Some false)
      | Some _ => emit (SendAsync "eth_getBlockByNumber") ;; ret None
      end
  end.

(** [getEIP1559Compatibility] from its [await] on. *)
Definition getEIP1559Compatibility_resume (block : Settled Js.value) : M bool :=
  match block with
  | Rejected reason => throw (Rejection reason)
  | Fulfilled latest =>
      let supportsEIP1559 := supportsEIP1559_of latest in
      networkDetails_updateState_1559 supportsEIP1559 ;;
      ret supportsEIP1559
  end.

(** *** Building and installing a network client *)

Definition createNetworkClient (cfg : NetworkClientConfiguration)
  : M NetworkClient :=
  n <- read clients ;;
  modify (set_clients (S n)) ;;
  emit (CreateNetworkClient cfg) ;;
  ret {| client_serial := n; client_configuration := cfg |}.

Definition createSwappableProxy (t : NetworkClient) : SwappableProxy :=
  {| target := t |}.

Definition setTarget (p : SwappableProxy) (t : NetworkClient) : SwappableProxy :=
  {| target := t |}.

Definition install (proxy : option SwappableProxy) (t : NetworkClient)
  : option SwappableProxy :=
  match proxy with
  | Some p => Some (setTarget p t)
  | None => Some (createSwappableProxy t)
  end.

(** One client stands for the pair [{ provider, blockTracker }] that
    [createNetworkClient] returns. *)
Definition _setProviderAndBlockTracker (client : NetworkClient) : M unit :=
  modify (λ c, set_providerProxy (install (_providerProxy c) client) c) ;;
  modify (λ c, set_blockTrackerProxy (install (_blockTrackerProxy c) client) c) ;;
  modify (set_provider (Some client)) ;;
  modify (set_blockTracker (Some client)).

Definition _configureInfuraProvider (type infuraProjectId : string) : M unit :=
  emit (LogInfo "NetworkController - configureInfuraProvider") ;;
  client <- createNetworkClient (InfuraClient type infuraProjectId) ;;
  _setProviderAndBlockTracker client.

Definition _configureStandardProvider (rpcUrl : string) (chainId : option string)
  : M unit :=
  emit (LogInfo "NetworkController - configureStandardProvider") ;;
  client <- createNetworkClient (CustomClient chainId rpcUrl) ;;
  _setProviderAndBlockTracker client.

Definition unknown_type_message (type : string) : string :=
  "NetworkController - _configureProvider - unknown type "
    +:+ Js.dq +:+ type +:+ Js.dq.

Definition _configureProvider (pc : ProviderConfiguration) : M unit :=
  if isInfuraProviderType (type pc) then
    projectId <- read _infuraProjectId ;;
    _configureInfuraProvider (type pc) projectId
  else if String.eqb (type pc) NETWORK_TYPES.RPC && Js.truthy (rpcUrl pc) then
    _configureStandardProvider (the (rpcUrl pc)) (chainId pc)
  else throw (Error (unknown_type_message (type pc))).

(** *** Switching *)

(** [this.lookupNetwork()] is not awaited: the call runs up to its [await]
    and the switch returns. *)
Definition _switchNetwork (pc : ProviderConfiguration) : M unit :=
  messenger_publish NetworkWillChange ;;
  _resetNetworkId ;;
  _resetNetworkStatus ;;
  _resetNetworkDetails ;;
  _configureProvider pc ;;
  messenger_publish NetworkDidChange ;;
  _ <- lookupNetwork_begin ;;
  ret tt.

Definition _setProviderConfig (pc : ProviderConfiguration) : M unit :=
  current <- read providerStore ;;
  previousProviderStore_putState current ;;
  providerStore_putState pc ;;
  _switchNetwork pc.

(** [initializeProvider] up to the [await] of its [lookupNetwork]. *)
Definition initializeProvider_begin : M (option nat) :=
  pc <- read providerStore ;;
  _configureProvider
    {| type := type pc; chainId := chainId pc; rpcUrl := rpcUrl pc;
       ticker := None; nickname := None; rpcPrefs := None;
       config_id := None |} ;;
  lookupNetwork_begin.

Definition unknown_configuration_message (networkConfigurationId : string)
  : string :=
  "networkConfigurationId " +:+ networkConfigurationId
    +:+ " does not match a configured networkConfiguration".

(** [{ type: NETWORK_TYPES.RPC, ...targetNetwork }] *)
Definition rpc_configuration (targetNetwork : NetworkConfiguration)
  : ProviderConfiguration :=
  {| type := NETWORK_TYPES.RPC;
     chainId := Some (nc_chainId targetNetwork);
     rpcUrl := Some (nc_rpcUrl targetNetwork);
     ticker := Some (nc_ticker targetNetwork);
     nickname := nc_nickname targetNetwork;
     rpcPrefs := nc_rpcPrefs targetNetwork;
     config_id := Some (nc_id targetNetwork) |}.

(** [{ type: NETWORK_TYPES.RPC, ...targetNetwork }] when [targetNetwork]
    is a property of [Object.prototype]: the spread adds nothing. *)
Definition rpc_configuration_bare : ProviderConfiguration :=
  {| type := NETWORK_TYPES.RPC;
     chainId := None;
     rpcUrl := None;
     ticker := None;
     nickname := None;
     rpcPrefs := None;
     config_id := None |}.

(** [getState()[networkConfigurationId]] finds an own property of the
    registry or, failing that, a property of [Object.prototype]; the guard
    [!targetNetwork] stops neither.  The result [None] is [undefined], the
    [rpcUrl] of an inherited property. *)
Definition setActiveNetwork (networkConfigurationId : string)
  : M (option string) :=
  configurations <- read networkConfigurationsStore ;;
  match Js.assoc networkConfigurationId configurations with
  | Some targetNetwork =>
      _setProviderConfig (rpc_configuration targetNetwork) ;;
      ret (Some (nc_rpcUrl targetNetwork))
  | None =>
      if Js.inherited networkConfigurationId then
        _setProviderConfig rpc_configuration_bare ;;
        ret None
      else
        throw (Error (unknown_configuration_message networkConfigurationId))
  end.

Definition rpc_type_message : string :=
  "NetworkController - cannot call " +:+ Js.dq +:+ "setProviderType" +:+ Js.dq
    +:+ " with type " +:+ Js.dq +:+ NETWORK_TYPES.RPC +:+ Js.dq
    +:+ ". Use " +:+ Js.dq +:+ "setActiveNetwork" +:+ Js.dq.

Definition unknown_infura_message (type : string) : string :=
  "Unknown Infura provider type " +:+ Js.dq +:+ type +:+ Js.dq +:+ ".".

(** [BUILT_IN_INFURA_NETWORKS[type]] is read after both assertions; were
    the table to lack the entry, reading [network.chainId] would throw. *)
Definition setProviderType (type : string) : M unit :=
  assert_ok (negb (String.eqb type NETWORK_TYPES.RPC)) rpc_type_message ;;
  assert_ok (isInfuraProviderType type) (unknown_infura_message type) ;;
  match BUILT_IN_INFURA_NETWORKS type with
  | None => throw (TypeError "Cannot read properties of undefined")
  | Some network =>
      _setProviderConfig
        {| type := type;
           rpcUrl := Some "";
           chainId := Some (bi_chainId network);
           ticker := Some (default "ETH" (bi_ticker network));
           nickname := Some "";
           rpcPrefs :=
             Some {| blockExplorerUrl := bi_blockExplorerUrl network |};
           config_id := None |}
  end.

Definition resetConnection : M unit :=
  pc <- read providerStore ;;
  _setProviderConfig pc.

Definition rollbackToPreviousProvider : M unit :=
  config <- read previousProviderStore ;;
  providerStore_putState config ;;
  _switchNetwork config.

(** *** The registry of custom networks *)

Definition invalid_hex_message (chainId : string) : string :=
  "Invalid chain ID " +:+ Js.dq +:+ chainId +:+ Js.dq
    +:+ ": invalid hex string.".

Definition unsafe_chain_message (chainId : string) : string :=
  "Invalid chain ID " +:+ Js.dq +:+ chainId +:+ Js.dq
    +:+ ": numerical value greater than max safe value.".

(** [e.message.includes('Invalid URL')]; [None] when the call itself
    throws because [e.message] has no [includes]. *)
Definition message_includes (e : Js.value) (needle : string) : option bool :=
  match Js.get e "message" with
  | Js.Str m => Some (Js.includes needle m)
  | Js.Arr items =>
      Some (existsb
              (λ v, match v with
                    | Js.Str m => String.eqb m needle
                    | _ => false
                    end)
              items)
  | _ => None
  end.

(** The [try { new URL(rpcUrl) } catch (e) { ... }] statement. *)
Definition check_URL (rpcUrl : string) : M unit :=
  match URL_constructor rpcUrl with
  | None => ret tt
  | Some e =>
      if isErrorWithMessage e then
        match message_includes e "Invalid URL" with
        | Some true => throw (Error "rpcUrl must be a valid URL")
        | Some false => ret tt
        | None => throw (TypeError "e.message.includes is not a function")
        end
      else ret tt
  end.

(** [networkConfiguration.rpcUrl?.toLowerCase() === rpcUrl?.toLowerCase()] *)
Definition same_rpcUrl (rpcUrl : string) (networkConfiguration : NetworkConfiguration)
  : bool :=
  String.eqb (toLowerCase (nc_rpcUrl networkConfiguration))
             (toLowerCase rpcUrl).

(** [Object.values(networkConfigurations).find(...)?.id] *)
Definition oldNetworkConfigurationId
    (networkConfigurations : NetworkConfigurations) (rpcUrl : string)
  : option string :=
  nc_id <$> List.find (same_rpcUrl rpcUrl) (Js.values networkConfigurations).

Definition Custom_Network_Added
    (chainId ticker referrer source : string) : MetaMetricsEventPayload :=
  {| event := "Custom Network Added";
     category := Network;
     referrer_url := referrer;
     properties_chain_id := chainId;
     properties_symbol := ticker;
     properties_source := source |}.

(** [upsertNetworkConfiguration].  [uuid] is the value that the call
    [uuid()] returns if the method gets to it. *)
Definition upsertNetworkConfiguration
    (input : NetworkConfigurationInput) (options : UpsertOptions)
    (uuid : string) : M string :=
  assert_ok (isPrefixedFormattedHexString (in_chainId input))
    (invalid_hex_message (in_chainId input)) ;;
  assert_ok (isSafeChainId (Js.parseInt16 (in_chainId input)))
    (unsafe_chain_message (in_chainId input)) ;;
  (if negb (Js.truthy (in_rpcUrl input)) then
     throw (Error
       "An rpcUrl is required to add or update network configuration")
   else ret tt) ;;
  (if negb (Js.truthy (referrer options)) || negb (Js.truthy (source options))
   then
     throw (Error
       "referrer and source are required arguments for adding or updating a network configuration")
   else ret tt) ;;
  check_URL (the (in_rpcUrl input)) ;;
  (if negb (Js.truthy (in_ticker input)) then
     throw (Error
       "A ticker is required to add or update networkConfiguration")
   else ret tt) ;;
  networkConfigurations <- read networkConfigurationsStore ;;
  let old :=
    oldNetworkConfigurationId networkConfigurations (the (in_rpcUrl input)) in
  let newNetworkConfigurationId := if Js.truthy old then the old else uuid in
  networkConfigurationsStore_putState
    (Js.obj_set newNetworkConfigurationId
       {| nc_id := newNetworkConfigurationId;
          nc_rpcUrl := the (in_rpcUrl input);
          nc_chainId := in_chainId input;
          nc_ticker := the (in_ticker input);
          nc_nickname := in_nickname input;
          nc_rpcPrefs := in_rpcPrefs input |}
       networkConfigurations) ;;
  (if negb (Js.truthy old) then
     emit (TrackMetaMetricsEvent
             (Custom_Network_Added (in_chainId input) (the (in_ticker input))
                (the (referrer options)) (the (source options))))
   else ret tt) ;;
  (if setActive options then
     _ <- setActiveNetwork newNetworkConfigurationId ;; ret tt
   else ret tt) ;;
  ret newNetworkConfigurationId.

Definition removeNetworkConfiguration (networkConfigurationId : string)
  : M unit :=
  networkConfigurations <- read networkConfigurationsStore ;;
  networkConfigurationsStore_putState
    (Js.obj_delete networkConfigurationId networkConfigurations).

(** ** The controller as a transition system

    One step is a call of a public method up to the point where it returns
    or suspends, or the continuation of a suspended call. *)

Inductive Op : Type :=
  | InitializeProvider
  | GetEIP1559Compatibility
  | GetEIP1559Compatibility_settled (block : Settled Js.value)
  | LookupNetwork
  | LookupNetwork_settled (pid : nat) (o : ProbeOutcome)
  | SetActiveNetwork (networkConfigurationId : string)
  | SetProviderType (type : string)
  | ResetConnection
  | RollbackToPreviousProvider
  | UpsertNetworkConfiguration
      (input : NetworkConfigurationInput) (options : UpsertOptions)
      (uuid : string)
  | RemoveNetworkConfiguration (networkConfigurationId : string).

Definition forget {A : Type} (m : M A) : M unit := (_ <- m ;; ret tt).

Definition method (op : Op) : M unit :=
  match op with
  | InitializeProvider => forget initializeProvider_begin
  | GetEIP1559Compatibility => forget getEIP1559Compatibility_begin
  | GetEIP1559Compatibility_settled block =>
      forget (getEIP1559Compatibility_resume block)
  | LookupNetwork => forget lookupNetwork_begin
  | LookupNetwork_settled pid o => lookupNetwork_resume pid o
  | SetActiveNetwork i => forget (setActiveNetwork i)
  | SetProviderType t => setProviderType t
  | ResetConnection => resetConnection
  | RollbackToPreviousProvider => rollbackToPreviousProvider
  | UpsertNetworkConfiguration input options uuid =>
      forget (upsertNetworkConfiguration input options uuid)
  | RemoveNetworkConfiguration i => removeNetworkConfiguration i
  end.

(** A run: the controller after the steps and everything they did.  A
    step that throws keeps what it wrote before the throw; the next step
    starts from there. *)
Fixpoint run (ops : list Op) (c : NetworkController)
  : NetworkController * list Effect :=
  match ops with
  | [] => (c, [])
  | op :: rest =>
      let r := method op c in
      let r' := run rest (after r) in
      (r'.1, trace r ++ r'.2)
  end.

End Methods.

(** ** A concrete environment

    An instance of [Externals] on which the methods can be run.  The
    theorems below hold for every instance; this one serves to evaluate
    them on concrete calls. *)

Module Sample.

(** A [JSON.parse] for the fragment of JSON without escapes, fractions and
    exponents; it rejects what lies outside the fragment. *)
Module Json.

Definition starts (p s : string) : option string :=
  if String.prefix p s
  then Some (String.substring (String.length p) (String.length s - String.length p) s)
  else None.

Fixpoint digits (acc : Z) (s : string) : Z * string :=
  match s with
  | String c rest =>
      if Js.is_digit c
      then digits (10 * acc + (Z.of_N (N_of_ascii c) - 48)) rest
      else (acc, s)
  | EmptyString => (acc, s)
  end.

Definition no_fraction (s : string) : bool :=
  match s with
  | String "." _ | String "e" _ | String "E" _ => false
  | _ => true
  end.

Definition number (s : string) : option (Z * string) :=
  match s with
  | String "0" rest => if no_fraction rest && negb (Js.test_decimal (String.substring 0 1 rest)) then Some (0, rest) else None
  | String c _ =>
      if Js.is_digit c then
        let '(n, rest) := digits 0 s in
        if no_fraction rest then Some (n, rest) else None
      else None
  | EmptyString => None
  end.

(** The characters of a string literal after its opening quote. *)
Fixpoint literal (s : string) : option (string * string) :=
  match s with
  | EmptyString => None
  | String c rest =>
      if Ascii.eqb c (ascii_of_N 34) then Some (EmptyString, rest)
      else if Ascii.eqb c (ascii_of_N 92) then None
      else if (N_of_ascii c <? 32)%N then None
      else match literal rest with
           | Some (str, rest') => Some (String c str, rest')
           | None => None
           end
  end.

Inductive mode : Type :=
  | Value
  | Items (acc : list Js.value)
  | Fields (acc : list (string * Js.value)).

Definition quoted (s : string) : option (string * string) :=
  match s with
  | String c rest => if Ascii.eqb c (ascii_of_N 34) then literal rest else None
  | EmptyString => None
  end.

Fixpoint parse (fuel : nat) (m : mode) (s : string) : option (Js.value * string) :=
  match fuel with
  | O => None
  | S fuel =>
      match m with
      | Value =>
          match Js.skip_space s with
          | String "{" rest =>
              match Js.skip_space rest with
              | String "}" rest' => Some (Js.Obj [], rest')
              | _ => parse fuel (Fields []) rest
              end
          | String "[" rest =>
              match Js.skip_space rest with
              | String "]" rest' => Some (Js.Arr [], rest')
              | _ => parse fuel (Items []) rest
              end
          | String "-" rest =>
              match number rest with
              | Some (n, rest') => Some (Js.Num (- n), rest')
              | None => None
              end
          | s' =>
              match starts "null" s', starts "true" s', starts "false" s' with
              | Some rest, _, _ => Some (Js.Null, rest)
              | _, Some rest, _ => Some (Js.Bool true, rest)
              | _, _, Some rest => Some (Js.Bool false, rest)
              | _, _, _ =>
                  match quoted s' with
                  | Some (str, rest) => Some (Js.Str str, rest)
                  | None =>
                      match number s' with
                      | Some (n, rest) => Some (Js.Num n, rest)
                      | None => None
                      end
                  end
              end
          end
      | Items acc =>
          match parse fuel Value s with
          | Some (v, rest) =>
              match Js.skip_space rest with
              | String "," rest' => parse fuel (Items (acc ++ [v])) rest'
              | String "]" rest' => Some (Js.Arr (acc ++ [v]), rest')
              | _ => None
              end
          | None => None
          end
      | Fields acc =>
          match quoted (Js.skip_space s) with
          | Some (key, rest) =>
              match Js.skip_space rest with
              | String ":" rest' =>
                  match parse fuel Value rest' with
                  | Some (v, rest'') =>
                      match Js.skip_space rest'' with
                      | String "," r => parse fuel (Fields (Js.obj_set key v acc)) r
                      | String "}" r => Some (Js.Obj (Js.obj_set key v acc), r)
                      | _ => None
                      end
                  | None => None
                  end
              | _ => None
              end
          | None => None
          end
      end
  end.

Definition parse_text (s : string) : option Js.value :=
  match parse (S (String.length s)) Value s with
  | Some (v, rest) =>
      match Js.skip_space rest with
      | EmptyString => Some v
      | _ => None
      end
  | None => None
  end.

(** [JSON.parse(v)]: the argument is converted to a string first. *)
Definition JSON_parse (v : Js.value) : option Js.value :=
  match v with
  | Js.Str s => parse_text s
  | Js.Null => Some Js.Null
  | Js.Bool b => Some (Js.Bool b)
  | Js.Num n => Some (Js.Num n)
  | _ => None
  end.

End Json.

(** Modelled from the spec: [isPrefixedFormattedHexString] of
    [shared/modules/network.utils] is not in the sources.  The spec has a
    chain id be a lowercase 0x-prefixed hexadecimal string. *)
Definition isPrefixedFormattedHexString (s : string) : bool :=
  match s with
  | String "0" (String "x" rest) =>
      negb (String.eqb rest "") &&
      forallb
        (λ c, let n := N_of_ascii c in
              ((48 <=? n) && (n <=? 57) || (97 <=? n) && (n <=? 102))%N)
        (list_ascii_of_string rest)
  | _ => false
  end.

(** Modelled from the spec: [isSafeChainId] of
    [shared/modules/network.utils] is not in the sources.  The spec has a
    chain id fit the safe integer bounds. *)
Definition isSafeChainId (n : option Z) : bool :=
  match n with
  | Some n => (- (2 ^ 53 - 1) <=? n) && (n <=? 2 ^ 53 - 1)
  | None => false
  end.

(** Modelled from the spec: [isErrorWithMessage] of [shared/modules/error]
    is not in the sources.  It is taken to be what [isErrorWithCode], its
    sibling that is in the sources, is for [code]. *)
Definition isErrorWithMessage (error : Js.value) : bool :=
  Js.object_has error "message".

Fixpoint scheme_tail (s : string) : bool :=
  match s with
  | String ":" _ => true
  | String c rest =>
      let n := N_of_ascii c in
      (((97 <=? n) && (n <=? 122)) || ((65 <=? n) && (n <=? 90))
        || Js.is_digit c || (n =? 43) || (n =? 45) || (n =? 46))%N
      && scheme_tail rest
  | EmptyString => false
  end.

(** [new URL(s)] for the one thing the controller depends on: a string
    without a scheme is not a URL, and the error says [Invalid URL]. *)
Definition URL_constructor (s : string) : option Js.value :=
  match s with
  | String c rest =>
      let n := N_of_ascii c in
      if ((((97 <=? n) && (n <=? 122)) || ((65 <=? n) && (n <=? 90)))%N
          && scheme_tail rest)
      then None
      else Some (Js.Obj [("message", Js.Str "Invalid URL")])
  | EmptyString => Some (Js.Obj [("message", Js.Str "Invalid URL")])
  end.

(** Modelled from the spec: [INFURA_PROVIDER_TYPES] and
    [BUILT_IN_INFURA_NETWORKS] of [shared/constants/network] are not in the
    sources.  The spec names two built-in networks, mainnet and goerli. *)
Definition INFURA_PROVIDER_TYPES : list string := ["mainnet"; "goerli"].

Definition BUILT_IN_INFURA_NETWORKS (type : string) : option BuiltInInfuraNetwork :=
  if String.eqb type "mainnet" then
    Some {| bi_chainId := "0x1"; bi_ticker := None;
            bi_blockExplorerUrl := Some "https://etherscan.io" |}
  else if String.eqb type "goerli" then
    Some {| bi_chainId := "0x5"; bi_ticker := Some "GoerliETH";
            bi_blockExplorerUrl := Some "https://goerli.etherscan.io" |}
  else None.

#[export] Instance externals : Externals :=
  mkExternals INFURA_PROVIDER_TYPES BUILT_IN_INFURA_NETWORKS
    isPrefixedFormattedHexString isSafeChainId isErrorWithMessage
    Json.JSON_parse URL_constructor Js.toLowerCase_ascii
    ltac:(by apply (bool_decide_unpack _); vm_compute).

End Sample.

(** ** Concrete controllers and calls

    Run in the sample environment. *)

Module Scenario.

Import Sample.

(** A controller as the constructor leaves it under [IN_TEST]. *)
Definition fresh : NetworkController :=
  blank localhost_8545 buildDefaultNetworkDetailsState [] "K".

(** A controller constructed from persisted state in which the flag of
    EIP-1559 had been found to be true. *)
Definition restored : NetworkController :=
  blank localhost_8545
    {| EIPS := {[ 1559 := Some true ]}; otherProperties := [] |} [] "K".

(** [fresh] once [initializeProvider] has installed the provider. *)
Definition wired : NetworkController :=
  after (_configureProvider localhost_8545 fresh).

(** [wired] once [lookupNetwork] has sent its requests: activation 0. *)
Definition probing : NetworkController :=
  after (lookupNetwork_begin wired).

(** A controller on the built-in network mainnet, its provider installed. *)
Definition on_mainnet : NetworkController :=
  let pc :=
    {| type := "mainnet"; chainId := Some "0x1"; rpcUrl := None;
       ticker := Some "ETH"; nickname := None; rpcPrefs := None;
       config_id := None |} in
  after (_configureProvider pc
           (blank pc buildDefaultNetworkDetailsState [] "K")).

Definition blocked_text : string :=
  "{" +:+ Js.dq +:+ "error" +:+ Js.dq +:+ ":"
      +:+ Js.dq +:+ "countryBlocked" +:+ Js.dq +:+ "}".

Definition healthy : ProbeOutcome :=
  {| net_version := Fulfilled (Js.Str "1337");
     latestBlock := Fulfilled (Js.Obj [("baseFeePerGas", Js.Str "0x1")]);
     blockSettlesFirst := false |}.

(** A geo-blocked answer as the middleware reports it. *)
Definition geo_blocked : ProbeOutcome :=
  {| net_version :=
       Rejected (Js.Obj [("code", Js.Num (-32603));
                         ("message", Js.Str blocked_text)]);
     latestBlock := Fulfilled Js.Null;
     blockSettlesFirst := false |}.

(** An error with the same message and no [code]. *)
Definition blocked_without_code : ProbeOutcome :=
  {| net_version := Rejected (Js.Obj [("message", Js.Str blocked_text)]);
     latestBlock := Fulfilled Js.Null;
     blockSettlesFirst := false |}.

Definition Foo : NetworkConfigurationInput :=
  {| in_rpcUrl := Some "https://Foo/"; in_chainId := "0x5";
     in_ticker := Some "T"; in_nickname := None; in_rpcPrefs := None |}.

Definition foo : NetworkConfigurationInput :=
  {| in_rpcUrl := Some "https://foo/"; in_chainId := "0x5";
     in_ticker := Some "T"; in_nickname := None; in_rpcPrefs := None |}.

Definition from_ui : UpsertOptions :=
  {| setActive := false; referrer := Some "metamask"; source := Some "ui" |}.

Definition from_ui_active : UpsertOptions :=
  {| setActive := true; referrer := Some "metamask"; source := Some "ui" |}.

Definition uuid1 : string := "6f1c2b0e-5d7a-4c1e-9a43-2f0e8b7d1c55".

Definition uuid2 : string := "0b9d3c71-8e24-4f6a-b1d2-7c5a9e3f4a10".

End Scenario.

(** ** Vocabulary of the specification *)

(** Projections of an effect trace. *)
Definition published (t : list Effect) : list NetworkControllerEventType :=
  omap (λ e, match e with Publish ev => Some ev | _ => None end) t.

Definition status_writes (t : list Effect) : list NetworkStatus :=
  omap (λ e, match e with PutNetworkStatus st => Some st | _ => None end) t.

Definition tracked (t : list Effect) : list MetaMetricsEventPayload :=
  omap (λ e, match e with TrackMetaMetricsEvent p => Some p | _ => None end) t.

Definition requests (t : list Effect) : list string :=
  omap (λ e, match e with SendAsync m => Some m | _ => None end) t.

Definition is_log (e : Effect) : bool :=
  match e with
  | LogWarn _ | LogInfo _ => true
  | _ => false
  end.

(** A relation between the controller before a computation, what the
    computation did, and the controller after it. *)
Definition Rel : Type :=
  NetworkController → list Effect → NetworkController → Prop.

Definition sat {A : Type} (R : Rel) (m : M A) : Prop :=
  ∀ c, R c (trace (m c)) (after (m c)).

(** Relations that hold of doing nothing and compose along a sequence. *)
Class Stepwise (R : Rel) : Prop := {
  stepwise_refl : ∀ c, R c [] c;
  stepwise_trans : ∀ c t1 c1 t2 c2,
    R c t1 c1 → R c1 t2 c2 → R c (t1 ++ t2) c2
}.

(** Activation [pid] of [lookupNetwork] is suspended, it computed
    [isInfura = b], and its listener is still subscribed unless it has
    fired. *)
Definition suspended (pid : nat) (b : bool) (c : NetworkController) : Prop :=
  ∃ fr, lookups c !! pid = Some fr ∧ isInfura fr = b
        ∧ (pid < activations c)%nat
        ∧ (networkChanged fr = false → pid ∈ didChangeListeners c).

(** The listener of the suspended activation [pid] has fired. *)
Definition stale (pid : nat) (c : NetworkController) : Prop :=
  ∃ fr, lookups c !! pid = Some fr ∧ networkChanged fr = true.

(** The [networkChanged] of the suspended activation [pid], if there is
    such an activation. *)
Definition flag (pid : nat) (c : NetworkController) : option bool :=
  networkChanged <$> lookups c !! pid.

(** The step [op] is the continuation of activation [pid]. *)
Definition resumes (pid : nat) (op : Op) : bool :=
  match op with
  | LookupNetwork_settled q _ => bool_decide (q = pid)
  | _ => false
  end.

(** What every step other than the continuation of [pid] itself keeps. *)
Definition keeps (pid : nat) (b : bool) : Rel :=
  λ c t c',
    suspended pid b c →
    suspended pid b c'
    ∧ (stale pid c ∨ NetworkDidChange ∈ published t → stale pid c').

(** The two provider stores are as they were. *)
Definition same_providers : Rel :=
  λ c _ c',
    providerStore c' = providerStore c
    ∧ previousProviderStore c' = previousProviderStore c.

(** Nothing was sent to the metrics callback, the registry is as it was. *)
Definition registry_untouched : Rel :=
  λ c t c',
    tracked t = []
    ∧ networkConfigurationsStore c' = networkConfigurationsStore c.

(** The registry's invariant: it is keyed by id, ids are not empty, and no
    two entries have the same [rpcUrl] up to letter case, that is, the
    same [rpcUrl.toLowerCase()]. *)
Definition registry_wf `{ext : Externals} (r : NetworkConfigurations) : Prop :=
  NoDup r.*1
  ∧ (∀ k nc, (k, nc) ∈ r → nc_id nc = k ∧ k ≠ "")
  ∧ (∀ k1 nc1 k2 nc2, (k1, nc1) ∈ r → (k2, nc2) ∈ r →
       toLowerCase (nc_rpcUrl nc1) = toLowerCase (nc_rpcUrl nc2) →
       k1 = k2).

(** The entries of the registry whose [rpcUrl] is [rpcUrl] up to case. *)
Definition matching `{ext : Externals}
    (rpcUrl : string) (r : NetworkConfigurations)
  : list NetworkConfiguration :=
  List.filter (same_rpcUrl rpcUrl) (Js.values r).

(** The table of the spec: which event a probe that ran to its end
    publishes, by [isInfura] and by the status it found. *)
Definition events_table (isInfura : bool) (st : NetworkStatus)
  : list NetworkControllerEventType :=
  if isInfura then
    match st with
    | Available => [InfuraIsUnblocked]
    | Blocked => [InfuraIsBlocked]
    | Unknown | Unavailable => []
    end
  else [InfuraIsUnblocked].

(** The six stores of a controller. *)
Definition stores (c : NetworkController) :=
  (providerStore c, previousProviderStore c, networkIdStore c,
   networkStatusStore c, networkDetails c, networkConfigurationsStore c).

(** [uuid()] never returns the empty string. *)
Definition mints_ids (op : Op) : Prop :=
  match op with
  | UpsertNetworkConfiguration _ _ uuid => uuid ≠ ""
  | _ => True
  end.

(** What is installed: the live client and the two proxies. *)
Definition installed (c : NetworkController) :=
  (_provider c, _blockTracker c, _providerProxy c, _blockTrackerProxy c).

(** The computation returns, it does not throw. *)
Definition returns {A : Type} (m : M A) : Prop :=
  ∀ c, ∃ a, completion (m c) = Normal a.

Section Vocabulary.

Context `{ext : Externals}.

(** The checks at the head of [upsertNetworkConfiguration], all passed. *)
Definition valid_upsert (input : NetworkConfigurationInput) (options : UpsertOptions)
  : bool :=
  isPrefixedFormattedHexString (in_chainId input)
  && isSafeChainId (Js.parseInt16 (in_chainId input))
  && Js.truthy (in_rpcUrl input)
  && Js.truthy (referrer options) && Js.truthy (source options)
  && match URL_constructor (the (in_rpcUrl input)) with
     | None => true
     | Some e =>
         negb (isErrorWithMessage e)
         || bool_decide (message_includes e "Invalid URL" = Some false)
     end
  && Js.truthy (in_ticker input).

(** The error that reaches the [catch] block of [lookupNetwork], if any:
    the first rejection, or what [assertNetworkId] throws. *)
Definition caught (o : ProbeOutcome) : option Js.value :=
  match Promise_all o with
  | Fulfilled (n, _) => assertNetworkId n
  | Rejected e => Some e
  end.

(** The status the [catch] block of [lookupNetwork] assigns to an error. *)
Definition error_status (error : Js.value) : NetworkStatus :=
  if isErrorWithCode error && isErrorWithMessage error then
    let responseBody :=
      default Js.Undefined (JSON_parse (Js.get error "message")) in
    if Js.isPlainObject responseBody && is_blocked_body responseBody
    then Blocked
    else if has_internal_code error then Unknown
    else Unavailable
  else Unknown.

(** The locals of [lookupNetwork] after its [try]/[catch] statement. *)
Definition verdict (o : ProbeOutcome)
  : option Js.value * bool * NetworkStatus :=
  match Promise_all o with
  | Fulfilled (n, supports) =>
      match assertNetworkId n with
      | None => (Some n, supports, Available)
      | Some e => (None, false, error_status e)
      end
  | Rejected e => (None, false, error_status e)
  end.

(** The warning the [catch] block logs for an error it cannot classify. *)
Definition warnings (o : ProbeOutcome) : list Effect :=
  match caught o with
  | Some e =>
      if isErrorWithCode e && isErrorWithMessage e then []
      else [LogWarn "NetworkController - could not determine network status"]
  | None => []
  end.

(** The error's message parses to a plain object whose [error] is the
    blocked sentinel. *)
Definition says_blocked (e : Js.value) : Prop :=
  ∃ body, JSON_parse (Js.get e "message") = Some body
          ∧ Js.isPlainObject body = true
          ∧ Js.get body "error" = Js.Str INFURA_BLOCKED_KEY.

(** The classification of a settled probe, clause by clause. *)
Inductive Classified (o : ProbeOutcome) : NetworkStatus → Prop :=
  | Classified_Available n b s :
      net_version o = Fulfilled n → latestBlock o = Fulfilled b →
      Js.ToString n = Some s → Js.test_decimal s = true →
      Classified o Available
  | Classified_Blocked e :
      caught o = Some e →
      isErrorWithCode e = true → isErrorWithMessage e = true →
      says_blocked e →
      Classified o Blocked
  | Classified_Unknown_internal e :
      caught o = Some e →
      isErrorWithCode e = true → isErrorWithMessage e = true →
      ¬ says_blocked e →
      Js.get e "code" = Js.Num errorCodes_rpc_internal →
      Classified o Unknown
  | Classified_Unknown_unclassifiable e :
      caught o = Some e →
      isErrorWithCode e && isErrorWithMessage e = false →
      Classified o Unknown
  | Classified_Unavailable e :
      caught o = Some e →
      isErrorWithCode e = true → isErrorWithMessage e = true →
      ¬ says_blocked e →
      Js.get e "code" ≠ Js.Num errorCodes_rpc_internal →
      Classified o Unavailable.

End Vocabulary.

(** ** More of the controller and of its vocabulary *)

(** [getProviderAndBlockTracker]: the two proxies, null before the first
    client has been installed. *)
Definition getProviderAndBlockTracker (c : NetworkController)
  : option SwappableProxy * option SwappableProxy :=
  (_providerProxy c, _blockTrackerProxy c).

(** The state that a probe derives. *)
Definition derived (c : NetworkController) :=
  (networkIdStore c, networkStatusStore c, networkDetails c).

Definition derived_defaults :=
  (buildDefaultNetworkIdState, buildDefaultNetworkStatusState,
   buildDefaultNetworkDetailsState).

(** An available network has a network id that reads as a decimal
    numeral (it converts to a non-empty string of digits) and a known
    EIP-1559 flag. *)
Definition derived_wf (c : NetworkController) : Prop :=
  networkStatusStore c = Available →
  (∃ n s, networkIdStore c = Some n
          ∧ Js.ToString n = Some s ∧ Js.test_decimal s = true)
  ∧ is_Some (eip (networkDetails c) 1559).

(** The listeners subscribed to [NetworkDidChange] are those of the
    suspended probes that no network change has invalidated. *)
Definition listeners_wf (c : NetworkController) : Prop :=
  ∀ q, q ∈ didChangeListeners c ↔ flag q c = Some false.

(** Each proxy targets the client the controller currently holds. *)
Definition proxies_wf (c : NetworkController) : Prop :=
  _providerProxy c = mkSwappableProxy <$> _provider c
  ∧ _blockTrackerProxy c = mkSwappableProxy <$> _blockTracker c.

Definition keeps_defaults : Rel :=
  λ c _ c', derived c = derived_defaults → derived c' = derived_defaults.

Definition keeps_listeners : Rel :=
  λ c _ c', listeners_wf c → listeners_wf c'.

Definition keeps_derived : Rel :=
  λ c _ c', derived_wf c → derived_wf c'.

Definition keeps_proxies : Rel :=
  λ c _ c',
    (proxies_wf c → proxies_wf c')
    ∧ (is_Some (_providerProxy c) → is_Some (_providerProxy c'))
    ∧ (is_Some (_blockTrackerProxy c) → is_Some (_blockTrackerProxy c')).

(** In [l] every [NetworkDidChange] comes right after a
    [NetworkWillChange]; [w] tells whether the event before [l] was one. *)
Fixpoint announced_from (w : bool) (l : list NetworkControllerEventType)
  : bool :=
  match l with
  | [] => true
  | NetworkDidChange :: l => w && announced_from false l
  | NetworkWillChange :: l => announced_from true l
  | _ :: l => announced_from false l
  end.

Definition announced : Rel :=
  λ _ t _, announced_from false (published t) = true.

(** The controller in the middle of a switch: derived state cleared. *)
Definition cleared (c : NetworkController) : NetworkController :=
  set_networkDetails buildDefaultNetworkDetailsState
    (set_networkStatusStore buildDefaultNetworkStatusState
       (set_networkIdStore buildDefaultNetworkIdState c)).

(** The controller once every subscribed listener has run. *)
Definition fired (c : NetworkController) : NetworkController :=
  foldl (λ c' q, listener q c') c (didChangeListeners c).

Section MoreVocabulary.

Context `{ext : Externals}.

(** A provider configuration from which [_configureProvider] builds a
    client. *)
Definition configurable (pc : ProviderConfiguration) : bool :=
  isInfuraProviderType (type pc)
  || (String.eqb (type pc) NETWORK_TYPES.RPC && Js.truthy (rpcUrl pc)).

(** The client [_configureProvider] asks the factory for. *)
Definition client_of (pc : ProviderConfiguration) (infuraProjectId : string)
  : NetworkClientConfiguration :=
  if isInfuraProviderType (type pc)
  then InfuraClient (type pc) infuraProjectId
  else CustomClient (chainId pc) (the (rpcUrl pc)).

Definition configure_log (pc : ProviderConfiguration) : Effect :=
  if isInfuraProviderType (type pc)
  then LogInfo "NetworkController - configureInfuraProvider"
  else LogInfo "NetworkController - configureStandardProvider".

(** The client that [_configureProvider] builds for [pc], the one
    numbered [clients c]. *)
Definition with_client (pc : ProviderConfiguration) (c : NetworkController)
  : NetworkClient :=
  {| client_serial := clients c;
     client_configuration := client_of pc (_infuraProjectId c) |}.

(** What [_switchNetwork] does once it has cleared the derived state. *)
Definition switch_rest (pc : ProviderConfiguration) : M unit :=
  _configureProvider pc ;;
  messenger_publish NetworkDidChange ;;
  _ <- lookupNetwork_begin ;;
  ret tt.

End MoreVocabulary.

(** * Verification *)

Section Framework.

Context `{ext : Externals}.

Lemma sat_ret {A : Type} (R : Rel) `{!Stepwise R} (a : A) : sat R (ret a).
Proof. intros c. apply stepwise_refl. Qed.

Lemma sat_throw {A : Type} (R : Rel) `{!Stepwise R} (e : Exception) :
  sat R (throw (A := A) e).
Proof. intros c. apply stepwise_refl. Qed.

Lemma sat_read {A : Type} (R : Rel) `{!Stepwise R} (f : NetworkController → A) :
  sat R (read f).
Proof. intros c. apply stepwise_refl. Qed.

Lemma sat_bind {A B : Type} (R : Rel) `{!Stepwise R} (m : M A) (k : A → M B) :
  sat R m → (∀ a, sat R (k a)) → sat R (bind m k).
Proof.
  intros Hm Hk c. specialize (Hm c). unfold bind, trace, after in *.
  destruct (m c) as [[[a|e] c1] t1]; simpl in *; [|done].
  specialize (Hk a c1). unfold trace, after in Hk.
  destruct (k a c1) as [[r c2] t2]; simpl in *.
  by eapply stepwise_trans.
Qed.

Lemma sat_assert_ok (R : Rel) `{!Stepwise R} (b : bool) (msg : string) :
  sat R (assert_ok b msg).
Proof. destruct b; [apply sat_ret|apply sat_throw]; done. Qed.

Lemma sat_modify (R : Rel) (f : NetworkController → NetworkController) :
  (∀ c, R c [] (f c)) → sat R (modify f).
Proof. intros Hf c. apply Hf. Qed.

Lemma sat_emit (R : Rel) (e : Effect) : (∀ c, R c [e] c) → sat R (emit e).
Proof. intros He c. apply He. Qed.

End Framework.

Create HintDb methods.

#[local] Hint Unfold
  providerStore_putState previousProviderStore_putState
  networkIdStore_putState networkStatusStore_putState networkDetails_putState
  networkConfigurationsStore_putState networkDetails_updateState_1559
  _resetNetworkId _resetNetworkStatus _resetNetworkDetails
  lookupNetwork_catch lookupNetwork_try lookupNetwork_begin
  lookupNetwork_resume getEIP1559Compatibility_begin
  getEIP1559Compatibility_resume createNetworkClient
  _setProviderAndBlockTracker _configureInfuraProvider
  _configureStandardProvider _configureProvider _switchNetwork
  _setProviderConfig initializeProvider_begin setActiveNetwork
  setProviderType resetConnection rollbackToPreviousProvider check_URL
  upsertNetworkConfiguration removeNetworkConfiguration forget method
  : methods.

(** Decompose a goal [sat R m] along the structure of [m]; [leaf] closes
    the goals about the primitives. *)
Ltac sat_with leaf :=
  repeat lazymatch goal with
  | |- sat _ (bind _ _) => apply sat_bind; [ solve [apply _] | | intros ? ]
  | |- sat _ (ret _) => apply sat_ret; solve [apply _]
  | |- sat _ (throw _) => apply sat_throw; solve [apply _]
  | |- sat _ (read _) => apply sat_read; solve [apply _]
  | |- sat _ (assert_ok _ _) => apply sat_assert_ok; solve [apply _]
  | |- sat _ _ =>
      first [ solve [leaf] | progress autounfold with methods | case_match ]
  end.

(** ** Suspended probes across the steps of other calls *)

Section Keeps.

Context `{ext : Externals}.

Variables (pid : nat) (b : bool).

#[global] Instance keeps_stepwise : Stepwise (keeps pid b).
Proof.
  split.
  - intros c Hs. split; [done|]. intros [?|Hin]; [done|]. by apply elem_of_nil in Hin.
  - intros c t1 c1 t2 c2 H1 H2 Hs.
    destruct (H1 Hs) as [Hs1 Hst1]. destruct (H2 Hs1) as [Hs2 Hst2].
    split; [done|]. intros [Hst|Hin].
    + apply Hst2. left. apply Hst1. by left.
    + unfold published in Hin. rewrite omap_app in Hin.
      apply elem_of_app in Hin as [Hin|Hin].
      * apply Hst2. left. apply Hst1. by right.
      * apply Hst2. by right.
Qed.

Lemma keeps_modify (f : NetworkController → NetworkController) :
  (∀ c, lookups (f c) = lookups c
        ∧ didChangeListeners (f c) = didChangeListeners c
        ∧ activations (f c) = activations c) →
  sat (keeps pid b) (modify f).
Proof.
  intros Hf. apply sat_modify. intros c (fr & Hfr & Hb & Hlt & Hsub).
  destruct (Hf c) as (Hl & Hd & Ha). split.
  - exists fr. rewrite Hl, Hd, Ha. done.
  - intros [(fr' & Hfr' & Hch)|Hin]; [|by apply elem_of_nil in Hin].
    exists fr'. by rewrite Hl.
Qed.

Lemma keeps_emit (e : Effect) :
  e ≠ Publish NetworkDidChange → sat (keeps pid b) (emit e).
Proof.
  intros He. apply sat_emit. intros c Hs. split; [done|].
  intros [?|Hin]; [done|]. destruct e; simpl in Hin;
    try (by apply elem_of_nil in Hin).
  apply list_elem_of_singleton in Hin. congruence.
Qed.

Lemma listeners_fire (l : list nat) (c : NetworkController) :
  let c' := foldl (λ c' q, listener q c') c l in
  activations c' = activations c
  ∧ didChangeListeners c' = filter (λ q, q ∉ l) (didChangeListeners c)
  ∧ ∀ p, lookups c' !! p =
      (λ fr, if decide (p ∈ l)
             then {| isInfura := isInfura fr; networkChanged := true |}
             else fr) <$> lookups c !! p.
Proof.
  revert c. induction l as [|q l IH]; intros c; simpl.
  - split; [done|]. split.
    + induction (didChangeListeners c) as [|x xs IHx]; [done|].
      rewrite filter_cons_True; [by f_equal|]. apply not_elem_of_nil.
    + intros p. by destruct (lookups c !! p).
  - destruct (IH (listener q c)) as (Ha & Hd & Hl). split; [|split].
    + by rewrite Ha.
    + rewrite Hd. simpl. rewrite list_filter_filter.
      apply list_filter_iff. intros x. rewrite not_elem_of_cons. tauto.
    + intros p. rewrite Hl. simpl. rewrite lookup_alter.
      destruct (decide (q = p)) as [->|Hne].
      * destruct (lookups c !! p) as [fr|]; simpl; [|done].
        rewrite (decide_True (P := p ∈ p :: l)) by (by left).
        by destruct (decide (p ∈ l)).
      * destruct (lookups c !! p) as [fr|]; simpl; [|done].
        destruct (decide (p ∈ l)).
        -- by rewrite decide_True by (by right).
        -- rewrite decide_False; [done|].
           apply not_elem_of_cons. split; [congruence|done].
Qed.

Lemma keeps_publish (e : NetworkControllerEventType) :
  sat (keeps pid b) (messenger_publish e).
Proof.
  unfold messenger_publish.
  destruct e;
    try (apply sat_bind; [apply _|apply keeps_emit; congruence|];
         intros ?; apply sat_ret; apply _).
  intros c (fr & Hfr & Hb & Hlt & Hsub). unfold trace, after. simpl.
  destruct (listeners_fire (didChangeListeners c) c) as (Ha & Hd & Hl).
  assert (Hst : stale pid (foldl (λ c' q, listener q c') c (didChangeListeners c))).
  { eexists. rewrite Hl, Hfr. simpl. split; [done|].
    destruct (decide (pid ∈ didChangeListeners c)) as [|Hn]; [done|].
    destruct (networkChanged fr) eqn:E; [done|]. by destruct Hn; apply Hsub. }
  split; [|done].
  eexists. rewrite Hl, Hfr, Ha. simpl. split; [done|].
  split; [by destruct (decide (pid ∈ didChangeListeners c))|].
  split; [done|].
  destruct (decide (pid ∈ didChangeListeners c)) as [|Hn]; [done|].
  intros E. by destruct Hn; apply Hsub.
Qed.

Lemma keeps_subscribe (q : nat) : sat (keeps pid b) (messenger_subscribe q).
Proof.
  apply sat_modify. intros c (fr & Hfr & Hb & Hlt & Hsub). split.
  - exists fr. simpl. repeat split; try done.
    intros E. apply elem_of_app. left. by apply Hsub.
  - intros [(fr' & Hfr' & Hch)|Hin]; [|by apply elem_of_nil in Hin].
    by exists fr'.
Qed.

Lemma keeps_unsubscribe (q : nat) :
  q ≠ pid → sat (keeps pid b) (messenger_unsubscribe q).
Proof.
  intros Hq. apply sat_modify. intros c (fr & Hfr & Hb & Hlt & Hsub). split.
  - exists fr. simpl. repeat split; try done.
    intros E. apply list_elem_of_filter. split; [congruence|by apply Hsub].
  - intros [(fr' & Hfr' & Hch)|Hin]; [|by apply elem_of_nil in Hin].
    by exists fr'.
Qed.

Lemma keeps_suspend (b' : bool) : sat (keeps pid b) (suspend b').
Proof.
  intros c (fr & Hfr & Hb & Hlt & Hsub). unfold trace, after. simpl.
  assert (activations c ≠ pid) by lia. split.
  - exists fr. simpl. rewrite lookup_insert_ne by done.
    repeat split; try done. lia.
  - intros [(fr' & Hfr' & Hch)|Hin]; [|by apply elem_of_nil in Hin].
    exists fr'. simpl. by rewrite lookup_insert_ne.
Qed.

Lemma keeps_finish (q : nat) :
  q ≠ pid →
  sat (keeps pid b) (modify (λ c, set_lookups (delete q (lookups c)) c)).
Proof.
  intros Hq. apply sat_modify. intros c (fr & Hfr & Hb & Hlt & Hsub). split.
  - exists fr. simpl. by rewrite lookup_delete_ne.
  - intros [(fr' & Hfr' & Hch)|Hin]; [|by apply elem_of_nil in Hin].
    exists fr'. simpl. by rewrite lookup_delete_ne.
Qed.

Lemma keeps_method (op : Op) :
  (∀ o, op ≠ LookupNetwork_settled pid o) →
  sat (keeps pid b) (method op).
Proof.
  intros Hop.
  assert (Hne : ∀ q o, op = LookupNetwork_settled q o → q ≠ pid)
    by (intros q o -> ->; by eapply Hop).
  destruct op; try specialize (Hne _ _ eq_refl);
    sat_with ltac:(first
      [ apply keeps_publish
      | apply keeps_subscribe
      | apply keeps_suspend
      | apply keeps_unsubscribe; assumption
      | apply keeps_finish; assumption
      | apply keeps_emit; discriminate
      | apply keeps_modify; intros; done ]).
Qed.

Lemma keeps_run (ops : list Op) (c : NetworkController) :
  existsb (resumes pid) ops = false →
  keeps pid b c (run ops c).2 (run ops c).1.
Proof.
  revert c. induction ops as [|op ops IH]; intros c Hops; simpl in *.
  - apply stepwise_refl.
  - apply orb_false_iff in Hops as [Hop Hops]. eapply stepwise_trans.
    + apply keeps_method. intros o ->. simpl in Hop.
      by rewrite bool_decide_eq_true_2 in Hop.
    + by apply IH.
Qed.

End Keeps.

(** ** The probe *)

Section Probe.

Context `{ext : Externals}.

Lemma lookupNetwork_catch_eq (e : Js.value) (c : NetworkController) :
  lookupNetwork_catch e c
  = (Normal (error_status e), c,
     if isErrorWithCode e && isErrorWithMessage e then []
     else [LogWarn "NetworkController - could not determine network status"]).
Proof.
  unfold lookupNetwork_catch, error_status.
  destruct (isErrorWithCode e && isErrorWithMessage e); [|done].
  simpl. by repeat case_match.
Qed.

Lemma lookupNetwork_try_eq (o : ProbeOutcome) (c : NetworkController) :
  lookupNetwork_try o c = (Normal (verdict o), c, warnings o).
Proof.
  unfold lookupNetwork_try, verdict, warnings, caught.
  destruct (Promise_all o) as [[n s]|e].
  - destruct (assertNetworkId n) as [e|]; [|done].
    unfold bind. rewrite lookupNetwork_catch_eq. simpl.
    by rewrite app_nil_r.
  - unfold bind. rewrite lookupNetwork_catch_eq. simpl.
    by rewrite app_nil_r.
Qed.

Lemma lookupNetwork_begin_suspends (c : NetworkController) (p : SwappableProxy) :
  _providerProxy c = Some p →
  Js.truthy (chainId (providerStore c)) = true →
  let pid := activations c in
  let r := lookupNetwork_begin c in
  completion r = Normal (Some pid)
  ∧ trace r = [SendAsync "net_version"; SendAsync "eth_getBlockByNumber"]
  ∧ suspended pid (isInfuraProviderType (type (providerStore c))) (after r)
  ∧ ¬ stale pid (after r)
  ∧ (providerStore (after r), previousProviderStore (after r),
     networkIdStore (after r), networkStatusStore (after r),
     networkDetails (after r), networkConfigurationsStore (after r))
    = (providerStore c, previousProviderStore c, networkIdStore c,
       networkStatusStore c, networkDetails c, networkConfigurationsStore c).
Proof.
  intros Hp Hc. unfold lookupNetwork_begin, bind, read, completion, trace, after.
  simpl. rewrite Hp, Hc. simpl. repeat split.
  - eexists. simpl. rewrite lookup_insert_eq. repeat split; try done; [lia|].
    intros _. apply elem_of_app. right. by apply list_elem_of_singleton.
  - intros (fr & Hfr & Hch). simpl in Hfr. rewrite lookup_insert_eq in Hfr.
    by inversion Hfr; subst.
Qed.

Lemma lookupNetwork_resume_stale
    (c : NetworkController) (pid : nat) (fr : LookupFrame) (o : ProbeOutcome) :
  lookups c !! pid = Some fr → networkChanged fr = true →
  lookupNetwork_resume pid o c
  = (Normal tt, set_lookups (delete pid (lookups c)) c, warnings o).
Proof.
  intros Hfr Hch. unfold lookupNetwork_resume, bind at 1, read. simpl.
  rewrite Hfr. unfold bind at 1. rewrite lookupNetwork_try_eq.
  destruct (verdict o) as [[nid sup] st]. rewrite Hch.
  unfold bind, modify, ret. simpl. by rewrite app_nil_r.
Qed.

Lemma lookupNetwork_resume_live
    (c : NetworkController) (pid : nat) (fr : LookupFrame) (o : ProbeOutcome) :
  lookups c !! pid = Some fr → networkChanged fr = false →
  let r := lookupNetwork_resume pid o c in
  let st := (verdict o).2 in
  completion r = Normal tt
  ∧ status_writes (trace r) = [st]
  ∧ networkStatusStore (after r) = st
  ∧ published (trace r) = events_table (isInfura fr) st
  ∧ requests (trace r) = [].
Proof.
  intros Hfr Hch. cbv zeta.
  remember (lookupNetwork_resume pid o c) as r eqn:Hr.
  unfold lookupNetwork_resume, bind at 1, read in Hr. simpl in Hr.
  rewrite Hfr in Hr. unfold bind at 1 in Hr.
  rewrite lookupNetwork_try_eq in Hr.
  destruct (verdict o) as [[nid sup] st]. rewrite Hch in Hr. subst r.
  assert (Hw : status_writes (warnings o) = [] ∧ published (warnings o) = []
               ∧ requests (warnings o) = []).
  { unfold warnings. by repeat case_match. }
  destruct Hw as (Hw1 & Hw2 & Hw3).
  unfold completion, trace, after, status_writes, published, requests,
    events_table in *.
  destruct st, (isInfura fr); simpl;
    rewrite ?omap_app, ?Hw1, ?Hw2, ?Hw3; done.
Qed.

End Probe.

(** ** Claims about the probe *)

Section ProbeClaims.

Context `{ext : Externals}.

Lemma stale_flag (pid : nat) (c : NetworkController) :
  stale pid c ↔ flag pid c = Some true.
Proof.
  unfold stale, flag. split.
  - intros (fr & -> & <-). done.
  - destruct (lookups c !! pid) as [fr|]; simpl; [|done].
    intros [= E]. by exists fr.
Qed.

Lemma lookupNetwork_begin_inv
    (c0 c1 : NetworkController) (t1 : list Effect) (pid : nat) :
  lookupNetwork_begin c0 = (Normal (Some pid), c1, t1) →
  suspended pid (isInfuraProviderType (type (providerStore c0))) c1
  ∧ is_Some (_providerProxy c0)
  ∧ Js.truthy (chainId (providerStore c0)) = true.
Proof.
  intros Hb.
  destruct (_providerProxy c0) as [p|] eqn:Hp.
  - destruct (Js.truthy (chainId (providerStore c0))) eqn:Hc.
    + destruct (lookupNetwork_begin_suspends c0 p Hp Hc) as (Hcomp & _ & Hs & _).
      unfold completion, after in *. rewrite Hb in *. simpl in *.
      inversion Hcomp; subst. eauto.
    + unfold lookupNetwork_begin, bind, read in Hb. simpl in Hb.
      rewrite Hp, Hc in Hb. simpl in Hb. discriminate.
  - unfold lookupNetwork_begin, bind, read in Hb. simpl in Hb.
    rewrite Hp in Hb. simpl in Hb. discriminate.
Qed.

(** C1.  A run of [lookupNetwork] that reaches its [await] and whose
    [networkChanged] is still unset when the requests have settled,
    whatever other calls were made in between: if the type it read from
    the provider configuration is a built-in Infura type, it publishes
    [InfuraIsUnblocked] exactly when the status it found is [Available],
    [InfuraIsBlocked] exactly when that status is [Blocked], and neither
    for [Unknown] and [Unavailable]; if the type is not built-in it
    publishes [InfuraIsUnblocked] whatever the status.  It publishes
    nothing else. *)
Theorem lookupNetwork_publishes_by_table
    (c0 c1 : NetworkController) (t1 : list Effect) (pid : nat)
    (ops : list Op) (o : ProbeOutcome) :
  lookupNetwork_begin c0 = (Normal (Some pid), c1, t1) →
  existsb (resumes pid) ops = false →
  flag pid (run ops c1).1 = Some false →
  let r := lookupNetwork_resume pid o (run ops c1).1 in
  let st := networkStatusStore (after r) in
  let builtIn := isInfuraProviderType (type (providerStore c0)) in
  published (trace r) = events_table builtIn st
  ∧ (builtIn = true →
       (InfuraIsUnblocked ∈ published (trace r) ↔ st = Available)
       ∧ (InfuraIsBlocked ∈ published (trace r) ↔ st = Blocked))
  ∧ (builtIn = false → published (trace r) = [InfuraIsUnblocked]).
Proof.
  intros Hb Hops Hflag. cbv zeta.
  apply lookupNetwork_begin_inv in Hb as (Hs & _ & _).
  destruct (keeps_run pid _ ops c1 Hops Hs) as [(fr & Hfr & Hinf & _) _].
  unfold flag in Hflag. rewrite Hfr in Hflag. simpl in Hflag.
  injection Hflag as Hch.
  destruct (lookupNetwork_resume_live _ _ _ o Hfr Hch)
    as (_ & _ & -> & -> & _).
  rewrite Hinf. split; [done|]. split.
  - intros ->. destruct ((verdict o).2); simpl;
      rewrite ?elem_of_nil, ?list_elem_of_singleton; split; split; done.
  - by intros ->.
Qed.

(** C2.  If [NetworkDidChange] is published after [lookupNetwork] has read
    the provider configuration and sent its requests, and before they
    have settled, the run writes to no store and publishes nothing: all
    it may do is log a warning. *)
Theorem stale_probe_is_discarded
    (c0 c1 : NetworkController) (t1 : list Effect) (pid : nat)
    (ops : list Op) (o : ProbeOutcome) :
  lookupNetwork_begin c0 = (Normal (Some pid), c1, t1) →
  existsb (resumes pid) ops = false →
  NetworkDidChange ∈ published (run ops c1).2 →
  let c2 := (run ops c1).1 in
  let r := lookupNetwork_resume pid o c2 in
  completion r = Normal tt
  ∧ stores (after r) = stores c2
  ∧ forallb is_log (trace r) = true
  ∧ published (trace r) = [].
Proof.
  intros Hb Hops Hpub. cbv zeta.
  apply lookupNetwork_begin_inv in Hb as (Hs & _ & _).
  destruct (keeps_run pid _ ops c1 Hops Hs) as [_ Hst].
  destruct Hst as (fr & Hfr & Hch); [by right|].
  rewrite (lookupNetwork_resume_stale _ _ _ o Hfr Hch).
  unfold completion, after, trace, warnings. simpl.
  repeat split; by repeat case_match.
Qed.

End ProbeClaims.

Section ProbeWitnesses.

#[local] Existing Instance Sample.externals.

Lemma lookupNetwork_publishes_by_table_witness :
  let c0 := Scenario.on_mainnet in
  let c1 := after (lookupNetwork_begin c0) in
  let ops :=
    [UpsertNetworkConfiguration Scenario.Foo Scenario.from_ui Scenario.uuid1;
     GetEIP1559Compatibility] in
  let r := lookupNetwork_resume 0 Scenario.geo_blocked (run ops c1).1 in
  lookupNetwork_begin c0
    = (Normal (Some 0%nat), c1, trace (lookupNetwork_begin c0))
  ∧ existsb (resumes 0) ops = false
  ∧ flag 0 (run ops c1).1 = Some false
  ∧ networkStatusStore (after r) = Blocked
  ∧ published (trace r) = [InfuraIsBlocked].
Proof.
  intros c0 c1 ops r.
  assert (H1 : lookupNetwork_begin c0
    = (Normal (Some 0%nat), c1, trace (lookupNetwork_begin c0)))
    by (vm_compute; reflexivity).
  assert (H2 : existsb (resumes 0) ops = false) by (vm_compute; reflexivity).
  assert (H3 : flag 0 (run ops c1).1 = Some false) by (vm_compute; reflexivity).
  assert (H4 : networkStatusStore (after r) = Blocked)
    by (vm_compute; reflexivity).
  pose proof (lookupNetwork_publishes_by_table c0 c1 _ 0%nat ops
                Scenario.geo_blocked H1 H2 H3) as Ht.
  apply proj1 in Ht.
  assert (H5 : events_table
                 (isInfuraProviderType (type (providerStore c0)))
                 (networkStatusStore (after r)) = [InfuraIsBlocked])
    by (vm_compute; reflexivity).
  split; [exact H1|]. split; [exact H2|]. split; [exact H3|].
  split; [exact H4|]. exact (eq_trans Ht H5).
Defined.

Lemma stale_probe_is_discarded_witness :
  let c1 := Scenario.probing in
  let ops := [SetProviderType "goerli"] in
  let r := lookupNetwork_resume 0 Scenario.healthy (run ops c1).1 in
  lookupNetwork_begin Scenario.wired
    = (Normal (Some 0%nat), c1, trace (lookupNetwork_begin Scenario.wired))
  ∧ existsb (resumes 0) ops = false
  ∧ NetworkDidChange ∈ published (run ops c1).2
  ∧ stores (after r) = stores (run ops c1).1
  ∧ published (trace r) = [].
Proof.
  intros c1 ops r.
  assert (H1 : lookupNetwork_begin Scenario.wired
    = (Normal (Some 0%nat), c1, trace (lookupNetwork_begin Scenario.wired)))
    by (vm_compute; reflexivity).
  assert (H2 : existsb (resumes 0) ops = false) by reflexivity.
  assert (H3 : NetworkDidChange ∈ published (run ops c1).2)
    by (apply (bool_decide_unpack _); vm_compute; exact I).
  destruct (stale_probe_is_discarded _ _ _ _ _ Scenario.healthy H1 H2 H3)
    as (_ & Hs & _ & Hp).
  split; [exact H1|]. split; [exact H2|]. split; [exact H3|].
  split; [exact Hs|exact Hp].
Defined.
End ProbeWitnesses.

(** ** Classification of a settled probe *)

Section Classification.

Context `{ext : Externals}.

Lemma says_blocked_iff (e : Js.value) :
  says_blocked e ↔
  (let responseBody :=
     default Js.Undefined (JSON_parse (Js.get e "message")) in
   Js.isPlainObject responseBody && is_blocked_body responseBody = true).
Proof.
  unfold says_blocked, is_blocked_body. simpl. split.
  - intros (body & -> & Hp & He). simpl. by rewrite Hp, He.
  - destruct (JSON_parse (Js.get e "message")) as [body|]; simpl; [|done].
    intros [Hp Hb]%andb_true_iff. exists body. repeat split; [done|].
    destruct (Js.get body "error"); try done.
    by apply String.eqb_eq in Hb as ->.
Qed.

Lemma has_internal_code_iff (e : Js.value) :
  has_internal_code e = true ↔ Js.get e "code" = Js.Num errorCodes_rpc_internal.
Proof.
  unfold has_internal_code. destruct (Js.get e "code"); try (split; done).
  rewrite Z.eqb_eq. split; congruence.
Qed.

Lemma error_status_classified (o : ProbeOutcome) (e : Js.value) :
  caught o = Some e → Classified o (error_status e).
Proof.
  intros Hc. unfold error_status.
  destruct (isErrorWithCode e && isErrorWithMessage e) eqn:Hcm.
  - apply andb_true_iff in Hcm as [Hcode Hmsg]. simpl.
    destruct (Js.isPlainObject _ && is_blocked_body _) eqn:Hb.
    + eapply Classified_Blocked; eauto. by apply says_blocked_iff.
    + assert (¬ says_blocked e).
      { rewrite says_blocked_iff. simpl. by rewrite Hb. }
      destruct (has_internal_code e) eqn:Hi.
      * eapply Classified_Unknown_internal; eauto.
        by apply has_internal_code_iff.
      * eapply Classified_Unavailable; eauto.
        rewrite <- has_internal_code_iff. by rewrite Hi.
  - by eapply Classified_Unknown_unclassifiable.
Qed.

Lemma all_digits_app (a b : string) :
  Js.all_digits (a +:+ b) = Js.all_digits a && Js.all_digits b.
Proof.
  induction a as [|c a IH]; simpl; [done|]. by rewrite IH, andb_assoc.
Qed.

(** From [10^21] on a number prints with an exponent, which the pattern
    of [assertNetworkId] does not match, whatever the digits before it:
    the digits that [Number_toString] prints there decide nothing. *)
Lemma Number_toString_exponential (n : Z) :
  10 ^ 21 ≤ Z.abs n → Js.test_decimal (Js.Number_toString n) = false.
Proof.
  intros Hn. unfold Js.Number_toString, Js.test_decimal.
  apply Z.ltb_ge in Hn. rewrite Hn.
  destruct (pretty (Z.abs n)) as [|d rest].
  - by destruct (n <? 0).
  - apply andb_false_iff. right.
    rewrite all_digits_app. apply andb_false_iff. right. simpl.
    apply andb_false_iff. right.
    rewrite all_digits_app. apply andb_false_iff. right.
    by rewrite all_digits_app.
Qed.

(** The assertion passes exactly on the values that convert to a
    non-empty string of decimal digits. *)
Lemma assertNetworkId_passes (v : Js.value) :
  assertNetworkId v = None
  ↔ ∃ s, Js.ToString v = Some s ∧ Js.test_decimal s = true.
Proof.
  unfold assertNetworkId, Js.number_is_nan.
  destruct (Js.ToString v) as [s|]; [|split; [done|by intros (? & ? & _)]].
  destruct (Js.test_decimal s) eqn:E; simpl.
  - split; [eauto|done].
  - split; [done|]. intros (s' & [= <-] & Hs). congruence.
Qed.

Lemma verdict_classified (o : ProbeOutcome) : Classified o (verdict o).2.
Proof.
  unfold verdict.
  destruct (Promise_all o) as [[n s]|e] eqn:Hall.
  - destruct (assertNetworkId n) as [e|] eqn:Ha.
    + simpl. apply error_status_classified. unfold caught.
      by rewrite Hall, Ha.
    + unfold Promise_all in Hall.
      destruct (net_version o) eqn:Hn, (latestBlock o) eqn:Hl;
        try discriminate.
      injection Hall as -> _. simpl.
      apply assertNetworkId_passes in Ha as (s' & Hs & Hd).
      eapply Classified_Available; eauto.
  - simpl. apply error_status_classified. unfold caught. by rewrite Hall.
Qed.

Lemma Classified_functional (o : ProbeOutcome) (s1 s2 : NetworkStatus) :
  Classified o s1 → Classified o s2 → s1 = s2.
Proof.
  assert (Hav : ∀ n b s e, net_version o = Fulfilled n →
            latestBlock o = Fulfilled b →
            Js.ToString n = Some s → Js.test_decimal s = true →
            caught o = Some e → False).
  { intros n b s e Hn Hl Hs Hd. unfold caught, Promise_all.
    rewrite Hn, Hl.
    assert (Hp : assertNetworkId n = None)
      by (apply assertNetworkId_passes; eauto).
    by rewrite Hp. }
  intros H1 H2.
  destruct H1; destruct H2; try done;
    repeat match goal with
    | H : caught o = Some ?a, H' : caught o = Some ?b |- _ =>
        assert (a = b) by congruence; subst; clear H'
    end;
    try (exfalso; eapply Hav; eassumption);
    try contradiction; try congruence.
  all: match goal with
       | H : _ && _ = false |- _ =>
           apply andb_false_iff in H as [H|H]; congruence
       end.
Qed.

End Classification.

Section ProbeOutcomes.

Context `{ext : Externals}.

(** C3, as amended.  A call of [lookupNetwork] with a provider proxy and a
    chain id sends its requests and suspends; however the requests settle
    and whatever other calls are made in between, its continuation returns
    without throwing.  If [networkChanged] is still unset it writes the
    status store exactly once, with the status that [Classified] gives:
    [Available] when both requests succeed and the result of
    [net_version] converts to a non-empty string of decimal digits, as a
    decimal string does; [Blocked] when the error has a [code] and a
    [message] and the message parses to a plain object whose [error] is
    the blocked sentinel; [Unknown] when the error lacks a [code] or a [message], or
    is not blocked and carries the RPC-internal code; [Unavailable] for
    every other error.  If [networkChanged] is set it writes no status. *)
Theorem lookupNetwork_classifies
    (c : NetworkController) (p : SwappableProxy) (o : ProbeOutcome) :
  _providerProxy c = Some p →
  Js.truthy (chainId (providerStore c)) = true →
  ∃ pid,
    completion (lookupNetwork_begin c) = Normal (Some pid)
    ∧ ∀ ops, existsb (resumes pid) ops = false →
        let c2 := (run ops (after (lookupNetwork_begin c))).1 in
        let r := lookupNetwork_resume pid o c2 in
        completion r = Normal tt
        ∧ (flag pid c2 = Some false →
             ∃ st, status_writes (trace r) = [st]
                   ∧ networkStatusStore (after r) = st
                   ∧ Classified o st
                   ∧ ∀ st', Classified o st' → st' = st)
        ∧ (flag pid c2 = Some true → status_writes (trace r) = []).
Proof.
  intros Hp Hc.
  destruct (lookupNetwork_begin_suspends c p Hp Hc) as (Hcomp & _ & Hs & _).
  exists (activations c). split; [done|]. intros ops Hops. cbv zeta.
  destruct (keeps_run _ _ ops _ Hops Hs) as [(fr & Hfr & _) _].
  unfold flag. rewrite Hfr. simpl.
  destruct (networkChanged fr) eqn:Hch.
  - rewrite (lookupNetwork_resume_stale _ _ _ o Hfr Hch).
    split; [done|]. split; [done|]. intros _.
    unfold trace, status_writes, warnings. simpl. by repeat case_match.
  - destruct (lookupNetwork_resume_live _ _ _ o Hfr Hch)
      as (Hn & Hw & Hst & _).
    split; [done|]. split; [|done]. intros _.
    exists (verdict o).2. repeat split; try done.
    + apply verdict_classified.
    + intros st' H'. eapply Classified_functional; [done|].
      apply verdict_classified.
Qed.

(** C4, as amended.  When the provider proxy is null, [lookupNetwork]
    returns at once and leaves the controller as it is: it only logs a
    warning.  When there is a provider proxy and the chain id of the
    provider configuration is missing or empty, it resets [networkId],
    [networkStatus] and [networkDetails] to their defaults and returns,
    without sending a request and without publishing an event. *)
Theorem lookupNetwork_guards (c : NetworkController) :
  (_providerProxy c = None →
     let r := lookupNetwork_begin c in
     completion r = Normal None ∧ after r = c
     ∧ forallb is_log (trace r) = true)
  ∧ (is_Some (_providerProxy c) →
     Js.truthy (chainId (providerStore c)) = false →
     let r := lookupNetwork_begin c in
     completion r = Normal None
     ∧ networkIdStore (after r) = buildDefaultNetworkIdState
     ∧ networkStatusStore (after r) = buildDefaultNetworkStatusState
     ∧ networkDetails (after r) = buildDefaultNetworkDetailsState
     ∧ requests (trace r) = []
     ∧ published (trace r) = []).
Proof.
  split.
  - intros Hp. unfold lookupNetwork_begin, bind, read, completion, after, trace.
    simpl. rewrite Hp. simpl. by destruct c.
  - intros [p Hp] Hc.
    unfold lookupNetwork_begin, bind, read, completion, after, trace.
    simpl. rewrite Hp, Hc. simpl. done.
Qed.

End ProbeOutcomes.

Section ProbeOutcomeWitnesses.

#[local] Existing Instance Sample.externals.

Lemma lookupNetwork_classifies_witness :
  _providerProxy Scenario.wired
    = Some {| target := {| client_serial := 0;
                           client_configuration :=
                             CustomClient (Some "0x539")
                               "http://localhost:8545" |} |}
  ∧ Js.truthy (chainId (providerStore Scenario.wired)) = true
  ∧ ∃ pid,
      completion (lookupNetwork_begin Scenario.wired) = Normal (Some pid)
      ∧ completion
          (lookupNetwork_resume pid Scenario.geo_blocked
             (run [] (after (lookupNetwork_begin Scenario.wired))).1)
        = Normal tt.
Proof.
  assert (H1 : _providerProxy Scenario.wired
    = Some {| target := {| client_serial := 0;
                           client_configuration :=
                             CustomClient (Some "0x539")
                               "http://localhost:8545" |} |})
    by (vm_compute; reflexivity).
  assert (H2 : Js.truthy (chainId (providerStore Scenario.wired)) = true)
    by (vm_compute; reflexivity).
  split; [exact H1|]. split; [exact H2|].
  destruct (lookupNetwork_classifies Scenario.wired _ Scenario.geo_blocked H1 H2)
    as (pid & Hb & Hr).
  exists pid. split; [exact Hb|].
  exact (proj1 (Hr [] eq_refl)).
Defined.

(** C3, as stated, fails: an error whose message parses to the blocked
    sentinel but which has no [code] is classified [Unknown]. *)
Lemma blocked_message_without_code_is_unknown :
  let e := Js.Obj [("message", Js.Str Scenario.blocked_text)] in
  let r := lookupNetwork_resume 0 Scenario.blocked_without_code Scenario.probing in
  caught Scenario.blocked_without_code = Some e
  ∧ says_blocked e
  ∧ flag 0 Scenario.probing = Some false
  ∧ status_writes (trace r) = [Unknown]
  ∧ networkStatusStore (after r) ≠ Blocked.
Proof.
  cbv zeta. split; [vm_compute; reflexivity|]. split.
  { exists (Js.Obj [("error", Js.Str "countryBlocked")]).
    repeat split; vm_compute; reflexivity. }
  split; [vm_compute; reflexivity|]. split; [vm_compute; reflexivity|].
  assert (H : networkStatusStore
                (after (lookupNetwork_resume 0 Scenario.blocked_without_code
                          Scenario.probing)) = Unknown)
    by (vm_compute; reflexivity).
  rewrite H. discriminate.
Qed.

Lemma lookupNetwork_guards_witness :
  _providerProxy Scenario.restored = None
  ∧ after (lookupNetwork_begin Scenario.restored) = Scenario.restored.
Proof.
  assert (H1 : _providerProxy Scenario.restored = None) by reflexivity.
  split; [exact H1|].
  exact (proj1 (proj2 (proj1 (lookupNetwork_guards Scenario.restored) H1))).
Defined.

(** C4, as stated, fails: with no provider proxy nothing is reset.  A
    controller constructed from persisted network details keeps them. *)
Lemma lookupNetwork_without_provider_resets_nothing :
  constructor localhost_8545 None (Some (networkDetails Scenario.restored))
    None "K" = Normal Scenario.restored
  ∧ _providerProxy Scenario.restored = None
  ∧ eip (networkDetails (after (lookupNetwork_begin Scenario.restored))) 1559
    = Some true
  ∧ networkDetails (after (lookupNetwork_begin Scenario.restored))
    ≠ buildDefaultNetworkDetailsState.
Proof.
  split; [vm_compute; reflexivity|]. split; [reflexivity|].
  assert (H : eip (networkDetails
                     (after (lookupNetwork_begin Scenario.restored))) 1559
              = Some true) by (vm_compute; reflexivity).
  split; [exact H|]. intros E. rewrite E in H. vm_compute in H. discriminate.
Qed.

End ProbeOutcomeWitnesses.

(** ** The memoizing probe of EIP-1559 *)

Section EIP1559.

Context `{ext : Externals}.

Lemma supportsEIP1559_of_has_property (fields : list (string * Js.value)) :
  Js.assoc "baseFeePerGas" fields ≠ Some Js.Undefined →
  supportsEIP1559_of (Js.Obj fields)
  = Js.object_has (Js.Obj fields) "baseFeePerGas".
Proof.
  intros Hu. unfold supportsEIP1559_of, Js.object_has, Js.get.
  destruct (Js.assoc "baseFeePerGas" fields) as [v|]; simpl.
  - by destruct v.
  - done.
Qed.

(** C5.  [getEIP1559Compatibility] returns the stored [EIPS[1559]] when
    it is defined, sending nothing and changing nothing; returns [false],
    changing nothing, when the slot is undefined and there is no provider
    proxy; otherwise it requests the latest block and, when the block
    arrives, writes whether the block has a [baseFeePerGas] into
    [EIPS[1559]], keeps every other slot of [EIPS] and every other store,
    and returns that boolean. *)
Theorem getEIP1559Compatibility_memoizes (c : NetworkController) :
  (∀ b, eip (networkDetails c) 1559 = Some b →
     getEIP1559Compatibility_begin c = (Normal (Some b), c, []))
  ∧ (eip (networkDetails c) 1559 = None → _providerProxy c = None →
     getEIP1559Compatibility_begin c = (Normal (Some false), c, []))
  ∧ (eip (networkDetails c) 1559 = None → is_Some (_providerProxy c) →
     getEIP1559Compatibility_begin c
       = (Normal None, c, [SendAsync "eth_getBlockByNumber"])
     ∧ ∀ (c' : NetworkController) (block : Js.value),
         let b := supportsEIP1559_of block in
         let r := getEIP1559Compatibility_resume (Fulfilled block) c' in
         completion r = Normal b
         ∧ eip (networkDetails (after r)) 1559 = Some b
         ∧ (∀ k, k ≠ 1559 →
              EIPS (networkDetails (after r)) !! k
              = EIPS (networkDetails c') !! k)
         ∧ otherProperties (networkDetails (after r))
           = otherProperties (networkDetails c')
         ∧ (providerStore (after r), previousProviderStore (after r),
            networkIdStore (after r), networkStatusStore (after r),
            networkConfigurationsStore (after r))
           = (providerStore c', previousProviderStore c', networkIdStore c',
              networkStatusStore c', networkConfigurationsStore c')
         ∧ trace r = [PutNetworkDetails (networkDetails (after r))]
         ∧ (block = Js.Null → b = false)
         ∧ (∀ fields, block = Js.Obj fields →
              Js.assoc "baseFeePerGas" fields ≠ Some Js.Undefined →
              b = Js.object_has block "baseFeePerGas")).
Proof.
  unfold getEIP1559Compatibility_begin, bind, read. simpl.
  split; [|split].
  - intros b ->. done.
  - intros -> ->. done.
  - intros -> [p ->]. simpl. split; [done|]. intros c' block. cbv zeta.
    unfold getEIP1559Compatibility_resume, networkDetails_updateState_1559,
      networkDetails_putState, bind, read, modify, emit, ret,
      completion, after, trace, eip. simpl.
    rewrite lookup_insert_eq.
    repeat split; try done.
    + intros k Hk. by rewrite lookup_insert_ne.
    + by intros ->.
    + intros fields -> Hu. by apply supportsEIP1559_of_has_property.
Qed.

Lemma getEIP1559Compatibility_rejected (reason : Js.value) (c : NetworkController) :
  getEIP1559Compatibility_resume (Rejected reason) c
  = (Throw (Rejection reason), c, []).
Proof. reflexivity. Qed.

End EIP1559.

Section EIP1559Witnesses.

#[local] Existing Instance Sample.externals.

Lemma getEIP1559Compatibility_memoizes_witness :
  eip (networkDetails Scenario.restored) 1559 = Some true
  ∧ getEIP1559Compatibility_begin Scenario.restored
    = (Normal (Some true), Scenario.restored, []).
Proof.
  assert (H : eip (networkDetails Scenario.restored) 1559 = Some true)
    by (vm_compute; reflexivity).
  split; [exact H|].
  exact (proj1 (getEIP1559Compatibility_memoizes Scenario.restored) true H).
Defined.

End EIP1559Witnesses.

(** ** Switching *)

Section Switching.

Context `{ext : Externals}.

Lemma listeners_fire_outside (l : list nat) (c : NetworkController) :
  let c' := foldl (λ c' q, listener q c') c l in
  stores c' = stores c ∧ installed c' = installed c
  ∧ _infuraProjectId c' = _infuraProjectId c ∧ clients c' = clients c.
Proof.
  revert c. induction l as [|q l IH]; intros c; simpl; [done|].
  destruct (IH (listener q c)) as (H1 & H2 & H3 & H4).
  by rewrite H1, H2, H3, H4.
Qed.

#[global] Instance same_providers_stepwise : Stepwise same_providers.
Proof.
  split; [done|]. intros c t1 c1 t2 c2 [H1 H2] [H3 H4].
  split; congruence.
Qed.

Lemma same_providers_publish (e : NetworkControllerEventType) :
  sat same_providers (messenger_publish e).
Proof.
  intros c. unfold messenger_publish, same_providers.
  destruct e; try done. unfold after. simpl.
  destruct (listeners_fire_outside (didChangeListeners c) c) as (H & _).
  unfold stores in H. by injection H as -> -> _ _ _ _.
Qed.

Ltac same_providers_leaf :=
  first
    [ apply same_providers_publish
    | apply sat_emit; intros; done
    | unfold messenger_subscribe, messenger_unsubscribe;
      apply sat_modify; intros; done
    | intros ?; done ].

Lemma _switchNetwork_same_providers (pc : ProviderConfiguration) :
  sat same_providers (_switchNetwork pc).
Proof. sat_with same_providers_leaf. Qed.

Lemma _setProviderConfig_after (pc : ProviderConfiguration) (c : NetworkController) :
  after (_setProviderConfig pc c)
  = after (_switchNetwork pc
             (set_providerStore pc
                (set_previousProviderStore (providerStore c) c))).
Proof.
  unfold _setProviderConfig, previousProviderStore_putState,
    providerStore_putState, bind, read, modify, emit, after. simpl.
  by destruct (_switchNetwork pc _) as [[[?|?] ?] ?].
Qed.

Lemma rollbackToPreviousProvider_after (c : NetworkController) :
  after (rollbackToPreviousProvider c)
  = after (_switchNetwork (previousProviderStore c)
             (set_providerStore (previousProviderStore c) c)).
Proof.
  unfold rollbackToPreviousProvider, providerStore_putState, bind, read,
    modify, emit, after. simpl.
  by destruct (_switchNetwork (previousProviderStore c) _) as [[[?|?] ?] ?].
Qed.

(** C8.  A switch to any provider configuration followed by
    [rollbackToPreviousProvider] leaves [providerStore] as it was before
    the switch, whether or not either call throws on its way. *)
Theorem rollback_restores_provider
    (pc : ProviderConfiguration) (c : NetworkController) :
  providerStore
    (after (rollbackToPreviousProvider (after (_setProviderConfig pc c))))
  = providerStore c.
Proof.
  rewrite rollbackToPreviousProvider_after.
  destruct (_switchNetwork_same_providers
              (previousProviderStore (after (_setProviderConfig pc c)))
              (set_providerStore
                 (previousProviderStore (after (_setProviderConfig pc c)))
                 (after (_setProviderConfig pc c)))) as [-> _].
  simpl. rewrite _setProviderConfig_after.
  by destruct (_switchNetwork_same_providers pc
                 (set_providerStore pc
                    (set_previousProviderStore (providerStore c) c)))
    as [_ ->].
Qed.

(** C10.  For a provider configuration of type ["rpc"] without a usable
    [rpcUrl], or of a type that is neither built-in nor ["rpc"],
    [_switchNetwork] publishes [NetworkWillChange], resets [networkId],
    [networkStatus] and [networkDetails], and then throws from
    [_configureProvider]: [NetworkDidChange] is not published, no probe
    is started, and the client and proxies installed before stay. *)
Theorem _switchNetwork_throws_midway
    (pc : ProviderConfiguration) (c : NetworkController) :
  (type pc = NETWORK_TYPES.RPC ∧ Js.truthy (rpcUrl pc) = false)
  ∨ (isInfuraProviderType (type pc) = false ∧ type pc ≠ NETWORK_TYPES.RPC) →
  let r := _switchNetwork pc c in
  completion r = Throw (Error (unknown_type_message (type pc)))
  ∧ trace r
    = [Publish NetworkWillChange;
       PutNetworkId buildDefaultNetworkIdState;
       PutNetworkStatus buildDefaultNetworkStatusState;
       PutNetworkDetails buildDefaultNetworkDetailsState]
  ∧ (NetworkDidChange ∉ published (trace r))
  ∧ networkIdStore (after r) = buildDefaultNetworkIdState
  ∧ networkStatusStore (after r) = buildDefaultNetworkStatusState
  ∧ networkDetails (after r) = buildDefaultNetworkDetailsState
  ∧ installed (after r) = installed c
  ∧ lookups (after r) = lookups c
  ∧ providerStore (after r) = providerStore c
  ∧ previousProviderStore (after r) = previousProviderStore c.
Proof.
  intros Hpc.
  assert (Hi : isInfuraProviderType (type pc) = false).
  { destruct Hpc as [[-> _]|[? _]]; [|done].
    apply bool_decide_eq_false_2, rpc_not_builtin. }
  assert (Hr : (String.eqb (type pc) NETWORK_TYPES.RPC
                && Js.truthy (rpcUrl pc)) = false).
  { destruct Hpc as [[_ ->]|[_ Hne]]; [apply andb_false_r|].
    apply andb_false_iff. left. by apply String.eqb_neq. }
  cbv zeta.
  unfold _switchNetwork, _configureProvider, messenger_publish, _resetNetworkId,
    _resetNetworkStatus, _resetNetworkDetails, networkIdStore_putState,
    networkStatusStore_putState, networkDetails_putState,
    bind, read, modify, emit, ret, throw, completion, after, trace.
  simpl. rewrite Hi, Hr. simpl. repeat split; try done.
  intros Hin. repeat (apply elem_of_cons in Hin as [Hin|Hin]; [done|]).
  by apply elem_of_nil in Hin.
Qed.

End Switching.

Section SwitchingWitnesses.

#[local] Existing Instance Sample.externals.

Lemma _switchNetwork_throws_midway_witness :
  let pc :=
    {| type := "rpc"; chainId := Some "0x5"; rpcUrl := Some "";
       ticker := None; nickname := None; rpcPrefs := None;
       config_id := None |} in
  ((type pc = NETWORK_TYPES.RPC ∧ Js.truthy (rpcUrl pc) = false)
   ∨ (isInfuraProviderType (type pc) = false ∧ type pc ≠ NETWORK_TYPES.RPC))
  ∧ completion (_switchNetwork pc Scenario.probing)
    = Throw (Error (unknown_type_message "rpc"))
  ∧ installed (after (_switchNetwork pc Scenario.probing))
    = installed Scenario.probing.
Proof.
  intros pc.
  assert (H : (type pc = NETWORK_TYPES.RPC ∧ Js.truthy (rpcUrl pc) = false)
     ∨ (isInfuraProviderType (type pc) = false ∧ type pc ≠ NETWORK_TYPES.RPC))
    by (left; split; reflexivity).
  split; [exact H|].
  destruct (_switchNetwork_throws_midway pc Scenario.probing H)
    as (H1 & _ & _ & _ & _ & _ & H2 & _).
  split; [exact H1|exact H2].
Defined.

End SwitchingWitnesses.

(** ** Objects as insertion-ordered property lists *)

Section Objects.

Context {A : Type}.

Implicit Types (o : list (string * A)) (k : string) (v : A).

Lemma assoc_obj_set_eq k v o : Js.assoc k (Js.obj_set k v o) = Some v.
Proof.
  induction o as [|[k' v'] o IH]; simpl.
  - by rewrite String.eqb_refl.
  - destruct (String.eqb k k') eqn:E; simpl.
    + by rewrite String.eqb_refl.
    + by rewrite E.
Qed.

Lemma assoc_obj_set_ne k k' v o :
  k ≠ k' → Js.assoc k' (Js.obj_set k v o) = Js.assoc k' o.
Proof.
  intros Hne. induction o as [|[k0 v0] o IH]; simpl.
  - by apply String.eqb_neq in Hne; rewrite String.eqb_sym, Hne.
  - destruct (String.eqb k k0) eqn:E; simpl.
    + apply String.eqb_eq in E as <-.
      assert (String.eqb k' k = false) as ->; [|done].
      apply String.eqb_neq. congruence.
    + by rewrite IH.
Qed.

Lemma assoc_None k o : Js.assoc k o = None ↔ k ∉ o.*1.
Proof.
  induction o as [|[k' v'] o IH]; simpl.
  - split; [intros _; apply not_elem_of_nil|done].
  - rewrite not_elem_of_cons. destruct (String.eqb_spec k k') as [->|Hne].
    + split; [done|]. by intros [? _].
    + rewrite IH. tauto.
Qed.

Lemma assoc_Some_elem k v o : Js.assoc k o = Some v → (k, v) ∈ o.
Proof.
  induction o as [|[k' v'] o IH]; simpl; [done|].
  destruct (String.eqb_spec k k') as [->|Hne].
  - intros [= ->]. by left.
  - intros H. right. by apply IH.
Qed.

Lemma elem_assoc_Some k v o : NoDup o.*1 → (k, v) ∈ o → Js.assoc k o = Some v.
Proof.
  induction o as [|[k' v'] o IH]; simpl; intros Hnd Hin.
  - by apply elem_of_nil in Hin.
  - apply NoDup_cons in Hnd as [Hk' Hnd].
    apply elem_of_cons in Hin as [[= -> ->]|Hin].
    + by rewrite String.eqb_refl.
    + destruct (String.eqb_spec k k') as [->|Hne]; [|by apply IH].
      destruct Hk'. apply list_elem_of_fmap. by exists (k', v).
Qed.

Lemma obj_set_keys k v o :
  (Js.obj_set k v o).*1
  = if Js.assoc k o is Some _ then o.*1 else o.*1 ++ [k].
Proof.
  induction o as [|[k' v'] o IH]; csimpl; [done|].
  destruct (String.eqb_spec k k') as [->|Hne]; csimpl; [done|].
  rewrite IH. by destruct (Js.assoc k o).
Qed.

Lemma NoDup_obj_set k v o : NoDup o.*1 → NoDup (Js.obj_set k v o).*1.
Proof.
  intros Hnd. rewrite obj_set_keys.
  destruct (Js.assoc k o) eqn:E; [done|].
  apply NoDup_app. split; [done|]. split; [|apply NoDup_singleton].
  intros x Hx ->%list_elem_of_singleton. by apply assoc_None in E.
Qed.

Lemma length_obj_set k v o :
  length (Js.obj_set k v o)
  = if Js.assoc k o is Some _ then length o else S (length o).
Proof.
  rewrite <- (length_fmap fst (Js.obj_set k v o)), obj_set_keys.
  destruct (Js.assoc k o).
  - by rewrite length_fmap.
  - rewrite length_app, length_fmap. simpl. lia.
Qed.

Lemma elem_of_obj_set k v o k' v' :
  NoDup o.*1 →
  (k', v') ∈ Js.obj_set k v o ↔ (k' = k ∧ v' = v) ∨ (k' ≠ k ∧ (k', v') ∈ o).
Proof.
  induction o as [|[k0 v0] o IH]; simpl; intros Hnd.
  - rewrite list_elem_of_singleton. split.
    + intros [= -> ->]. by left.
    + intros [[-> ->]|[_ Hin]]; [done|]. by apply elem_of_nil in Hin.
  - apply NoDup_cons in Hnd as [Hk0 Hnd].
    destruct (String.eqb_spec k k0) as [<-|Hne].
    + rewrite !elem_of_cons. split.
      * intros [[= -> ->]|Hin]; [by left|]. right. split; [|by right].
        intros ->. apply Hk0, list_elem_of_fmap. by exists (k, v').
      * intros [[-> ->]|[Hne [[= ? ?]|Hin]]]; [by left|done|by right].
    + rewrite !elem_of_cons, (IH Hnd). split.
      * intros [[= -> ->]|[[-> ->]|[? ?]]]; [|by left|].
        -- right. split; [congruence|by left].
        -- right. split; [done|by right].
      * intros [[-> ->]|[? [[= -> ->]|?]]]; [right; by left|by left|].
        right. by right.
Qed.

Lemma filter_none (p : A → bool) (l : list A) :
  (∀ x, x ∈ l → p x = false) → List.filter p l = [].
Proof.
  induction l as [|x l IH]; simpl; intros H; [done|].
  rewrite (H x) by by left. apply IH. intros y Hy. apply H. by right.
Qed.

(** A filter that only the freshly set property passes keeps just it. *)
Lemma filter_values_obj_set (p : A → bool) k v o :
  NoDup o.*1 → p v = true →
  (∀ k' v', (k', v') ∈ o → p v' = true → k' = k) →
  List.filter p (Js.values (Js.obj_set k v o)) = [v].
Proof.
  unfold Js.values.
  induction o as [|[k0 v0] o IH]; csimpl; intros Hnd Hv Hown.
  - by rewrite Hv.
  - apply NoDup_cons in Hnd as [Hk0 Hnd].
    destruct (String.eqb_spec k k0) as [<-|Hne]; simpl.
    + rewrite Hv. f_equal. apply filter_none.
      intros x Hx. apply list_elem_of_In, in_map_iff in Hx as ([k1 v1] & <- & Hin).
      apply list_elem_of_In in Hin. simpl.
      destruct (p v1) eqn:E; [|done]. destruct Hk0.
      assert (k1 = k) as <- by (apply (Hown k1 v1); [by right|done]).
      apply list_elem_of_fmap. by exists (k1, v1).
    + destruct (p v0) eqn:E.
      * destruct Hne. symmetry. apply (Hown k0 v0); [by left|done].
      * apply IH; try done. intros k' v' Hin. apply Hown. by right.
Qed.

End Objects.

(** ** Computations that return *)

Section Returns.

Context `{ext : Externals}.

Lemma returns_ret {A : Type} (a : A) : returns (ret a).
Proof. intros c. by exists a. Qed.

Lemma returns_read {A : Type} (f : NetworkController → A) : returns (read f).
Proof. intros c. by exists (f c). Qed.

Lemma returns_modify (f : NetworkController → NetworkController) :
  returns (modify f).
Proof. intros c. by exists tt. Qed.

Lemma returns_emit (e : Effect) : returns (emit e).
Proof. intros c. by exists tt. Qed.

Lemma returns_bind {A B : Type} (m : M A) (k : A → M B) :
  returns m → (∀ a, returns (k a)) → returns (bind m k).
Proof.
  intros Hm Hk c. destruct (Hm c) as [a Ha]. unfold bind, completion in *.
  destruct (m c) as [[r c1] t1]. simpl in Ha. subst r.
  destruct (Hk a c1) as [b Hb]. unfold completion in Hb.
  destruct (k a c1) as [[r c2] t2]. simpl in *. by exists b.
Qed.

Lemma returns_publish (e : NetworkControllerEventType) :
  returns (messenger_publish e).
Proof.
  unfold messenger_publish. apply returns_bind; [apply returns_emit|].
  intros _. destruct e; first [apply returns_modify|apply returns_ret].
Qed.

Lemma returns_suspend (b : bool) : returns (suspend b).
Proof. intros c. by eexists. Qed.

Lemma completion_bind {A B : Type} (m : M A) (k : A → M B)
    (c : NetworkController) (a : A) :
  completion (m c) = Normal a →
  completion (bind m k c) = completion (k a (after (m c))).
Proof.
  unfold bind, completion, after. destruct (m c) as [[r c1] t1]. simpl.
  intros ->. by destruct (k a c1) as [[? ?] ?].
Qed.

End Returns.

Ltac returns_with leaf :=
  repeat lazymatch goal with
  | |- returns (bind _ _) => apply returns_bind; [ | intros ? ]
  | |- returns (ret _) => apply returns_ret
  | |- returns (read _) => apply returns_read
  | |- returns (modify _) => apply returns_modify
  | |- returns (emit _) => apply returns_emit
  | |- returns (messenger_publish _) => apply returns_publish
  | |- returns (suspend _) => apply returns_suspend
  | |- returns _ =>
      first [ solve [leaf]
            | progress unfold messenger_subscribe, messenger_unsubscribe
            | progress autounfold with methods
            | case_match ]
  end.

(** ** The registry *)

Section Registry.

Context `{ext : Externals}.

(** A provider configuration that [_configureProvider] accepts. *)
Lemma _configureProvider_returns (pc : ProviderConfiguration) :
  isInfuraProviderType (type pc) = true
  ∨ (type pc = NETWORK_TYPES.RPC ∧ Js.truthy (rpcUrl pc) = true) →
  returns (_configureProvider pc).
Proof.
  intros Hpc. unfold _configureProvider.
  destruct (isInfuraProviderType (type pc)) eqn:Hi.
  - returns_with fail.
  - destruct Hpc as [?|[-> ->]]; [done|]. simpl. returns_with fail.
Qed.

Lemma _setProviderConfig_returns (pc : ProviderConfiguration) :
  isInfuraProviderType (type pc) = true
  ∨ (type pc = NETWORK_TYPES.RPC ∧ Js.truthy (rpcUrl pc) = true) →
  returns (_setProviderConfig pc).
Proof.
  intros Hpc. unfold _setProviderConfig, _switchNetwork.
  returns_with ltac:(by apply _configureProvider_returns).
Qed.

Lemma setActiveNetwork_returns
    (c : NetworkController) (i : string) (nc : NetworkConfiguration) :
  Js.assoc i (networkConfigurationsStore c) = Some nc →
  nc_rpcUrl nc ≠ "" →
  completion (setActiveNetwork i c) = Normal (Some (nc_rpcUrl nc)).
Proof.
  intros Hi Hurl. unfold setActiveNetwork.
  rewrite (completion_bind _ _ c (networkConfigurationsStore c)) by done.
  unfold read, after. simpl. rewrite Hi.
  destruct (_setProviderConfig_returns (rpc_configuration nc)) with (c := c)
    as [[] Hr].
  { right. split; [done|]. simpl. by apply negb_true_iff, String.eqb_neq. }
  by rewrite (completion_bind _ _ c tt).
Qed.

#[global] Instance registry_untouched_stepwise : Stepwise registry_untouched.
Proof.
  split; [done|]. intros c t1 c1 t2 c2 [H1 H2] [H3 H4]. split.
  - unfold tracked in *. by rewrite omap_app, H1, H3.
  - congruence.
Qed.

Lemma registry_untouched_publish (e : NetworkControllerEventType) :
  sat registry_untouched (messenger_publish e).
Proof.
  intros c. unfold messenger_publish, registry_untouched.
  destruct e; try done. unfold after, trace. simpl. split; [done|].
  destruct (listeners_fire_outside (didChangeListeners c) c) as (H & _).
  unfold stores in H. by injection H as _ _ _ _ _ ->.
Qed.

Lemma setActiveNetwork_registry_untouched (i : string) :
  sat registry_untouched (setActiveNetwork i).
Proof.
  sat_with ltac:(first
    [ apply registry_untouched_publish
    | apply sat_emit; intros; done
    | unfold messenger_subscribe, messenger_unsubscribe;
      apply sat_modify; intros; done
    | intros ?; done ]).
Qed.

Lemma bind_ret_l {A B : Type} (a : A) (k : A → M B) (c : NetworkController) :
  bind (ret a) k c = k a c.
Proof. unfold bind, ret. by destruct (k a c) as [[? ?] ?]. Qed.

Lemma bind_read_l {A B : Type} (f : NetworkController → A) (k : A → M B)
    (c : NetworkController) :
  bind (read f) k c = k (f c) c.
Proof. unfold bind, read. by destruct (k (f c) c) as [[? ?] ?]. Qed.

Lemma bind_throw_l {A B : Type} (e : Exception) (k : A → M B)
    (c : NetworkController) :
  bind (throw e) k c = (Throw e, c, []).
Proof. reflexivity. Qed.

(** An input that fails a check of [upsertNetworkConfiguration] makes it
    throw before it has read or written anything. *)
Lemma upsert_invalid
    (input : NetworkConfigurationInput) (options : UpsertOptions)
    (uuid : string) (c : NetworkController) :
  valid_upsert input options = false →
  ∃ e, upsertNetworkConfiguration input options uuid c = (Throw e, c, []).
Proof.
  unfold valid_upsert, upsertNetworkConfiguration, assert_ok, check_URL.
  destruct (isPrefixedFormattedHexString _); [|by eexists].
  rewrite bind_ret_l.
  destruct (isSafeChainId _); [|by eexists].
  rewrite bind_ret_l.
  destruct (Js.truthy (in_rpcUrl input)); [|by eexists].
  simpl negb. cbv iota. rewrite bind_ret_l.
  destruct (Js.truthy (referrer options)); [|by eexists].
  destruct (Js.truthy (source options)); [|by eexists].
  simpl orb. cbv iota. rewrite bind_ret_l. simpl andb.
  destruct (URL_constructor _) as [e|].
  - destruct (isErrorWithMessage e); simpl negb; simpl orb.
    + destruct (message_includes e "Invalid URL") as [[|]|]; simpl.
      * by eexists.
      * rewrite bind_ret_l.
        destruct (Js.truthy (in_ticker input)); [done|by eexists].
      * by eexists.
    + rewrite bind_ret_l.
      destruct (Js.truthy (in_ticker input)); [done|by eexists].
  - rewrite bind_ret_l.
    destruct (Js.truthy (in_ticker input)); [done|by eexists].
Qed.

(** What a call of [upsertNetworkConfiguration] that passes the checks
    does to the registry, what it returns, and what it reports. *)
Lemma upsert_valid
    (input : NetworkConfigurationInput) (options : UpsertOptions)
    (uuid : string) (c : NetworkController) :
  valid_upsert input options = true →
  let registry := networkConfigurationsStore c in
  let old := oldNetworkConfigurationId registry (the (in_rpcUrl input)) in
  let newId := if Js.truthy old then the old else uuid in
  let entry :=
    {| nc_id := newId;
       nc_rpcUrl := the (in_rpcUrl input);
       nc_chainId := in_chainId input;
       nc_ticker := the (in_ticker input);
       nc_nickname := in_nickname input;
       nc_rpcPrefs := in_rpcPrefs input |} in
  let r := upsertNetworkConfiguration input options uuid c in
  completion r = Normal newId
  ∧ networkConfigurationsStore (after r) = Js.obj_set newId entry registry
  ∧ tracked (trace r)
    = if Js.truthy old then []
      else [Custom_Network_Added (in_chainId input) (the (in_ticker input))
              (the (referrer options)) (the (source options))].
Proof.
  intros Hv. cbv zeta.
  assert (Hurl : the (in_rpcUrl input) ≠ "").
  { unfold valid_upsert in Hv. repeat (apply andb_true_iff in Hv as [Hv ?]).
    destruct (in_rpcUrl input) as [u|]; [|done]. simpl in *.
    match goal with
    | Hn : negb (String.eqb u _) = true |- _ =>
        apply negb_true_iff in Hn; by apply String.eqb_neq
    end. }
  revert Hv.
  unfold valid_upsert, upsertNetworkConfiguration, assert_ok, check_URL.
  destruct (isPrefixedFormattedHexString _); [|done]. rewrite bind_ret_l.
  destruct (isSafeChainId _); [|done]. rewrite bind_ret_l.
  destruct (Js.truthy (in_rpcUrl input)); [|done].
  simpl negb. cbv iota. rewrite bind_ret_l.
  destruct (Js.truthy (referrer options)); [|done].
  destruct (Js.truthy (source options)); [|done].
  simpl orb. cbv iota. rewrite bind_ret_l. simpl andb.
  intros Hv.
  assert (Hu :
    match URL_constructor (the (in_rpcUrl input)) with
    | Some e =>
        if isErrorWithMessage e
        then match message_includes e "Invalid URL" with
             | Some true => throw (Error "rpcUrl must be a valid URL")
             | Some false => ret ()
             | None => throw (TypeError "e.message.includes is not a function")
             end
        else ret ()
    | None => ret ()
    end = ret tt).
  { apply andb_true_iff in Hv as [Hv _].
    destruct (URL_constructor _) as [e|]; [|done].
    destruct (isErrorWithMessage e); [|done]. simpl in Hv.
    apply bool_decide_eq_true in Hv. by rewrite Hv. }
  rewrite Hu, bind_ret_l.
  apply andb_true_iff in Hv as [_ ->]. simpl negb. cbv iota.
  rewrite bind_ret_l, bind_read_l.
  set (old := oldNetworkConfigurationId _ _).
  set (newId := if Js.truthy old then the old else uuid).
  set (entry := mkNetworkConfiguration _ _ _ _ _ _).
  pose (c1 := set_networkConfigurationsStore
                (Js.obj_set newId entry (networkConfigurationsStore c)) c).
  assert (Hget : Js.assoc newId (networkConfigurationsStore c1) = Some entry)
    by apply assoc_obj_set_eq.
  pose proof (setActiveNetwork_returns c1 newId entry Hget Hurl) as Hret.
  pose proof (setActiveNetwork_registry_untouched newId c1) as [Htr Hreg].
  unfold completion, after, trace in *.
  unfold networkConfigurationsStore_putState, bind, modify, emit, ret.
  simpl. fold c1.
  destruct (Js.truthy old), (setActive options); simpl;
    try (destruct (setActiveNetwork newId c1) as [[[a|e] c2] t2];
         simpl in *; [|done]; rewrite ?app_nil_r);
    repeat split; try done.
  - unfold tracked in *. simpl. by rewrite Htr.
Qed.

End Registry.

Section RegistryClaims.

Context `{ext : Externals}.

Implicit Types (reg : NetworkConfigurations) (nc : NetworkConfiguration).

Lemma find_head_filter {A : Type} (p : A → bool) (l : list A) :
  List.find p l = head (List.filter p l).
Proof.
  induction l as [|x l IH]; simpl; [done|]. by destruct (p x).
Qed.

Lemma old_id_matching reg url :
  oldNetworkConfigurationId reg url = nc_id <$> head (matching url reg).
Proof. unfold oldNetworkConfigurationId, matching. by rewrite find_head_filter. Qed.

Lemma elem_of_matching reg url nc :
  nc ∈ matching url reg ↔ same_rpcUrl url nc = true ∧ ∃ k, (k, nc) ∈ reg.
Proof.
  unfold matching, Js.values.
  rewrite list_elem_of_In, filter_In, in_map_iff. split.
  - intros [([k nc'] & <- & Hin) Hp]. split; [done|]. exists k.
    by apply list_elem_of_In.
  - intros [Hp [k Hin]]. split; [|done]. exists (k, nc).
    split; [done|]. by apply list_elem_of_In.
Qed.

Lemma same_rpcUrl_case url1 url2 nc :
  toLowerCase url1 = toLowerCase url2 →
  same_rpcUrl url1 nc = same_rpcUrl url2 nc.
Proof. unfold same_rpcUrl. by intros ->. Qed.

(** Under the invariant, the id that [upsertNetworkConfiguration] picks is
    not empty and is the key of every entry that matches the URL. *)
Lemma new_id_owns reg url uuid :
  registry_wf reg → uuid ≠ "" →
  let old := oldNetworkConfigurationId reg url in
  let newId := if Js.truthy old then the old else uuid in
  newId ≠ ""
  ∧ (Js.truthy old = bool_decide (matching url reg ≠ []))
  ∧ ∀ k nc, (k, nc) ∈ reg → same_rpcUrl url nc = true → k = newId.
Proof.
  intros (Hnd & Hid & Huniq) Hu. cbv zeta. rewrite old_id_matching.
  destruct (matching url reg) as [|nc0 rest] eqn:Hm; simpl.
  - split; [done|]. split; [done|]. intros k nc Hin Hp.
    assert (nc ∈ matching url reg) as Hx by (apply elem_of_matching; eauto).
    rewrite Hm in Hx. by apply elem_of_nil in Hx.
  - assert (nc0 ∈ matching url reg) as Hx by (rewrite Hm; by left).
    apply elem_of_matching in Hx as [Hp0 [k0 Hin0]].
    destruct (Hid _ _ Hin0) as [Hk0 Hne0]. rewrite Hk0.
    assert (Ht : negb (String.eqb k0 "") = true)
      by by apply negb_true_iff, String.eqb_neq.
    rewrite Ht. split; [done|]. split; [done|].
    intros k nc Hin Hp. apply (Huniq _ _ _ _ Hin Hin0).
    unfold same_rpcUrl in *.
    apply String.eqb_eq in Hp, Hp0. congruence.
Qed.

Lemma registry_wf_obj_set reg k nc :
  registry_wf reg → k ≠ "" → nc_id nc = k →
  (∀ k' nc', (k', nc') ∈ reg → same_rpcUrl (nc_rpcUrl nc) nc' = true → k' = k) →
  registry_wf (Js.obj_set k nc reg).
Proof.
  intros (Hnd & Hid & Huniq) Hk Hnc Hown. split; [|split].
  - by apply NoDup_obj_set.
  - intros k' nc' [[-> ->]|[_ Hin]]%elem_of_obj_set; [done| |done].
    by apply Hid.
  - intros k1 nc1 k2 nc2 H1%elem_of_obj_set H2%elem_of_obj_set Hl;
      [|done|done].
    destruct H1 as [[-> ->]|[Hne1 H1]], H2 as [[-> ->]|[Hne2 H2]]; try done.
    + symmetry. apply (Hown _ _ H2). unfold same_rpcUrl.
      apply String.eqb_eq. congruence.
    + apply (Hown _ _ H1). unfold same_rpcUrl. by apply String.eqb_eq.
    + by apply (Huniq _ _ _ _ H1 H2).
Qed.


(** C6.  On a registry that satisfies its invariant, two calls of
    [upsertNetworkConfiguration] that pass the checks and whose [rpcUrl]s
    are equal up to letter case return the same id; the second call does
    not grow the registry; after it exactly one entry matches the
    [rpcUrl], the one just written under that id; and the id is that of
    the entry that matched before the first call, if there was one. *)
Theorem upsert_idempotent
    (input1 input2 : NetworkConfigurationInput)
    (options1 options2 : UpsertOptions) (uuid1 uuid2 : string)
    (c : NetworkController) :
  registry_wf (networkConfigurationsStore c) →
  uuid1 ≠ "" →
  valid_upsert input1 options1 = true →
  valid_upsert input2 options2 = true →
  toLowerCase (the (in_rpcUrl input1))
  = toLowerCase (the (in_rpcUrl input2)) →
  let r1 := upsertNetworkConfiguration input1 options1 uuid1 c in
  let r2 := upsertNetworkConfiguration input2 options2 uuid2 (after r1) in
  ∃ i,
    completion r1 = Normal i
    ∧ completion r2 = Normal i
    ∧ length (networkConfigurationsStore (after r2))
      = length (networkConfigurationsStore (after r1))
    ∧ matching (the (in_rpcUrl input2)) (networkConfigurationsStore (after r2))
      = [ {| nc_id := i;
             nc_rpcUrl := the (in_rpcUrl input2);
             nc_chainId := in_chainId input2;
             nc_ticker := the (in_ticker input2);
             nc_nickname := in_nickname input2;
             nc_rpcPrefs := in_rpcPrefs input2 |} ]
    ∧ (∀ nc, nc ∈ matching (the (in_rpcUrl input1))
                     (networkConfigurationsStore c) →
             nc_id nc = i)
    ∧ registry_wf (networkConfigurationsStore (after r2)).
Proof.
  intros Hwf Hu Hv1 Hv2 Hcase. cbv zeta.
  destruct (upsert_valid input1 options1 uuid1 c Hv1) as (Hc1 & Hr1 & _).
  destruct (new_id_owns _ (the (in_rpcUrl input1)) uuid1 Hwf Hu)
    as (Hne & _ & Hown).
  set (url1 := the (in_rpcUrl input1)) in *.
  set (url2 := the (in_rpcUrl input2)) in *.
  set (i := if Js.truthy (oldNetworkConfigurationId _ url1) then _ else uuid1)
    in *.
  set (entry1 := mkNetworkConfiguration i _ _ _ _ _) in *.
  set (c1 := after (upsertNetworkConfiguration input1 options1 uuid1 c)) in *.
  assert (Hp1 : same_rpcUrl url1 entry1 = true)
    by (unfold same_rpcUrl; apply String.eqb_refl).
  assert (Hwf1 : registry_wf (networkConfigurationsStore c1)).
  { rewrite Hr1. apply registry_wf_obj_set; try done;
      intros k' nc' Hin Hp; by apply (Hown _ _ Hin). }
  assert (Hm1 : matching url2 (networkConfigurationsStore c1) = [entry1]).
  { rewrite Hr1. unfold matching.
    destruct Hwf as (Hnd & _). apply filter_values_obj_set; [done| |].
    - by rewrite <- (same_rpcUrl_case url1 url2).
    - intros k' nc' Hin Hp. apply (Hown _ _ Hin).
      by rewrite (same_rpcUrl_case url1 url2). }
  destruct (upsert_valid input2 options2 uuid2 c1 Hv2) as (Hc2 & Hr2 & _).
  assert (Hold2 : oldNetworkConfigurationId (networkConfigurationsStore c1) url2
                  = Some i) by (by rewrite old_id_matching, Hm1).
  fold url2 in Hc2, Hr2. rewrite Hold2 in Hc2, Hr2. simpl in Hc2, Hr2.
  assert (Ht : negb (String.eqb i "") = true)
    by by apply negb_true_iff, String.eqb_neq.
  rewrite Ht in Hc2, Hr2.
  assert (Hown1 : ∀ k nc, (k, nc) ∈ networkConfigurationsStore c1 →
                    same_rpcUrl url2 nc = true → k = i).
  { intros k nc Hin Hp. rewrite Hr1 in Hin.
    apply elem_of_obj_set in Hin as [[-> _]|[_ Hin]]; [done| |by destruct Hwf].
    apply (Hown _ _ Hin). by rewrite (same_rpcUrl_case url1 url2). }
  exists i. split; [done|]. split; [done|]. split; [|split; [|split]].
  - rewrite Hr2, length_obj_set.
    by rewrite Hr1, assoc_obj_set_eq.
  - rewrite Hr2. unfold matching. destruct Hwf1 as (Hnd1 & _).
    apply filter_values_obj_set; [done| |done].
    unfold same_rpcUrl. apply String.eqb_refl.
  - intros nc [Hp [k Hin]]%elem_of_matching.
    destruct Hwf as (_ & Hid & _). destruct (Hid _ _ Hin) as [-> _].
    by apply (Hown _ _ Hin).
  - rewrite Hr2. by apply registry_wf_obj_set.
Qed.

(** X22.  A call of [upsertNetworkConfiguration] whose input fails a check
    (chain id not a prefixed hexadecimal string or not safe, [rpcUrl]
    missing or rejected as an invalid URL, [referrer] or [source] missing,
    [ticker] missing), a call of [setProviderType] with ["rpc"] or with a
    name that is not built-in, and a call of [setActiveNetwork] with an id
    that names neither an entry of the registry nor a property of
    [Object.prototype] throw at once: the controller is as it was and
    nothing was written, published, sent or reported. *)
Theorem validation_failure_changes_nothing (c : NetworkController) :
  (∀ input options uuid,
     valid_upsert input options = false →
     ∃ e, upsertNetworkConfiguration input options uuid c = (Throw e, c, []))
  ∧ (∀ type,
       type = NETWORK_TYPES.RPC ∨ isInfuraProviderType type = false →
       ∃ e, setProviderType type c = (Throw e, c, []))
  ∧ (∀ i,
       Js.assoc i (networkConfigurationsStore c) = None →
       Js.inherited i = false →
       ∃ e, setActiveNetwork i c = (Throw e, c, [])).
Proof.
  split; [|split].
  - intros input options uuid. apply upsert_invalid.
  - intros type Ht. unfold setProviderType, assert_ok.
    destruct (String.eqb_spec type NETWORK_TYPES.RPC) as [->|Hne];
      simpl negb; cbv iota; [by eexists|].
    destruct Ht as [Ht|Ht]; [done|]. rewrite Ht, bind_ret_l. by eexists.
  - intros i Hi Hp. unfold setActiveNetwork. rewrite bind_read_l, Hi, Hp.
    by eexists.
Qed.

End RegistryClaims.

Section RegistryWitnesses.

#[local] Existing Instance Sample.externals.

Lemma registry_wf_empty : registry_wf [].
Proof.
  split; [apply NoDup_nil_2|]. split.
  - intros k nc Hin. by apply elem_of_nil in Hin.
  - intros k1 nc1 k2 nc2 Hin. by apply elem_of_nil in Hin.
Qed.


Lemma upsert_idempotent_witness :
  let r1 :=
    upsertNetworkConfiguration Scenario.Foo Scenario.from_ui
      Scenario.uuid1 Scenario.fresh in
  let r2 :=
    upsertNetworkConfiguration Scenario.foo Scenario.from_ui
      Scenario.uuid2 (after r1) in
  registry_wf (networkConfigurationsStore Scenario.fresh)
  ∧ Scenario.uuid1 ≠ ""
  ∧ valid_upsert Scenario.Foo Scenario.from_ui = true
  ∧ valid_upsert Scenario.foo Scenario.from_ui = true
  ∧ toLowerCase (the (in_rpcUrl Scenario.Foo))
    = toLowerCase (the (in_rpcUrl Scenario.foo))
  ∧ ∃ i, completion r1 = Normal i ∧ completion r2 = Normal i
         ∧ length (networkConfigurationsStore (after r2))
           = length (networkConfigurationsStore (after r1)).
Proof.
  intros r1 r2.
  assert (H1 : registry_wf (networkConfigurationsStore Scenario.fresh))
    by exact registry_wf_empty.
  assert (H2 : Scenario.uuid1 ≠ "") by discriminate.
  assert (H3 : valid_upsert Scenario.Foo Scenario.from_ui = true)
    by (vm_compute; reflexivity).
  assert (H4 : valid_upsert Scenario.foo Scenario.from_ui = true)
    by (vm_compute; reflexivity).
  assert (H5 : toLowerCase (the (in_rpcUrl Scenario.Foo))
               = toLowerCase (the (in_rpcUrl Scenario.foo)))
    by (vm_compute; reflexivity).
  split; [exact H1|]. split; [exact H2|]. split; [exact H3|].
  split; [exact H4|]. split; [exact H5|].
  destruct (upsert_idempotent Scenario.Foo Scenario.foo Scenario.from_ui
              Scenario.from_ui Scenario.uuid1 Scenario.uuid2 Scenario.fresh
              H1 H2 H3 H4 H5) as (i & Hc1 & Hc2 & Hlen & _).
  exists i. split; [exact Hc1|]. split; [exact Hc2|exact Hlen].
Defined.

Lemma validation_failure_changes_nothing_witness :
  let bad :=
    {| in_rpcUrl := Some "https://x/"; in_chainId := "5";
       in_ticker := Some "T"; in_nickname := None; in_rpcPrefs := None |} in
  valid_upsert bad Scenario.from_ui = false
  ∧ (∃ e, upsertNetworkConfiguration bad Scenario.from_ui Scenario.uuid1
             Scenario.probing = (Throw e, Scenario.probing, []))
  ∧ (∃ e, setProviderType "rpc" Scenario.probing
          = (Throw e, Scenario.probing, []))
  ∧ (∃ e, setActiveNetwork Scenario.uuid2 Scenario.probing
          = (Throw e, Scenario.probing, [])).
Proof.
  intros bad.
  assert (H1 : valid_upsert bad Scenario.from_ui = false)
    by (vm_compute; reflexivity).
  assert (H2 : "rpc" = NETWORK_TYPES.RPC ∨ isInfuraProviderType "rpc" = false)
    by (left; reflexivity).
  assert (H3 : Js.assoc Scenario.uuid2
                 (networkConfigurationsStore Scenario.probing) = None)
    by (vm_compute; reflexivity).
  assert (H4 : Js.inherited Scenario.uuid2 = false)
    by (vm_compute; reflexivity).
  destruct (validation_failure_changes_nothing Scenario.probing)
    as (Hu & Hp & Ha).
  split; [exact H1|]. split; [exact (Hu bad _ _ H1)|].
  split; [exact (Hp _ H2)|exact (Ha _ H3 H4)].
Defined.

End RegistryWitnesses.

(** ** The registry's invariant along every run *)

Section RegistryInvariant.

Context `{ext : Externals}.

Lemma elem_of_obj_delete {A : Type} (k k' : string) (v' : A)
    (o : list (string * A)) :
  (k', v') ∈ Js.obj_delete k o → (k', v') ∈ o.
Proof.
  induction o as [|[k0 v0] o IH]; simpl; [done|].
  destruct (String.eqb k k0).
  - intros H. right. by apply IH.
  - intros [->|H]%elem_of_cons; [by left|]. right. by apply IH.
Qed.

Lemma NoDup_obj_delete {A : Type} (k : string) (o : list (string * A)) :
  NoDup o.*1 → NoDup (Js.obj_delete k o).*1.
Proof.
  induction o as [|[k0 v0] o IH]; csimpl; [done|].
  intros [Hk0 Hnd]%NoDup_cons. destruct (String.eqb k k0); [by apply IH|].
  csimpl. apply NoDup_cons. split; [|by apply IH].
  intros ([k1 v1] & -> & Hin)%list_elem_of_fmap. apply Hk0.
  apply list_elem_of_fmap. exists (k1, v1). split; [done|].
  by eapply elem_of_obj_delete.
Qed.

Lemma registry_wf_obj_delete (k : string) (reg : NetworkConfigurations) :
  registry_wf reg → registry_wf (Js.obj_delete k reg).
Proof.
  intros (Hnd & Hid & Huniq). split; [by apply NoDup_obj_delete|]. split.
  - intros k' nc Hin. eapply Hid, elem_of_obj_delete, Hin.
  - intros k1 nc1 k2 nc2 H1 H2.
    eapply Huniq; eapply elem_of_obj_delete; eassumption.
Qed.

Lemma registry_wf_method (op : Op) (c : NetworkController) :
  mints_ids op →
  registry_wf (networkConfigurationsStore c) →
  registry_wf (networkConfigurationsStore (after (method op c))).
Proof.
  intros Hmint Hwf.
  assert (Hkept : sat registry_untouched (method op) →
            registry_wf (networkConfigurationsStore (after (method op c)))).
  { intros Hs. destruct (Hs c) as [_ ->]. done. }
  destruct op as [ | | block | | pid o | i | t | | | input options uuid | i ];
    try solve
      [ apply Hkept;
        sat_with ltac:(first
          [ apply registry_untouched_publish
          | apply sat_emit; intros; done
          | unfold messenger_subscribe, messenger_unsubscribe;
            apply sat_modify; intros; done
          | intros ?; done ]) ].
  - simpl in Hmint. unfold method, forget.
    destruct (valid_upsert input options) eqn:Hv.
    + destruct (upsert_valid input options uuid c Hv) as (Hc & Hr & _).
      destruct (new_id_owns _ (the (in_rpcUrl input)) uuid Hwf Hmint)
        as (Hne & _ & Hown).
      unfold bind, after, completion in *.
      destruct (upsertNetworkConfiguration input options uuid c)
        as [[[a|e] c1] t1]; simpl in *; [|done].
      rewrite Hr. by apply registry_wf_obj_set.
    + destruct (upsert_invalid input options uuid c Hv) as [e He].
      unfold bind, after. by rewrite He.
  - unfold method, removeNetworkConfiguration,
      networkConfigurationsStore_putState, bind, read, modify, emit, after.
    simpl. by apply registry_wf_obj_delete.
Qed.

(** The invariant holds of the registry a new controller starts with and
    of the registry after every run of calls from there. *)
Lemma registry_wf_run (ops : list Op) (c : NetworkController) :
  Forall mints_ids ops →
  registry_wf (networkConfigurationsStore c) →
  registry_wf (networkConfigurationsStore (run ops c).1).
Proof.
  revert c. induction ops as [|op ops IH]; intros c Hm Hwf; simpl; [done|].
  apply Forall_cons in Hm as [Hop Hm].
  apply IH; [done|]. by apply registry_wf_method.
Qed.

End RegistryInvariant.

(** ** The scenarios of the spec, run *)

Section Scenarios.

#[local] Existing Instance Sample.externals.

Example toLowerCase_url : toLowerCase "https://Foo/" = "https://foo/".
Proof. reflexivity. Qed.

Example parseInt16_chain : Js.parseInt16 "0x539" = Some 1337.
Proof. reflexivity. Qed.

Example parseInt16_nan : Js.parseInt16 "zz" = None.
Proof. reflexivity. Qed.

Example includes_invalid_url :
  Js.includes "Invalid URL" "Failed to construct 'URL': Invalid URL" = true.
Proof. reflexivity. Qed.

Example JSON_parse_blocked :
  JSON_parse (Js.Str Scenario.blocked_text)
  = Some (Js.Obj [("error", Js.Str "countryBlocked")]).
Proof. vm_compute. reflexivity. Qed.

Example JSON_parse_not_json :
  JSON_parse (Js.Str "value is not a number") = None.
Proof. vm_compute. reflexivity. Qed.

(** Fresh initialisation on mainnet: the probe finds network 1 with a base
    fee and publishes [InfuraIsUnblocked]. *)
Example scenario_fresh_mainnet :
  let mainnet_up :=
    {| net_version := Fulfilled (Js.Str "1");
       latestBlock := Fulfilled (Js.Obj [("baseFeePerGas", Js.Str "0x1")]);
       blockSettlesFirst := true |} in
  let c1 := after (lookupNetwork_begin Scenario.on_mainnet) in
  let r := lookupNetwork_resume 0 mainnet_up c1 in
  published (trace r) = [InfuraIsUnblocked]
  ∧ networkIdStore (after r) = Some (Js.Str "1")
  ∧ networkStatusStore (after r) = Available
  ∧ eip (networkDetails (after r)) 1559 = Some true.
Proof. vm_compute. done. Qed.

(** Adding a custom network and switching to it. *)
Example scenario_switch_to_custom :
  let r :=
    upsertNetworkConfiguration
      {| in_rpcUrl := Some "https://x/"; in_chainId := "0x5";
         in_ticker := Some "T"; in_nickname := None; in_rpcPrefs := None |}
      Scenario.from_ui_active Scenario.uuid1 Scenario.on_mainnet in
  completion r = Normal Scenario.uuid1
  ∧ length (tracked (trace r)) = 1%nat
  ∧ type (providerStore (after r)) = "rpc"
  ∧ rpcUrl (providerStore (after r)) = Some "https://x/"
  ∧ published (trace r) = [NetworkWillChange; NetworkDidChange].
Proof. vm_compute. done. Qed.

(** A geo-blocked answer on a built-in network and on a custom one. *)
Example scenario_blocked :
  let on c := lookupNetwork_resume 0 Scenario.geo_blocked
                (after (lookupNetwork_begin c)) in
  networkStatusStore (after (on Scenario.on_mainnet)) = Blocked
  ∧ published (trace (on Scenario.on_mainnet)) = [InfuraIsBlocked]
  ∧ networkStatusStore (after (on Scenario.wired)) = Blocked
  ∧ published (trace (on Scenario.wired)) = [InfuraIsUnblocked].
Proof. vm_compute. done. Qed.

(** [assertNetworkId] tests the string its argument converts to. *)
Example ToString_number : Js.ToString (Js.Num 1337) = Some "1337".
Proof. vm_compute. reflexivity. Qed.

Example ToString_array :
  Js.ToString (Js.Arr [Js.Arr [Js.Num 5]]) = Some "5"
  ∧ Js.ToString (Js.Arr [Js.Num 1; Js.Null; Js.Str "x"]) = Some "1,,x".
Proof. vm_compute. done. Qed.

Example ToString_exponential :
  Js.ToString (Js.Num (10 ^ 21)) = Some "1e+21"
  ∧ Js.ToString (Js.Num (-12 * 10 ^ 21)) = Some "-1.2e+22"
  ∧ Js.ToString (Js.Num (10 ^ 21 - 1)) = Some "999999999999999999999".
Proof. vm_compute. done. Qed.

Example ToString_object :
  Js.ToString (Js.Obj [("a", Js.Num 1)]) = Some "[object Object]"
  ∧ Js.ToString (Js.Obj [("toString", Js.Str "1")]) = None.
Proof. vm_compute. done. Qed.

(** A network id that arrives as a number passes the assertion and is
    stored as it came. *)
Example scenario_numeric_network_id :
  let o :=
    {| net_version := Fulfilled (Js.Num 1337);
       latestBlock := Fulfilled Js.Null;
       blockSettlesFirst := false |} in
  let r := lookupNetwork_resume 0 o Scenario.probing in
  networkStatusStore (after r) = Available
  ∧ networkIdStore (after r) = Some (Js.Num 1337).
Proof. vm_compute. done. Qed.

(** A result that cannot be converted to a string makes the assertion
    throw a [TypeError], which has no code. *)
Example scenario_unconvertible_network_id :
  let o :=
    {| net_version := Fulfilled (Js.Obj [("toString", Js.Null)]);
       latestBlock := Fulfilled Js.Null;
       blockSettlesFirst := false |} in
  let r := lookupNetwork_resume 0 o Scenario.probing in
  networkStatusStore (after r) = Unknown
  ∧ networkIdStore (after r) = None.
Proof. vm_compute. done. Qed.

(** A network id that is not decimal makes the network unavailable. *)
Example scenario_bad_network_id :
  let o :=
    {| net_version := Fulfilled (Js.Str "0x1");
       latestBlock := Fulfilled Js.Null;
       blockSettlesFirst := false |} in
  networkStatusStore
    (after (lookupNetwork_resume 0 o Scenario.probing)) = Unavailable.
Proof. vm_compute. reflexivity. Qed.

(** From mainnet to a custom network and back.  The rollback does not
    record the configuration it leaves: afterwards both stores hold the
    mainnet configuration. *)
Example scenario_rollback :
  let c1 :=
    after (upsertNetworkConfiguration Scenario.Foo Scenario.from_ui
             Scenario.uuid1 Scenario.on_mainnet) in
  let c2 := after (setActiveNetwork Scenario.uuid1 c1) in
  let c3 := after (rollbackToPreviousProvider c2) in
  type (providerStore c2) = "rpc"
  ∧ type (providerStore c3) = "mainnet"
  ∧ previousProviderStore c3 = providerStore c3.
Proof. vm_compute. done. Qed.

(** After [_setProviderConfig] the previous provider is the one switched
    away from; a bare [_switchNetwork] records nothing to roll back to. *)
Example scenario_bare_switch :
  let c1 := after (setProviderType "goerli" Scenario.wired) in
  let c2 := after (_switchNetwork (providerStore Scenario.on_mainnet) c1) in
  type (providerStore c1) = "goerli"
  ∧ type (providerStore (after (rollbackToPreviousProvider c2))) = "rpc".
Proof. vm_compute. done. Qed.

End Scenarios.

(** * More of the controller *)

(** ** A switch that goes through *)

Section SwitchOutcome.

Context `{ext : Externals}.

Lemma bind_eq {A B : Type} (m : M A) (k : A → M B)
    (c c1 : NetworkController) (a : A) (t1 : list Effect) :
  m c = (Normal a, c1, t1) →
  bind m k c = (let '(r, c2, t2) := k a c1 in (r, c2, t1 ++ t2)).
Proof. intros H. unfold bind. by rewrite H. Qed.

Lemma filter_not_in_self (l : list nat) : filter (λ q, q ∉ l) l = [].
Proof.
  assert (H : ∀ l', (∀ x, x ∈ l' → x ∈ l) → filter (λ q, q ∉ l) l' = []).
  { induction l' as [|x l' IH]; intros Hsub; [done|].
    rewrite filter_cons_False.
    - apply IH. intros y Hy. apply Hsub. by right.
    - intros Hx. apply Hx, Hsub. by left. }
  by apply H.
Qed.

Lemma _configureProvider_eq (pc : ProviderConfiguration) (c : NetworkController) :
  configurable pc = true →
  _configureProvider pc c
  = (Normal tt,
     set_blockTracker (Some (with_client pc c))
       (set_provider (Some (with_client pc c))
          (set_blockTrackerProxy (Some {| target := with_client pc c |})
             (set_providerProxy (Some {| target := with_client pc c |})
                (set_clients (S (clients c)) c)))),
     [configure_log pc;
      CreateNetworkClient (client_of pc (_infuraProjectId c))]).
Proof.
  unfold configurable, _configureProvider, with_client, client_of, configure_log.
  destruct (isInfuraProviderType (type pc)); simpl.
  - intros _. unfold _configureInfuraProvider, createNetworkClient,
      _setProviderAndBlockTracker, bind, read, modify, emit, ret, install.
    simpl. by destruct (_providerProxy c), (_blockTrackerProxy c).
  - intros ->. unfold _configureStandardProvider, createNetworkClient,
      _setProviderAndBlockTracker, bind, read, modify, emit, ret, install.
    simpl. by destruct (_providerProxy c), (_blockTrackerProxy c).
Qed.

Lemma lookupNetwork_begin_eq (c : NetworkController) (p : SwappableProxy) :
  _providerProxy c = Some p →
  lookupNetwork_begin c
  = if Js.truthy (chainId (providerStore c)) then
      (Normal (Some (activations c)),
       set_didChangeListeners (didChangeListeners c ++ [activations c])
         (set_activations (S (activations c))
            (set_lookups
               (<[ activations c :=
                     {| isInfura :=
                          isInfuraProviderType (type (providerStore c));
                        networkChanged := false |} ]> (lookups c))
               c)),
       [SendAsync "net_version"; SendAsync "eth_getBlockByNumber"])
    else
      (Normal None,
       set_networkDetails buildDefaultNetworkDetailsState
         (set_networkStatusStore buildDefaultNetworkStatusState
            (set_networkIdStore buildDefaultNetworkIdState c)),
       [LogWarn
          "NetworkController - lookupNetwork aborted due to missing chainId";
        PutNetworkId buildDefaultNetworkIdState;
        PutNetworkStatus buildDefaultNetworkStatusState;
        PutNetworkDetails buildDefaultNetworkDetailsState]).
Proof.
  intros Hp. unfold lookupNetwork_begin, bind, read. simpl. rewrite Hp.
  by destruct (Js.truthy (chainId (providerStore c))).
Qed.

Lemma _switchNetwork_eq (pc : ProviderConfiguration) (c : NetworkController) :
  _switchNetwork pc c
  = (let '(r, c', t) := switch_rest pc (cleared c) in
     (r, c',
      [Publish NetworkWillChange;
       PutNetworkId buildDefaultNetworkIdState;
       PutNetworkStatus buildDefaultNetworkStatusState;
       PutNetworkDetails buildDefaultNetworkDetailsState] ++ t)).
Proof.
  unfold _switchNetwork, switch_rest, cleared.
  rewrite (bind_eq _ _ c c tt [Publish NetworkWillChange]) by reflexivity.
  rewrite (bind_eq _ _ c _ tt [PutNetworkId buildDefaultNetworkIdState])
    by reflexivity.
  rewrite (bind_eq _ _ _ _ tt [PutNetworkStatus buildDefaultNetworkStatusState])
    by reflexivity.
  rewrite (bind_eq _ _ _ _ tt [PutNetworkDetails buildDefaultNetworkDetailsState])
    by reflexivity.
  by destruct (bind (_configureProvider pc) _ _) as [[[?|?] ?] ?].
Qed.

Lemma publish_did_change (c : NetworkController) :
  messenger_publish NetworkDidChange c
  = (Normal tt, fired c, [Publish NetworkDidChange]).
Proof. reflexivity. Qed.

Lemma fired_listeners (c : NetworkController) : didChangeListeners (fired c) = [].
Proof.
  unfold fired.
  destruct (listeners_fire (didChangeListeners c) c) as (_ & -> & _).
  apply filter_not_in_self.
Qed.

Lemma fired_flag (c : NetworkController) (pid : nat) (b : bool) :
  suspended pid b c → flag pid (fired c) = Some true.
Proof.
  intros (fr & Hfr & _ & _ & Hsub). unfold flag, fired.
  destruct (listeners_fire (didChangeListeners c) c) as (_ & _ & ->).
  rewrite Hfr. simpl. destruct (decide (pid ∈ didChangeListeners c)) as [|Hn];
    [done|].
  destruct (networkChanged fr) eqn:E; [done|]. by destruct Hn; apply Hsub.
Qed.

Lemma _switchNetwork_goes_through
    (pc : ProviderConfiguration) (c : NetworkController) :
  configurable pc = true →
  let r := _switchNetwork pc c in
  completion r = Normal tt
  ∧ trace r
    = [Publish NetworkWillChange;
       PutNetworkId buildDefaultNetworkIdState;
       PutNetworkStatus buildDefaultNetworkStatusState;
       PutNetworkDetails buildDefaultNetworkDetailsState;
       configure_log pc;
       CreateNetworkClient (client_of pc (_infuraProjectId c));
       Publish NetworkDidChange]
      ++ (if Js.truthy (chainId (providerStore c)) then
            [SendAsync "net_version"; SendAsync "eth_getBlockByNumber"]
          else
            [LogWarn
               "NetworkController - lookupNetwork aborted due to missing chainId";
             PutNetworkId buildDefaultNetworkIdState;
             PutNetworkStatus buildDefaultNetworkStatusState;
             PutNetworkDetails buildDefaultNetworkDetailsState])
  ∧ getProviderAndBlockTracker (after r)
    = (Some {| target := with_client pc c |},
       Some {| target := with_client pc c |})
  ∧ _provider (after r) = Some (with_client pc c)
  ∧ _blockTracker (after r) = Some (with_client pc c)
  ∧ clients (after r) = S (clients c)
  ∧ didChangeListeners (after r)
    = (if Js.truthy (chainId (providerStore c)) then [activations c] else [])
  ∧ (∀ pid b, suspended pid b c → flag pid (after r) = Some true).
Proof.
  intros Hpc. cbv zeta. rewrite _switchNetwork_eq. unfold switch_rest.
  rewrite (bind_eq _ _ _ _ _ _ (_configureProvider_eq pc (cleared c) Hpc)).
  set (c1 := set_blockTracker _ _).
  rewrite (bind_eq _ _ _ _ _ _ (publish_did_change c1)).
  destruct (listeners_fire_outside (didChangeListeners c1) c1)
    as (Hst & Hin & _ & Hcl).
  destruct (listeners_fire (didChangeListeners c1) c1) as (Hact & _ & _).
  fold (fired c1) in Hst, Hin, Hcl, Hact.
  assert (Hp : _providerProxy (fired c1) = Some {| target := with_client pc c |}).
  { unfold installed in Hin. by injection Hin as _ _ -> _. }
  assert (Hps : providerStore (fired c1) = providerStore c).
  { unfold stores in Hst. by injection Hst as -> _ _ _ _ _. }
  pose proof (lookupNetwork_begin_eq (fired c1) _ Hp) as Hb.
  rewrite Hps in Hb.
  unfold installed in Hin. injection Hin as Hi1 Hi2 Hi3 Hi4.
  unfold completion, trace, after, getProviderAndBlockTracker.
  destruct (Js.truthy (chainId (providerStore c)));
    rewrite (bind_eq _ _ _ _ _ _ Hb); simpl;
    rewrite ?Hi1, ?Hi2, ?Hi3, ?Hi4, ?Hcl, ?Hact, ?fired_listeners;
    repeat split; try done.
  - intros pid b Hs. unfold flag. simpl.
    assert (Hs1 : suspended pid b c1) by exact Hs.
    destruct Hs as (_ & _ & _ & Hlt & _).
    assert (Ha : activations c1 = activations c) by reflexivity.
    rewrite lookup_insert_ne by lia.
    by apply (fired_flag c1 pid b).
  - intros pid b Hs. by apply (fired_flag c1 pid b).
Qed.

#[global] Instance keeps_defaults_stepwise : Stepwise keeps_defaults.
Proof.
  split; [by intros c H|]. intros c t1 c1 t2 c2 H1 H2 H. by apply H2, H1.
Qed.

Lemma keeps_defaults_publish (e : NetworkControllerEventType) :
  sat keeps_defaults (messenger_publish e).
Proof.
  intros c. unfold keeps_defaults. destruct e; try (intros H; exact H).
  unfold after. simpl. intros <-.
  destruct (listeners_fire_outside (didChangeListeners c) c) as (H & _).
  unfold stores, derived in *. by injection H as _ _ -> -> -> _.
Qed.

Ltac keeps_defaults_leaf :=
  first
    [ apply keeps_defaults_publish
    | apply sat_emit; intros ? ?; done
    | unfold messenger_subscribe, messenger_unsubscribe;
      apply sat_modify;
      let H := fresh in
      intros ? H; unfold derived, derived_defaults in *; simpl in *;
      injection H as ? ? ?; congruence
    | intros ? ?; done ].

Lemma _switchNetwork_derived
    (pc : ProviderConfiguration) (c : NetworkController) :
  derived (after (_switchNetwork pc c)) = derived_defaults.
Proof.
  rewrite _switchNetwork_eq.
  assert (Hs : sat keeps_defaults (switch_rest pc))
    by (unfold switch_rest; sat_with keeps_defaults_leaf).
  specialize (Hs (cleared c) eq_refl). unfold after in *.
  by destruct (switch_rest pc (cleared c)) as [[? ?] ?].
Qed.

(** X1.  A switch to a configuration from which a client can be built
    goes through in this order: [NetworkWillChange], the three resets, the
    construction of the client, [NetworkDidChange], and then the probe of
    the new network, which sends its two requests if the stored provider
    configuration has a chain id and resets the derived state again if it
    has none.  Afterwards both proxies target the new client, the only
    listener subscribed is that of the new probe, and every probe that
    was suspended before the switch is stale. *)
Theorem _switchNetwork_runs_in_order
    (pc : ProviderConfiguration) (c : NetworkController) :
  configurable pc = true →
  let r := _switchNetwork pc c in
  completion r = Normal tt
  ∧ trace r
    = [Publish NetworkWillChange;
       PutNetworkId buildDefaultNetworkIdState;
       PutNetworkStatus buildDefaultNetworkStatusState;
       PutNetworkDetails buildDefaultNetworkDetailsState;
       configure_log pc;
       CreateNetworkClient (client_of pc (_infuraProjectId c));
       Publish NetworkDidChange]
      ++ (if Js.truthy (chainId (providerStore c)) then
            [SendAsync "net_version"; SendAsync "eth_getBlockByNumber"]
          else
            [LogWarn
               "NetworkController - lookupNetwork aborted due to missing chainId";
             PutNetworkId buildDefaultNetworkIdState;
             PutNetworkStatus buildDefaultNetworkStatusState;
             PutNetworkDetails buildDefaultNetworkDetailsState])
  ∧ getProviderAndBlockTracker (after r)
    = (Some {| target := with_client pc c |},
       Some {| target := with_client pc c |})
  ∧ _provider (after r) = Some (with_client pc c)
  ∧ _blockTracker (after r) = Some (with_client pc c)
  ∧ clients (after r) = S (clients c)
  ∧ didChangeListeners (after r)
    = (if Js.truthy (chainId (providerStore c)) then [activations c] else [])
  ∧ (∀ pid b, suspended pid b c → flag pid (after r) = Some true).
Proof. apply _switchNetwork_goes_through. Qed.

(** X2.  Every call of [_switchNetwork], whether it goes through or
    throws, leaves the network id null, the status unknown and the network
    details at their default. *)
Theorem _switchNetwork_clears_derived
    (pc : ProviderConfiguration) (c : NetworkController) :
  derived (after (_switchNetwork pc c)) = derived_defaults.
Proof. apply _switchNetwork_derived. Qed.

Lemma _configureProvider_refuses (pc : ProviderConfiguration) (c : NetworkController) :
  configurable pc = false →
  _configureProvider pc c
  = (Throw (Error (unknown_type_message (type pc))), c, []).
Proof.
  unfold configurable, _configureProvider.
  destruct (isInfuraProviderType (type pc)); [done|]. simpl. by intros ->.
Qed.

Lemma _switchNetwork_completion (pc : ProviderConfiguration) (c : NetworkController) :
  completion (_switchNetwork pc c)
  = if configurable pc then Normal tt
    else Throw (Error (unknown_type_message (type pc))).
Proof.
  destruct (configurable pc) eqn:Hpc.
  - by destruct (_switchNetwork_goes_through pc c Hpc) as (-> & _).
  - rewrite _switchNetwork_eq. unfold switch_rest.
    unfold bind at 1. by rewrite (_configureProvider_refuses pc _ Hpc).
Qed.

Lemma _setProviderConfig_eq (pc : ProviderConfiguration) (c : NetworkController) :
  _setProviderConfig pc c
  = (let '(r, c', t) :=
       _switchNetwork pc
         (set_providerStore pc
            (set_previousProviderStore (providerStore c) c)) in
     (r, c', [PutPreviousProvider (providerStore c); PutProvider pc] ++ t)).
Proof.
  unfold _setProviderConfig.
  rewrite bind_read_l.
  rewrite (bind_eq _ _ c _ tt [PutPreviousProvider (providerStore c)])
    by reflexivity.
  rewrite (bind_eq _ _ _ _ tt [PutProvider pc]) by reflexivity.
  by destruct (_switchNetwork pc _) as [[[?|?] ?] ?].
Qed.

Lemma _setProviderConfig_outcome (pc : ProviderConfiguration) (c : NetworkController) :
  let r := _setProviderConfig pc c in
  providerStore (after r) = pc
  ∧ previousProviderStore (after r) = providerStore c
  ∧ derived (after r) = derived_defaults
  ∧ completion r
    = (if configurable pc then Normal tt
       else Throw (Error (unknown_type_message (type pc)))).
Proof.
  cbv zeta. rewrite _setProviderConfig_eq.
  set (c0 := set_providerStore pc _).
  pose proof (_switchNetwork_same_providers pc c0) as [H1 H2].
  pose proof (_switchNetwork_derived pc c0) as H3.
  pose proof (_switchNetwork_completion pc c0) as H4.
  unfold after, completion, trace in *.
  by destruct (_switchNetwork pc c0) as [[? ?] ?].
Qed.

(** X3.  [_setProviderConfig] always stores the new configuration and
    records the one it replaces as the previous provider, and always
    clears the derived state; it returns when a client can be built from
    the configuration and throws [unknown type] otherwise, with the two
    stores already written. *)
Theorem _setProviderConfig_commits
    (pc : ProviderConfiguration) (c : NetworkController) :
  let r := _setProviderConfig pc c in
  providerStore (after r) = pc
  ∧ previousProviderStore (after r) = providerStore c
  ∧ derived (after r) = derived_defaults
  ∧ completion r
    = (if configurable pc then Normal tt
       else Throw (Error (unknown_type_message (type pc)))).
Proof. apply _setProviderConfig_outcome. Qed.

(** X4.  [resetConnection] keeps the provider configuration and makes the
    previous provider equal to it: what could be rolled back to before is
    forgotten. *)
Theorem resetConnection_forgets_previous (c : NetworkController) :
  let c' := after (resetConnection c) in
  providerStore c' = providerStore c
  ∧ previousProviderStore c' = providerStore c.
Proof.
  cbv zeta. unfold resetConnection.
  assert (H : after (bind (read providerStore) (λ pc, _setProviderConfig pc) c)
              = after (_setProviderConfig (providerStore c) c))
    by (by rewrite bind_read_l).
  rewrite H.
  by destruct (_setProviderConfig_outcome (providerStore c) c) as (-> & -> & _).
Qed.

(** X5.  [rollbackToPreviousProvider] makes the provider configuration
    equal to the previous one and leaves the previous one as it is, so a
    second rollback changes neither store: rollbacks do not alternate
    between two networks. *)
Theorem rollback_does_not_alternate (c : NetworkController) :
  let c1 := after (rollbackToPreviousProvider c) in
  let c2 := after (rollbackToPreviousProvider c1) in
  providerStore c1 = previousProviderStore c
  ∧ previousProviderStore c1 = previousProviderStore c
  ∧ providerStore c2 = providerStore c1
  ∧ previousProviderStore c2 = previousProviderStore c1.
Proof.
  assert (H : ∀ c0,
    providerStore (after (rollbackToPreviousProvider c0))
      = previousProviderStore c0
    ∧ previousProviderStore (after (rollbackToPreviousProvider c0))
      = previousProviderStore c0).
  { intros c0. rewrite rollbackToPreviousProvider_after.
    by destruct (_switchNetwork_same_providers (previousProviderStore c0)
                   (set_providerStore (previousProviderStore c0) c0))
      as [-> ->]. }
  cbv zeta. destruct (H c) as [H1 H2].
  destruct (H (after (rollbackToPreviousProvider c))) as [H3 H4].
  rewrite H3, H4, H1, H2. done.
Qed.

End SwitchOutcome.

(** ** The public switches *)

Section PublicSwitches.

Context `{ext : Externals}.

Lemma published_app (t1 t2 : list Effect) :
  published (t1 ++ t2) = published t1 ++ published t2.
Proof. apply omap_app. Qed.

Lemma _setProviderConfig_goes_through
    (pc : ProviderConfiguration) (c : NetworkController) :
  configurable pc = true →
  let r := _setProviderConfig pc c in
  completion r = Normal tt
  ∧ published (trace r) = [NetworkWillChange; NetworkDidChange]
  ∧ tracked (trace r) = []
  ∧ _provider (after r) = Some (with_client pc c)
  ∧ getProviderAndBlockTracker (after r)
    = (Some {| target := with_client pc c |},
       Some {| target := with_client pc c |})
  ∧ networkConfigurationsStore (after r) = networkConfigurationsStore c.
Proof.
  intros Hpc. cbv zeta.
  assert (Hreg : networkConfigurationsStore (after (_setProviderConfig pc c))
                 = networkConfigurationsStore c).
  { assert (Hs : sat registry_untouched (_setProviderConfig pc)).
    { sat_with ltac:(first
        [ apply registry_untouched_publish
        | apply sat_emit; intros; done
        | unfold messenger_subscribe, messenger_unsubscribe;
          apply sat_modify; intros; done
        | intros ?; done ]). }
    by destruct (Hs c) as [_ ->]. }
  rewrite _setProviderConfig_after in Hreg.
  rewrite _setProviderConfig_eq.
  set (c0 := set_providerStore pc _) in *.
  destruct (_switchNetwork_goes_through pc c0 Hpc)
    as (Hc & Ht & Hg & Hp & _).
  unfold completion, trace, after in *.
  destruct (_switchNetwork pc c0) as [[r c'] t]. simpl in *. subst r t.
  repeat split; try done; unfold configure_log;
    by destruct (Js.truthy (chainId pc)), (isInfuraProviderType (type pc)).
Qed.

(** X6.  [setProviderType] with a built-in name (which is never ["rpc"],
    so the first assertion cannot fail once the second holds) switches to
    that network: the stored configuration takes the chain id and block
    explorer of the built-in network, its ticker or ["ETH"] when it has
    none, an empty [rpcUrl] and nickname; the configuration left behind
    becomes the previous provider; and the client that is built is the
    first-party one for that name and the controller's API key. *)
Theorem setProviderType_switches
    (type : string) (network : BuiltInInfuraNetwork) (c : NetworkController) :
  isInfuraProviderType type = true →
  BUILT_IN_INFURA_NETWORKS type = Some network →
  let r := setProviderType type c in
  completion r = Normal tt
  ∧ providerStore (after r)
    = {| type := type;
         chainId := Some (bi_chainId network);
         rpcUrl := Some "";
         ticker := Some (default "ETH" (bi_ticker network));
         nickname := Some "";
         rpcPrefs := Some {| blockExplorerUrl := bi_blockExplorerUrl network |};
         config_id := None |}
  ∧ previousProviderStore (after r) = providerStore c
  ∧ published (trace r) = [NetworkWillChange; NetworkDidChange]
  ∧ _provider (after r)
    = Some {| client_serial := clients c;
              client_configuration := InfuraClient type (_infuraProjectId c) |}.
Proof.
  intros Hi Hn. cbv zeta.
  assert (Hrpc : String.eqb type NETWORK_TYPES.RPC = false).
  { apply String.eqb_neq. intros ->.
    apply bool_decide_eq_true in Hi. by apply rpc_not_builtin. }
  unfold setProviderType, assert_ok. rewrite Hrpc, Hi, Hn. simpl negb. cbv iota.
  rewrite !bind_ret_l.
  set (pc := mkProviderConfiguration _ _ _ _ _ _ _).
  assert (Hpc : configurable pc = true) by (unfold configurable; simpl; by rewrite Hi).
  destruct (_setProviderConfig_goes_through pc c Hpc) as (H1 & H2 & _ & H3 & _).
  destruct (_setProviderConfig_outcome pc c) as (H4 & H5 & _).
  repeat split; try done.
  rewrite H3. unfold with_client, client_of. simpl. by rewrite Hi.
Qed.



End PublicSwitches.

(** ** Ids that name a property of [Object.prototype] *)

Section PrototypeIds.

Context `{ext : Externals}.

(** The guard of [setActiveNetwork] lets through an id that is not in the
    registry and names a property of [Object.prototype]: the call stores a
    configuration with a type and nothing else, starts a switch and throws
    from [_configureProvider]. *)
Lemma setActiveNetwork_inherited (i : string) (c : NetworkController) :
  Js.assoc i (networkConfigurationsStore c) = None →
  Js.inherited i = true →
  let r := setActiveNetwork i c in
  completion r = Throw (Error (unknown_type_message NETWORK_TYPES.RPC))
  ∧ providerStore (after r) = rpc_configuration_bare
  ∧ previousProviderStore (after r) = providerStore c
  ∧ derived (after r) = derived_defaults
  ∧ published (trace r) = [NetworkWillChange].
Proof.
  intros Hi Hp. cbv zeta. unfold setActiveNetwork.
  rewrite bind_read_l, Hi, Hp.
  assert (Hni : isInfuraProviderType NETWORK_TYPES.RPC = false)
    by apply bool_decide_eq_false_2, rpc_not_builtin.
  assert (Hcfg : configurable rpc_configuration_bare = false)
    by (unfold configurable; simpl; by rewrite Hni).
  destruct (_setProviderConfig_outcome rpc_configuration_bare c)
    as (H1 & H2 & H3 & H4).
  rewrite Hcfg in H4.
  assert (H5 : published (trace (_setProviderConfig rpc_configuration_bare c))
               = [NetworkWillChange]).
  { rewrite _setProviderConfig_eq, _switchNetwork_eq. unfold switch_rest.
    unfold bind at 1. by rewrite (_configureProvider_refuses _ _ Hcfg). }
  unfold bind, completion, after, trace in *.
  destruct (_setProviderConfig rpc_configuration_bare c) as [[r c'] t].
  simpl in *. by subst r.
Qed.

End PrototypeIds.

Section PrototypeIdsRun.

#[local] Existing Instance Sample.externals.

(** C9.  The claim fails on [setActiveNetwork]: the id ["constructor"] is
    not the id of any network configuration, yet the call does not throw
    at its guard.  On a controller whose provider is installed it
    overwrites both provider stores, publishes [NetworkWillChange], resets
    the derived state, and only then throws. *)
Theorem setActiveNetwork_constructor_writes_stores :
  let c := Scenario.probing in
  let r := setActiveNetwork "constructor" c in
  Js.assoc "constructor" (networkConfigurationsStore c) = None
  ∧ completion r = Throw (Error (unknown_type_message NETWORK_TYPES.RPC))
  ∧ providerStore (after r) = rpc_configuration_bare
  ∧ providerStore (after r) ≠ providerStore c
  ∧ previousProviderStore (after r) = providerStore c
  ∧ published (trace r) = [NetworkWillChange]
  ∧ after r ≠ c.
Proof.
  intros c r.
  assert (Hi : Js.assoc "constructor" (networkConfigurationsStore c) = None)
    by (vm_compute; reflexivity).
  assert (Hp : Js.inherited "constructor" = true) by (vm_compute; reflexivity).
  destruct (setActiveNetwork_inherited "constructor" c Hi Hp)
    as (H1 & H2 & H3 & _ & H5).
  fold r in H1, H2, H3, H5.
  assert (Hne : rpc_configuration_bare ≠ providerStore c) by discriminate.
  split; [exact Hi|]. split; [exact H1|]. split; [exact H2|].
  split; [by rewrite H2|]. split; [exact H3|]. split; [exact H5|].
  intros Heq. apply Hne. by rewrite <- H2, Heq.
Qed.

End PrototypeIdsRun.

(** ** What a probe leaves behind *)

Section ProbeResults.

Context `{ext : Externals}.

Lemma verdict_available
    (o : ProbeOutcome) (n block : Js.value) (s : string) :
  net_version o = Fulfilled n → latestBlock o = Fulfilled block →
  Js.ToString n = Some s → Js.test_decimal s = true →
  verdict o = (Some n, supportsEIP1559_of block, Available).
Proof.
  intros Hn Hb Hs Hd.
  assert (Hp : assertNetworkId n = None)
    by (apply assertNetworkId_passes; eauto).
  unfold verdict, Promise_all. by rewrite Hn, Hb, Hp.
Qed.

Lemma verdict_unavailable (o : ProbeOutcome) :
  (verdict o).2 ≠ Available → (verdict o).1 = (None, false).
Proof.
  unfold verdict. destruct (Promise_all o) as [[n s]|e]; [|done].
  by destruct (assertNetworkId n).
Qed.

Lemma lookupNetwork_resume_live_eq
    (c : NetworkController) (pid : nat) (fr : LookupFrame) (o : ProbeOutcome) :
  lookups c !! pid = Some fr → networkChanged fr = false →
  ∃ t,
    lookupNetwork_resume pid o c
    = (Normal tt,
       (let c1 :=
          set_networkStatusStore (verdict o).2
            (set_didChangeListeners
               (filter (λ q, q ≠ pid) (didChangeListeners c))
               (set_lookups (delete pid (lookups c)) c)) in
        if decide ((verdict o).2 = Available) then
          set_networkDetails
            {| EIPS := <[ 1559 := Some (verdict o).1.2 ]> (EIPS (networkDetails c));
               otherProperties := otherProperties (networkDetails c) |}
            (set_networkIdStore (verdict o).1.1 c1)
        else
          set_networkDetails buildDefaultNetworkDetailsState
            (set_networkIdStore buildDefaultNetworkIdState c1)),
       t).
Proof.
  intros Hfr Hch.
  remember (lookupNetwork_resume pid o c) as r eqn:Hr.
  unfold lookupNetwork_resume, bind at 1, read in Hr. simpl in Hr.
  rewrite Hfr in Hr. unfold bind at 1 in Hr.
  rewrite lookupNetwork_try_eq in Hr.
  destruct (verdict o) as [[nid sup] st]. rewrite Hch in Hr. subst r.
  destruct st, (isInfura fr); simpl; by eexists.
Qed.

(** X8.  The continuation of a probe that no network change has
    invalidated: when both requests succeeded and the result of
    [net_version] converts to a non-empty string of decimal digits (a
    decimal string is one such result) it stores that result as the
    network id, sets [EIPS[1559]] to whether the block has a base fee and
    keeps the other slots and properties of the network details; when
    the status it found is not [Available] it stores a null network id and
    the default network details.  Either way it leaves the provider stores
    and the registry alone, and its listener is no longer subscribed. *)
Theorem lookupNetwork_settles
    (c : NetworkController) (pid : nat) (fr : LookupFrame) (o : ProbeOutcome) :
  lookups c !! pid = Some fr → networkChanged fr = false →
  let r := lookupNetwork_resume pid o c in
  (∀ n block s,
     net_version o = Fulfilled n → latestBlock o = Fulfilled block →
     Js.ToString n = Some s → Js.test_decimal s = true →
     networkStatusStore (after r) = Available
     ∧ networkIdStore (after r) = Some n
     ∧ eip (networkDetails (after r)) 1559 = Some (supportsEIP1559_of block)
     ∧ (∀ k, k ≠ 1559 →
          EIPS (networkDetails (after r)) !! k = EIPS (networkDetails c) !! k)
     ∧ otherProperties (networkDetails (after r))
       = otherProperties (networkDetails c))
  ∧ (networkStatusStore (after r) ≠ Available →
       networkIdStore (after r) = None
       ∧ networkDetails (after r) = buildDefaultNetworkDetailsState)
  ∧ providerStore (after r) = providerStore c
  ∧ previousProviderStore (after r) = previousProviderStore c
  ∧ networkConfigurationsStore (after r) = networkConfigurationsStore c
  ∧ flag pid (after r) = None
  ∧ pid ∉ didChangeListeners (after r).
Proof.
  intros Hfr Hch. cbv zeta.
  destruct (lookupNetwork_resume_live_eq c pid fr o Hfr Hch) as [t ->].
  unfold after. simpl. split; [|split].
  - intros n block s Hn Hb Hs Hd.
    rewrite (verdict_available o n block s Hn Hb Hs Hd).
    simpl. unfold eip. simpl. rewrite lookup_insert_eq.
    repeat split; try done. intros k Hk. by rewrite lookup_insert_ne.
  - destruct (decide ((verdict o).2 = Available)) as [He|He]; simpl; [done|].
    done.
  - assert (Hf : ∀ l : list nat, pid ∉ filter (λ q, q ≠ pid) l).
    { intros l [? ?]%list_elem_of_filter. done. }
    destruct (decide ((verdict o).2 = Available)); unfold flag; simpl;
      rewrite lookup_delete_eq; repeat split; try done; apply Hf.
Qed.

(** X9.  Once [getEIP1559Compatibility] has received the latest block,
    the next call answers from the store: it returns the same boolean,
    sends nothing and changes nothing.  A call of [_switchNetwork]
    forgets the answer. *)
Theorem getEIP1559Compatibility_remembers
    (c : NetworkController) (block : Js.value) :
  let r := getEIP1559Compatibility_resume (Fulfilled block) c in
  getEIP1559Compatibility_begin (after r)
  = (Normal (Some (supportsEIP1559_of block)), after r, [])
  ∧ ∀ pc, eip (networkDetails (after (_switchNetwork pc (after r)))) 1559 = None.
Proof.
  cbv zeta. split.
  - unfold getEIP1559Compatibility_begin, getEIP1559Compatibility_resume,
      networkDetails_updateState_1559, networkDetails_putState,
      bind, read, modify, emit, ret, after, eip. simpl.
    by rewrite lookup_insert_eq.
  - intros pc. pose proof (_switchNetwork_derived pc
      (after (getEIP1559Compatibility_resume (Fulfilled block) c))) as H.
    unfold derived, derived_defaults in H. injection H as _ _ H.
    transitivity (eip buildDefaultNetworkDetailsState 1559);
      [f_equal; exact H | reflexivity].
Qed.

(** X10.  [initializeProvider] on a provider configuration from which no
    client can be built throws and leaves the controller as it is.
    Otherwise it builds and installs the client and starts a probe, and it
    publishes no event and does not invalidate the probes that are
    already in flight; with a chain id in the configuration the derived
    state is left as it is too. *)
Theorem initializeProvider_installs (c : NetworkController) :
  (configurable (providerStore c) = false →
     initializeProvider_begin c
     = (Throw (Error (unknown_type_message (type (providerStore c)))), c, []))
  ∧ (configurable (providerStore c) = true →
     let r := initializeProvider_begin c in
     published (trace r) = []
     ∧ providerStore (after r) = providerStore c
     ∧ previousProviderStore (after r) = previousProviderStore c
     ∧ getProviderAndBlockTracker (after r)
       = (Some {| target := with_client (providerStore c) c |},
          Some {| target := with_client (providerStore c) c |})
     ∧ (∀ q, q ≠ activations c → flag q (after r) = flag q c)
     ∧ (Js.truthy (chainId (providerStore c)) = true →
          completion r = Normal (Some (activations c))
          ∧ derived (after r) = derived c
          ∧ requests (trace r) = ["net_version"; "eth_getBlockByNumber"])).
Proof.
  set (pc := providerStore c).
  set (pc' := {| type := type pc; chainId := chainId pc; rpcUrl := rpcUrl pc;
                 ticker := None; nickname := None; rpcPrefs := None;
                 config_id := None |}).
  assert (Hcfg : configurable pc' = configurable pc) by reflexivity.
  assert (Hwc : with_client pc' c = with_client pc c) by reflexivity.
  assert (Hlog : configure_log pc' = configure_log pc) by reflexivity.
  assert (Hco : client_of pc' (_infuraProjectId c)
                = client_of pc (_infuraProjectId c)) by reflexivity.
  unfold initializeProvider_begin. rewrite bind_read_l. fold pc pc'. split.
  - intros Hpc. unfold bind.
    by rewrite (_configureProvider_refuses pc' c) by by rewrite Hcfg.
  - intros Hpc. cbv zeta. rewrite <- Hcfg in Hpc.
    rewrite (bind_eq _ _ _ _ _ _ (_configureProvider_eq pc' c Hpc)).
    rewrite Hwc, Hlog, Hco.
    set (c1 := set_blockTracker _ _).
    rewrite (lookupNetwork_begin_eq c1 {| target := with_client pc c |})
      by reflexivity.
    change (providerStore c1) with pc.
    unfold completion, trace, after, getProviderAndBlockTracker, flag,
      configure_log.
    destruct (Js.truthy (chainId pc)), (isInfuraProviderType (type pc));
      simpl; repeat split; try done;
      intros q Hq; by rewrite lookup_insert_ne.
Qed.

(** X11.  Whatever other steps run while a probe is suspended, the probe
    stays suspended with the [isInfura] it computed at its start; once a
    network change has made it stale it stays stale; and any step that
    publishes [NetworkDidChange] makes it stale. *)
Theorem suspended_probe_is_stable
    (pid : nat) (b : bool) (ops : list Op) (c : NetworkController) :
  suspended pid b c →
  existsb (resumes pid) ops = false →
  let c' := (run ops c).1 in
  suspended pid b c'
  ∧ (flag pid c = Some true → flag pid c' = Some true)
  ∧ (NetworkDidChange ∈ published (run ops c).2 → flag pid c' = Some true).
Proof.
  intros Hs Hops. cbv zeta.
  destruct (keeps_run pid b ops c Hops Hs) as [Hs' Hst].
  split; [done|]. split.
  - intros Hf. apply stale_flag, Hst. left. by apply stale_flag.
  - intros Hin. apply stale_flag, Hst. by right.
Qed.

End ProbeResults.

(** ** More of the registry *)

Section RegistryMore.

Context `{ext : Externals}.

Lemma assoc_obj_delete_eq {A : Type} (k : string) (o : list (string * A)) :
  Js.assoc k (Js.obj_delete k o) = None.
Proof.
  induction o as [|[k' v'] o IH]; simpl; [done|].
  destruct (String.eqb k k') eqn:E; simpl; [done|]. by rewrite E.
Qed.

Lemma assoc_obj_delete_ne {A : Type} (k k' : string) (o : list (string * A)) :
  k ≠ k' → Js.assoc k' (Js.obj_delete k o) = Js.assoc k' o.
Proof.
  intros Hne. induction o as [|[k0 v0] o IH]; simpl; [done|].
  destruct (String.eqb_spec k k0) as [<-|Hk]; simpl.
  - assert (String.eqb k' k = false) as ->; [|done].
    apply String.eqb_neq. congruence.
  - by rewrite IH.
Qed.

Lemma obj_delete_obj_set_fresh {A : Type} (k : string) (v : A)
    (o : list (string * A)) :
  Js.assoc k o = None → Js.obj_delete k (Js.obj_set k v o) = o.
Proof.
  induction o as [|[k' v'] o IH]; simpl.
  - by rewrite String.eqb_refl.
  - destruct (String.eqb k k') eqn:E; [done|]. simpl. rewrite E.
    intros H. by rewrite IH.
Qed.



(** X12.  [removeNetworkConfiguration] returns, whatever id it is given:
    afterwards no entry is stored under that id and every other id holds
    what it held.  It publishes nothing and leaves the provider stores,
    the derived state and the installed client alone, also when the entry
    it removes is the one the provider configuration names. *)
Theorem removeNetworkConfiguration_removes
    (i : string) (c : NetworkController) :
  let r := removeNetworkConfiguration i c in
  completion r = Normal tt
  ∧ published (trace r) = []
  ∧ Js.assoc i (networkConfigurationsStore (after r)) = None
  ∧ (∀ k, k ≠ i →
       Js.assoc k (networkConfigurationsStore (after r))
       = Js.assoc k (networkConfigurationsStore c))
  ∧ providerStore (after r) = providerStore c
  ∧ previousProviderStore (after r) = previousProviderStore c
  ∧ derived (after r) = derived c
  ∧ installed (after r) = installed c.
Proof.
  cbv zeta.
  unfold removeNetworkConfiguration, networkConfigurationsStore_putState,
    bind, read, modify, emit, completion, trace, after.
  simpl. repeat split; try done.
  - apply assoc_obj_delete_eq.
  - intros k Hk. apply assoc_obj_delete_ne. congruence.
Qed.

(** X13.  [upsertNetworkConfiguration] writes the whole entry: after a
    call that passes the checks, the id it returns holds the [rpcUrl],
    chain id, ticker, nickname and [rpcPrefs] of the input and nothing of
    what the id held before; every other id holds what it held; and the
    ids keep their order, a new one coming last. *)
Theorem upsert_overwrites
    (input : NetworkConfigurationInput) (options : UpsertOptions)
    (uuid : string) (c : NetworkController) :
  valid_upsert input options = true →
  let r := upsertNetworkConfiguration input options uuid c in
  ∃ newId,
    completion r = Normal newId
    ∧ Js.assoc newId (networkConfigurationsStore (after r))
      = Some {| nc_id := newId;
                nc_rpcUrl := the (in_rpcUrl input);
                nc_chainId := in_chainId input;
                nc_ticker := the (in_ticker input);
                nc_nickname := in_nickname input;
                nc_rpcPrefs := in_rpcPrefs input |}
    ∧ (∀ k, k ≠ newId →
         Js.assoc k (networkConfigurationsStore (after r))
         = Js.assoc k (networkConfigurationsStore c))
    ∧ (networkConfigurationsStore (after r)).*1
      = if Js.assoc newId (networkConfigurationsStore c) is Some _
        then (networkConfigurationsStore c).*1
        else (networkConfigurationsStore c).*1 ++ [newId].
Proof.
  intros Hv. cbv zeta.
  destruct (upsert_valid input options uuid c Hv) as (Hc & Hr & _).
  eexists. split; [exact Hc|]. rewrite Hr. split; [|split].
  - apply assoc_obj_set_eq.
  - intros k Hk. apply assoc_obj_set_ne. congruence.
  - apply obj_set_keys.
Qed.

(** X14.  Adding a network and removing it again restores the registry:
    when no entry has the input's [rpcUrl] up to letter case and the fresh
    id is not in use, a call of [upsertNetworkConfiguration] that passes
    the checks returns the fresh id, and [removeNetworkConfiguration] with
    that id gives back the registry as it was, entry for entry and in the
    same order. *)
Theorem upsert_then_remove
    (input : NetworkConfigurationInput) (options : UpsertOptions)
    (uuid : string) (c : NetworkController) :
  valid_upsert input options = true →
  matching (the (in_rpcUrl input)) (networkConfigurationsStore c) = [] →
  Js.assoc uuid (networkConfigurationsStore c) = None →
  let r := upsertNetworkConfiguration input options uuid c in
  completion r = Normal uuid
  ∧ networkConfigurationsStore (after (removeNetworkConfiguration uuid (after r)))
    = networkConfigurationsStore c.
Proof.
  intros Hv Hm Hfresh. cbv zeta.
  destruct (upsert_valid input options uuid c Hv) as (Hc & Hr & _).
  rewrite old_id_matching, Hm in Hc, Hr. simpl in Hc, Hr.
  split; [done|].
  unfold removeNetworkConfiguration, networkConfigurationsStore_putState,
    bind, read, modify, emit, after at 1.
  simpl. rewrite Hr. by apply obj_delete_obj_set_fresh.
Qed.


(** X16.  The registry's invariant is kept by every run of calls of the
    public methods and continuations, whatever they are given and whether
    or not they throw, as long as [uuid()] never returns the empty string:
    the registry stays keyed by the ids of its entries, no id is empty,
    and no two entries have the same [rpcUrl] up to letter case. *)
Theorem registry_invariant_holds (ops : list Op) (c : NetworkController) :
  Forall mints_ids ops →
  registry_wf (networkConfigurationsStore c) →
  registry_wf (networkConfigurationsStore (run ops c).1).
Proof. apply registry_wf_run. Qed.

End RegistryMore.

(** ** Invariants of the controller *)

Create HintDb outer.

#[local] Hint Unfold
  providerStore_putState previousProviderStore_putState
  networkIdStore_putState networkStatusStore_putState networkDetails_putState
  networkConfigurationsStore_putState
  getEIP1559Compatibility_begin getEIP1559Compatibility_resume
  createNetworkClient _configureInfuraProvider _configureStandardProvider
  _configureProvider _setProviderConfig initializeProvider_begin
  setActiveNetwork setProviderType resetConnection rollbackToPreviousProvider
  check_URL upsertNetworkConfiguration removeNetworkConfiguration forget method
  : outer.

(** As [sat_with], but the probe, the switch and the installation of a
    client are left folded, for [leaf] to treat as wholes. *)
Ltac sat_outer leaf :=
  repeat lazymatch goal with
  | |- sat _ (bind _ _) => apply sat_bind; [ solve [apply _] | | intros ? ]
  | |- sat _ (ret _) => apply sat_ret; solve [apply _]
  | |- sat _ (throw _) => apply sat_throw; solve [apply _]
  | |- sat _ (read _) => apply sat_read; solve [apply _]
  | |- sat _ (assert_ok _ _) => apply sat_assert_ok; solve [apply _]
  | |- sat _ _ =>
      first [ solve [leaf] | progress autounfold with outer | case_match ]
  end.

Section Invariants.

Context `{ext : Externals}.

Lemma run_preserves (P : NetworkController → Prop) :
  (∀ op c, P c → P (after (method op c))) →
  ∀ ops c, P c → P (run ops c).1.
Proof.
  intros Hstep ops. induction ops as [|op ops IH]; intros c Hc; simpl; [done|].
  by apply IH, Hstep.
Qed.

(** *** The listeners *)

#[global] Instance keeps_listeners_stepwise : Stepwise keeps_listeners.
Proof.
  split; [by intros c H|].
  intros c t1 c1 t2 c2 H1 H2 H. by apply H2, H1.
Qed.

Lemma listeners_wf_fired (c : NetworkController) :
  listeners_wf c → listeners_wf (fired c).
Proof.
  intros Hwf q. rewrite fired_listeners. unfold flag, fired.
  destruct (listeners_fire (didChangeListeners c) c) as (_ & _ & ->).
  split; [by intros ?%elem_of_nil|].
  specialize (Hwf q). unfold flag in Hwf.
  destruct (lookups c !! q) as [fr|]; simpl in *; [|done].
  destruct (decide (q ∈ didChangeListeners c)) as [|Hn]; simpl; [done|].
  intros H. by destruct Hn; apply Hwf.
Qed.

Lemma keeps_listeners_publish (e : NetworkControllerEventType) :
  sat keeps_listeners (messenger_publish e).
Proof.
  intros c. destruct e; try (by intros H). intros H.
  by apply listeners_wf_fired.
Qed.

Lemma keeps_listeners_begin : sat keeps_listeners lookupNetwork_begin.
Proof.
  intros c Hwf. destruct (_providerProxy c) as [p|] eqn:Hp.
  - rewrite (lookupNetwork_begin_eq c p Hp).
    destruct (Js.truthy (chainId (providerStore c))); [|exact Hwf].
    intros q. specialize (Hwf q). unfold flag, after in *. simpl.
    rewrite elem_of_app, list_elem_of_singleton.
    destruct (decide (q = activations c)) as [->|Hne].
    + rewrite lookup_insert_eq. simpl. split; [done|]. intros _. by right.
    + rewrite lookup_insert_ne by done. rewrite <- Hwf. split; [|by left].
      by intros [?|?].
  - unfold lookupNetwork_begin, bind, read, after. simpl. rewrite Hp. exact Hwf.
Qed.

Lemma keeps_listeners_resume (pid : nat) (o : ProbeOutcome) :
  sat keeps_listeners (lookupNetwork_resume pid o).
Proof.
  intros c Hwf. destruct (lookups c !! pid) as [fr|] eqn:Hfr.
  - assert (Hdel : ∀ l : list nat,
        (∀ q, q ∈ l ↔ q ≠ pid ∧ q ∈ didChangeListeners c) →
        ∀ q, q ∈ l ↔ networkChanged <$> delete pid (lookups c) !! q = Some false).
    { intros l Hl q. rewrite Hl. specialize (Hwf q). unfold flag in Hwf.
      destruct (decide (q = pid)) as [->|Hne].
      - rewrite lookup_delete_eq. simpl. split; [by intros [? _]|done].
      - rewrite lookup_delete_ne by done. rewrite Hwf. tauto. }
    destruct (networkChanged fr) eqn:Hch.
    + rewrite (lookupNetwork_resume_stale c pid fr o Hfr Hch).
      assert (Hl : ∀ q, q ∈ didChangeListeners c
                        ↔ q ≠ pid ∧ q ∈ didChangeListeners c).
      { intros q. split; [|by intros [_ ?]].
        intros Hq. split; [|done]. intros ->.
        apply Hwf in Hq. unfold flag in Hq. rewrite Hfr in Hq. simpl in Hq.
        congruence. }
      exact (Hdel _ Hl).
    + destruct (lookupNetwork_resume_live_eq c pid fr o Hfr Hch) as [t ->].
      assert (Hl : ∀ q, q ∈ filter (λ q, q ≠ pid) (didChangeListeners c)
                        ↔ q ≠ pid ∧ q ∈ didChangeListeners c)
        by (intros q; by rewrite list_elem_of_filter).
      unfold after. simpl.
      destruct (decide ((verdict o).2 = Available)); exact (Hdel _ Hl).
  - unfold lookupNetwork_resume, bind, read, after. simpl. by rewrite Hfr.
Qed.

Ltac keeps_listeners_leaf :=
  first
    [ apply keeps_listeners_publish
    | apply keeps_listeners_begin
    | apply keeps_listeners_resume
    | apply sat_emit; intros ? ?; assumption
    | apply sat_modify; intros ? ?; assumption
    | intros ? ?; assumption ].

Lemma keeps_listeners_method (op : Op) : sat keeps_listeners (method op).
Proof.
  destruct op; unfold method, forget;
    try unfold setProviderType, setActiveNetwork, resetConnection,
      rollbackToPreviousProvider, upsertNetworkConfiguration,
      initializeProvider_begin;
    autounfold with outer; unfold _switchNetwork, _setProviderAndBlockTracker,
      _resetNetworkId, _resetNetworkStatus, _resetNetworkDetails,
      networkDetails_updateState_1559;
    sat_outer keeps_listeners_leaf.
Qed.

(** *** The derived state *)

#[global] Instance keeps_derived_stepwise : Stepwise keeps_derived.
Proof.
  split; [by intros c H|].
  intros c t1 c1 t2 c2 H1 H2 H. by apply H2, H1.
Qed.

Lemma derived_wf_ext (c c' : NetworkController) :
  derived c' = derived c → derived_wf c → derived_wf c'.
Proof.
  unfold derived, derived_wf. intros [= -> -> ->]. done.
Qed.

Lemma derived_wf_defaults (c : NetworkController) :
  derived c = derived_defaults → derived_wf c.
Proof. unfold derived, derived_defaults, derived_wf. by intros [= _ -> _]. Qed.

Lemma verdict_available_inv (o : ProbeOutcome) :
  (verdict o).2 = Available →
  ∃ n s, (verdict o).1.1 = Some n
         ∧ Js.ToString n = Some s ∧ Js.test_decimal s = true.
Proof.
  unfold verdict, error_status.
  destruct (Promise_all o) as [[n b]|e].
  - destruct (assertNetworkId n) as [e|] eqn:E; simpl.
    + by repeat case_match.
    + intros _. apply assertNetworkId_passes in E as (s & Hs & Hd).
      by exists n, s.
  - simpl. by repeat case_match.
Qed.

Lemma keeps_derived_publish (e : NetworkControllerEventType) :
  sat keeps_derived (messenger_publish e).
Proof.
  intros c. destruct e; try (by intros H). intros Hwf.
  eapply derived_wf_ext; [|exact Hwf]. unfold after. simpl.
  destruct (listeners_fire_outside (didChangeListeners c) c) as (H & _).
  unfold stores in H. unfold derived. by injection H as _ _ -> -> -> _.
Qed.

Lemma keeps_derived_switch (pc : ProviderConfiguration) :
  sat keeps_derived (_switchNetwork pc).
Proof. intros c _. apply derived_wf_defaults, _switchNetwork_derived. Qed.

Lemma keeps_derived_begin : sat keeps_derived lookupNetwork_begin.
Proof.
  intros c Hwf. destruct (_providerProxy c) as [p|] eqn:Hp.
  - rewrite (lookupNetwork_begin_eq c p Hp).
    destruct (Js.truthy (chainId (providerStore c))); [exact Hwf|].
    by apply derived_wf_defaults.
  - unfold lookupNetwork_begin, bind, read, after. simpl. rewrite Hp. exact Hwf.
Qed.

Lemma keeps_derived_resume (pid : nat) (o : ProbeOutcome) :
  sat keeps_derived (lookupNetwork_resume pid o).
Proof.
  intros c Hwf. destruct (lookups c !! pid) as [fr|] eqn:Hfr.
  - destruct (networkChanged fr) eqn:Hch.
    + rewrite (lookupNetwork_resume_stale c pid fr o Hfr Hch). exact Hwf.
    + destruct (lookupNetwork_resume_live_eq c pid fr o Hfr Hch) as [t ->].
      unfold after. simpl.
      destruct (decide ((verdict o).2 = Available)) as [Hav|Hav].
      * intros _. simpl. split; [by apply verdict_available_inv|].
        unfold eip. simpl. rewrite lookup_insert_eq. by eexists.
      * intros Hst. simpl in Hst. done.
  - unfold lookupNetwork_resume, bind, read, after. simpl. by rewrite Hfr.
Qed.

Lemma keeps_derived_update_1559 (b : bool) :
  sat keeps_derived (networkDetails_updateState_1559 b).
Proof.
  intros c Hwf Hst. destruct (Hwf Hst) as [Hid _]. split; [exact Hid|].
  unfold networkDetails_updateState_1559, bind, read, modify, emit, after, eip.
  simpl. rewrite lookup_insert_eq. by eexists.
Qed.

Ltac keeps_derived_leaf :=
  first
    [ apply keeps_derived_publish
    | apply keeps_derived_switch
    | apply keeps_derived_begin
    | apply keeps_derived_resume
    | apply keeps_derived_update_1559
    | apply sat_emit; intros ? ?; assumption
    | apply sat_modify; intros ? ?; assumption
    | intros ? ?; assumption ].

Lemma keeps_derived_method (op : Op) : sat keeps_derived (method op).
Proof.
  destruct op; unfold method, forget;
    autounfold with outer; unfold _setProviderAndBlockTracker;
    sat_outer keeps_derived_leaf.
Qed.

(** *** The proxies *)

#[global] Instance keeps_proxies_stepwise : Stepwise keeps_proxies.
Proof.
  split; [by intros c|].
  intros c t1 c1 t2 c2 (H1 & H2 & H3) (H4 & H5 & H6).
  split; [|split]; intros H; [apply H4, H1|apply H5, H2|apply H6, H3]; done.
Qed.

Lemma keeps_proxies_ext (c c' : NetworkController) :
  installed c' = installed c → keeps_proxies c [] c'.
Proof.
  unfold installed, keeps_proxies, proxies_wf. by intros [= -> -> -> ->].
Qed.

Lemma keeps_proxies_publish (e : NetworkControllerEventType) :
  sat keeps_proxies (messenger_publish e).
Proof.
  intros c. destruct e; try done.
  apply (keeps_proxies_ext c). unfold after. simpl.
  by destruct (listeners_fire_outside (didChangeListeners c) c) as (_ & H & _).
Qed.

Lemma keeps_proxies_install (client : NetworkClient) :
  sat keeps_proxies (_setProviderAndBlockTracker client).
Proof.
  intros c. unfold _setProviderAndBlockTracker, bind, modify, after,
    keeps_proxies, proxies_wf, install.
  simpl. by destruct (_providerProxy c), (_blockTrackerProxy c).
Qed.

Ltac keeps_proxies_leaf :=
  first
    [ apply keeps_proxies_publish
    | apply keeps_proxies_install
    | apply sat_emit; intros; done
    | unfold messenger_subscribe, messenger_unsubscribe;
      apply sat_modify; intros; done
    | intros ?; done ].

Lemma keeps_proxies_method (op : Op) : sat keeps_proxies (method op).
Proof.
  destruct op; unfold method, forget;
    autounfold with outer;
    unfold _switchNetwork, lookupNetwork_begin, lookupNetwork_resume,
      lookupNetwork_try, lookupNetwork_catch,
      _resetNetworkId, _resetNetworkStatus, _resetNetworkDetails,
      networkDetails_updateState_1559;
    autounfold with outer;
    sat_outer keeps_proxies_leaf.
Qed.

Lemma keeps_proxies_run (ops : list Op) (c : NetworkController) :
  keeps_proxies c (run ops c).2 (run ops c).1.
Proof.
  revert c. induction ops as [|op ops IH]; intros c; simpl.
  - apply stepwise_refl.
  - eapply stepwise_trans; [apply keeps_proxies_method|apply IH].
Qed.

(** X17.  No listener leaks: along every run of calls and continuations,
    the listeners subscribed to [NetworkDidChange] stay exactly those of
    the probes that are suspended and that no network change has
    invalidated.  A probe that was continued, or invalidated, has no
    listener left. *)
Theorem listeners_never_leak (ops : list Op) (c : NetworkController) :
  listeners_wf c → listeners_wf (run ops c).1.
Proof.
  revert ops c. apply run_preserves. intros op c. apply keeps_listeners_method.
Qed.

(** X18.  Along every run of calls and continuations, a controller whose
    status is [Available] holds a network id that converts to a non-empty
    string of decimal digits (the value that [net_version] returned: such
    a string, or for instance the number it spells) and a known EIP-1559
    flag. *)
Theorem available_has_network_id (ops : list Op) (c : NetworkController) :
  derived_wf c → derived_wf (run ops c).1.
Proof.
  revert ops c. apply run_preserves. intros op c. apply keeps_derived_method.
Qed.

(** X19.  Along every run of calls and continuations, the two proxies
    that [getProviderAndBlockTracker] returns target the client the
    controller holds, and a proxy that has been created never becomes
    null again. *)
Theorem proxies_follow_the_client (ops : list Op) (c : NetworkController) :
  proxies_wf c →
  let c' := (run ops c).1 in
  getProviderAndBlockTracker c'
  = (mkSwappableProxy <$> _provider c', mkSwappableProxy <$> _blockTracker c')
  ∧ (is_Some (_providerProxy c) → is_Some (_providerProxy c'))
  ∧ (is_Some (_blockTrackerProxy c) → is_Some (_blockTrackerProxy c')).
Proof.
  intros Hwf. cbv zeta.
  destruct (keeps_proxies_run ops c) as (H1 & H2 & H3).
  destruct (H1 Hwf) as [Hp Hb].
  split; [|done]. unfold getProviderAndBlockTracker. by rewrite Hp, Hb.
Qed.

Lemma blank_wf
    (provider : ProviderConfiguration) (details : NetworkDetails)
    (configurations : NetworkConfigurations) (infuraProjectId : string) :
  let c := blank provider details configurations infuraProjectId in
  listeners_wf c ∧ derived_wf c ∧ proxies_wf c.
Proof.
  cbv zeta. split; [|done]. intros q. split; [|done].
  intros Hq. by apply elem_of_nil in Hq.
Qed.

(** X20.  The constructor throws on an empty [infuraProjectId], before
    anything can use the controller.  The controller it returns has the
    persisted provider configuration, or the default one, in both
    provider stores; its status is [Unknown]; it has no client, no proxy,
    no listener and no probe in flight.  On it, [lookupNetwork] returns
    at once with a warning and writes nothing.  And whatever calls and
    continuations run from it, the three invariants above hold of the
    controller they lead to. *)
Theorem constructor_starts_clean
    (defaultProvider : ProviderConfiguration)
    (state_provider : option ProviderConfiguration)
    (state_networkDetails : option NetworkDetails)
    (state_networkConfigurations : option NetworkConfigurations)
    (infuraProjectId : string) :
  match constructor defaultProvider state_provider state_networkDetails
          state_networkConfigurations infuraProjectId with
  | Throw e => infuraProjectId = "" ∧ e = Error "Invalid Infura project ID"
  | Normal c =>
      infuraProjectId ≠ ""
      ∧ providerStore c = default defaultProvider state_provider
      ∧ previousProviderStore c = providerStore c
      ∧ networkStatusStore c = Unknown
      ∧ getProviderAndBlockTracker c = (None, None)
      ∧ (_provider c, _blockTracker c) = (None, None)
      ∧ didChangeListeners c = []
      ∧ lookups c = ∅
      ∧ lookupNetwork_begin c
        = (Normal None, c,
           [LogWarn
              "NetworkController - lookupNetwork aborted due to missing provider"])
      ∧ ∀ ops,
          let c' := (run ops c).1 in
          listeners_wf c' ∧ derived_wf c' ∧ proxies_wf c'
  end.
Proof.
  unfold constructor. destruct (String.eqb_spec infuraProjectId "") as [->|Hne].
  - done.
  - destruct (blank_wf (default defaultProvider state_provider)
                (default buildDefaultNetworkDetailsState state_networkDetails)
                (default buildDefaultNetworkConfigurationsState
                   state_networkConfigurations)
                infuraProjectId) as (Hl & Hd & Hp).
    do 9 (split; [done|]).
    intros ops. cbv zeta. split; [|split].
    + revert Hl. apply run_preserves. intros op c. apply keeps_listeners_method.
    + revert Hd. apply run_preserves. intros op c. apply keeps_derived_method.
    + destruct (keeps_proxies_run ops
                  (blank (default defaultProvider state_provider)
                     (default buildDefaultNetworkDetailsState
                        state_networkDetails)
                     (default buildDefaultNetworkConfigurationsState
                        state_networkConfigurations)
                     infuraProjectId)) as (H & _).
      by apply H.
Qed.

End Invariants.

(** ** The order of the events *)

Section Events.

Context `{ext : Externals}.

Lemma run_sat (R : Rel) `{!Stepwise R} :
  (∀ op, sat R (method op)) →
  ∀ ops c, R c (run ops c).2 (run ops c).1.
Proof.
  intros Hstep ops. induction ops as [|op ops IH]; intros c; simpl.
  - apply stepwise_refl.
  - eapply stepwise_trans; [apply Hstep|apply IH].
Qed.

Lemma announced_from_mono (w : bool) (l : list NetworkControllerEventType) :
  announced_from false l = true → announced_from w l = true.
Proof. destruct l as [|[] l]; simpl; try done. Qed.

Lemma announced_from_app (w : bool) (l1 l2 : list NetworkControllerEventType) :
  announced_from w l1 = true → announced_from false l2 = true →
  announced_from w (l1 ++ l2) = true.
Proof.
  revert w. induction l1 as [|e l1 IH]; intros w H1 H2; simpl in *.
  - by apply announced_from_mono.
  - destruct e; try by apply IH.
    apply andb_true_iff in H1 as [-> H1]. simpl. by apply IH.
Qed.

Lemma announced_from_inv (w : bool) (l l1 l2 : list NetworkControllerEventType) :
  announced_from w l = true → l = l1 ++ NetworkDidChange :: l2 →
  (l1 = [] ∧ w = true) ∨ ∃ l0, l1 = l0 ++ [NetworkWillChange].
Proof.
  revert w l. induction l1 as [|e l1 IH]; intros w l H ->; simpl in *.
  - apply andb_true_iff in H as [-> _]. by left.
  - right.
    assert (Hrest : ∀ w', announced_from w' (l1 ++ NetworkDidChange :: l2) = true →
              (w' = true → e = NetworkWillChange) →
              ∃ l0, e :: l1 = l0 ++ [NetworkWillChange]).
    { intros w' H' Hw.
      destruct (IH w' _ H' eq_refl) as [[-> ->]|[l0 ->]].
      - exists []. simpl. by rewrite Hw.
      - by exists (e :: l0). }
    destruct e.
    + apply andb_true_iff in H as [_ H]. by apply (Hrest false).
    + by apply (Hrest true).
    + by apply (Hrest false).
    + by apply (Hrest false).
Qed.

#[global] Instance announced_stepwise : Stepwise announced.
Proof.
  split; [done|]. unfold announced. intros c t1 c1 t2 c2 H1 H2.
  rewrite published_app. by apply announced_from_app.
Qed.

Lemma announced_publish (e : NetworkControllerEventType) :
  e ≠ NetworkDidChange → sat announced (messenger_publish e).
Proof. intros He c. by destruct e. Qed.

Lemma announced_switch (pc : ProviderConfiguration) :
  sat announced (_switchNetwork pc).
Proof.
  intros c. unfold announced. destruct (configurable pc) eqn:Hpc.
  - destruct (_switchNetwork_goes_through pc c Hpc) as (_ & -> & _).
    unfold configure_log.
    by destruct (Js.truthy (chainId (providerStore c))),
      (isInfuraProviderType (type pc)).
  - rewrite _switchNetwork_eq. unfold switch_rest.
    unfold bind at 1. by rewrite (_configureProvider_refuses pc _ Hpc).
Qed.

Ltac announced_leaf :=
  first
    [ apply announced_switch
    | apply announced_publish; discriminate
    | apply sat_emit; intros; reflexivity
    | unfold messenger_subscribe, messenger_unsubscribe;
      apply sat_modify; intros; reflexivity
    | intros ?; reflexivity ].

Lemma announced_method (op : Op) : sat announced (method op).
Proof.
  destruct op; unfold method, forget;
    autounfold with outer;
    unfold lookupNetwork_begin, lookupNetwork_resume,
      lookupNetwork_try, lookupNetwork_catch, _setProviderAndBlockTracker,
      _resetNetworkId, _resetNetworkStatus, _resetNetworkDetails,
      networkDetails_updateState_1559;
    autounfold with outer;
    sat_outer announced_leaf.
Qed.

(** X21.  In the sequence of events a controller publishes over any run
    of calls and continuations, every [NetworkDidChange] comes right after
    a [NetworkWillChange]: no network change is completed that was not
    announced, and no other event is published between the two. *)
Theorem network_change_is_announced
    (ops : list Op) (c : NetworkController)
    (before after_ : list NetworkControllerEventType) :
  published (run ops c).2 = before ++ NetworkDidChange :: after_ →
  ∃ earlier, before = earlier ++ [NetworkWillChange].
Proof.
  intros Heq.
  pose proof (run_sat announced announced_method ops c) as H.
  unfold announced in H.
  by destruct (announced_from_inv _ _ _ _ H Heq) as [[_ ?]|?].
Qed.

End Events.

(** ** The theorems above on concrete calls *)

Section MoreWitnesses.

#[local] Existing Instance Sample.externals.

Lemma probing_suspended : suspended 0 false Scenario.probing.
Proof.
  exists {| isInfura := false; networkChanged := false |}.
  split; [by vm_compute|]. split; [done|]. split.
  - assert (H : activations Scenario.probing = 1%nat) by (vm_compute; reflexivity).
    rewrite H. lia.
  - intros _. apply (bool_decide_unpack _). vm_compute. exact I.
Qed.

Lemma _switchNetwork_runs_in_order_witness :
  let pc := providerStore Scenario.on_mainnet in
  configurable pc = true
  ∧ completion (_switchNetwork pc Scenario.wired) = Normal tt.
Proof.
  intros pc.
  assert (H : configurable pc = true) by (vm_compute; reflexivity).
  split; [exact H|].
  destruct (_switchNetwork_runs_in_order pc Scenario.wired H) as (Hc & _).
  exact Hc.
Defined.

Lemma setProviderType_switches_witness :
  isInfuraProviderType "goerli" = true
  ∧ (∃ network, BUILT_IN_INFURA_NETWORKS "goerli" = Some network)
  ∧ previousProviderStore (after (setProviderType "goerli" Scenario.wired))
    = providerStore Scenario.wired.
Proof.
  assert (H1 : isInfuraProviderType "goerli" = true) by (vm_compute; reflexivity).
  assert (H2 : ∃ network, BUILT_IN_INFURA_NETWORKS "goerli" = Some network)
    by (vm_compute; eexists; reflexivity).
  split; [exact H1|]. split; [exact H2|].
  destruct H2 as [network H2].
  destruct (setProviderType_switches "goerli" network Scenario.wired H1 H2)
    as (_ & _ & Hp & _).
  exact Hp.
Defined.


Lemma lookupNetwork_settles_witness :
  let fr := {| isInfura := false; networkChanged := false |} in
  lookups Scenario.probing !! 0%nat = Some fr
  ∧ flag 0 (after (lookupNetwork_resume 0 Scenario.healthy Scenario.probing))
    = None.
Proof.
  intros fr.
  assert (H1 : lookups Scenario.probing !! 0%nat = Some fr)
    by (vm_compute; reflexivity).
  assert (H2 : networkChanged fr = false) by reflexivity.
  split; [exact H1|].
  destruct (lookupNetwork_settles Scenario.probing 0 fr Scenario.healthy H1 H2)
    as (_ & _ & _ & _ & _ & Hf & _).
  exact Hf.
Defined.

Lemma suspended_probe_is_stable_witness :
  let ops := [SetProviderType "goerli"] in
  existsb (resumes 0) ops = false
  ∧ suspended 0 false (run ops Scenario.probing).1.
Proof.
  intros ops.
  assert (H : existsb (resumes 0) ops = false) by reflexivity.
  split; [exact H|].
  destruct (suspended_probe_is_stable 0 false ops Scenario.probing
              probing_suspended H) as (Hs & _).
  exact Hs.
Defined.

Lemma upsert_overwrites_witness :
  valid_upsert Scenario.Foo Scenario.from_ui = true
  ∧ ∃ newId,
      completion (upsertNetworkConfiguration Scenario.Foo Scenario.from_ui
                    Scenario.uuid1 Scenario.fresh) = Normal newId.
Proof.
  assert (H : valid_upsert Scenario.Foo Scenario.from_ui = true)
    by (vm_compute; reflexivity).
  split; [exact H|].
  destruct (upsert_overwrites Scenario.Foo Scenario.from_ui Scenario.uuid1
              Scenario.fresh H) as (newId & Hc & _).
  exists newId. exact Hc.
Defined.

Lemma upsert_then_remove_witness :
  let c :=
    after (upsertNetworkConfiguration Scenario.Foo Scenario.from_ui
             Scenario.uuid1 Scenario.wired) in
  let Bar :=
    {| in_rpcUrl := Some "https://bar/"; in_chainId := "0x89";
       in_ticker := Some "B"; in_nickname := Some "Bar";
       in_rpcPrefs := None |} in
  let r := upsertNetworkConfiguration Bar Scenario.from_ui Scenario.uuid2 c in
  valid_upsert Bar Scenario.from_ui = true
  ∧ matching (the (in_rpcUrl Bar)) (networkConfigurationsStore c) = []
  ∧ Js.assoc Scenario.uuid2 (networkConfigurationsStore c) = None
  ∧ length (networkConfigurationsStore c) = 1%nat
  ∧ completion r = Normal Scenario.uuid2
  ∧ networkConfigurationsStore
      (after (removeNetworkConfiguration Scenario.uuid2 (after r)))
    = networkConfigurationsStore c.
Proof.
  intros c Bar r.
  assert (H1 : valid_upsert Bar Scenario.from_ui = true)
    by (vm_compute; reflexivity).
  assert (H2 : matching (the (in_rpcUrl Bar)) (networkConfigurationsStore c)
               = [])
    by (vm_compute; reflexivity).
  assert (H3 : Js.assoc Scenario.uuid2 (networkConfigurationsStore c) = None)
    by (vm_compute; reflexivity).
  assert (H4 : length (networkConfigurationsStore c) = 1%nat)
    by (vm_compute; reflexivity).
  split; [exact H1|]. split; [exact H2|]. split; [exact H3|].
  split; [exact H4|].
  exact (upsert_then_remove Bar Scenario.from_ui Scenario.uuid2 c H1 H2 H3).
Defined.


Lemma registry_invariant_holds_witness :
  let ops :=
    [UpsertNetworkConfiguration Scenario.Foo Scenario.from_ui Scenario.uuid1;
     UpsertNetworkConfiguration Scenario.foo Scenario.from_ui Scenario.uuid2;
     RemoveNetworkConfiguration Scenario.uuid1] in
  Forall mints_ids ops
  ∧ registry_wf (networkConfigurationsStore Scenario.fresh)
  ∧ registry_wf (networkConfigurationsStore (run ops Scenario.fresh).1).
Proof.
  intros ops.
  assert (H1 : Forall mints_ids ops).
  { repeat apply Forall_cons_2; try apply Forall_nil_2; simpl;
      try discriminate; exact I. }
  assert (H2 : registry_wf (networkConfigurationsStore Scenario.fresh))
    by exact registry_wf_empty.
  split; [exact H1|]. split; [exact H2|].
  exact (registry_invariant_holds ops Scenario.fresh H1 H2).
Defined.

Lemma fresh_wf :
  listeners_wf Scenario.fresh ∧ derived_wf Scenario.fresh
  ∧ proxies_wf Scenario.fresh.
Proof. apply blank_wf. Qed.

Lemma listeners_never_leak_witness :
  let ops :=
    [InitializeProvider; SetProviderType "goerli";
     LookupNetwork_settled 0 Scenario.healthy] in
  listeners_wf Scenario.fresh ∧ listeners_wf (run ops Scenario.fresh).1.
Proof.
  intros ops.
  assert (H : listeners_wf Scenario.fresh) by exact (proj1 fresh_wf).
  split; [exact H|]. exact (listeners_never_leak ops Scenario.fresh H).
Defined.

Lemma available_has_network_id_witness :
  let ops := [InitializeProvider; LookupNetwork_settled 0 Scenario.healthy] in
  derived_wf Scenario.fresh ∧ derived_wf (run ops Scenario.fresh).1.
Proof.
  intros ops.
  assert (H : derived_wf Scenario.fresh) by exact (proj1 (proj2 fresh_wf)).
  split; [exact H|]. exact (available_has_network_id ops Scenario.fresh H).
Defined.

Lemma proxies_follow_the_client_witness :
  let ops := [InitializeProvider; SetProviderType "goerli"] in
  let c' := (run ops Scenario.fresh).1 in
  proxies_wf Scenario.fresh
  ∧ getProviderAndBlockTracker c'
    = (mkSwappableProxy <$> _provider c', mkSwappableProxy <$> _blockTracker c').
Proof.
  intros ops c'.
  assert (H : proxies_wf Scenario.fresh) by exact (proj2 (proj2 fresh_wf)).
  split; [exact H|].
  destruct (proxies_follow_the_client ops Scenario.fresh H) as (Hg & _).
  exact Hg.
Defined.

Lemma network_change_is_announced_witness :
  let ops := [SetProviderType "goerli"] in
  published (run ops Scenario.wired).2
    = [NetworkWillChange] ++ NetworkDidChange :: []
  ∧ ∃ earlier, [NetworkWillChange] = earlier ++ [NetworkWillChange].
Proof.
  intros ops.
  assert (H : published (run ops Scenario.wired).2
              = [NetworkWillChange] ++ NetworkDidChange :: [])
    by (vm_compute; reflexivity).
  split; [exact H|].
  exact (network_change_is_announced ops Scenario.wired _ _ H).
Defined.

End MoreWitnesses.
